(** * clean_data.py: MySQL INSERT data cleaned for SQL Server

    A shallow embedding of [clean_sql_data] and of the six text passes
    nested in it, with the part of Python's [str] methods and of the
    [re] module that they call.

    Text is a list of Unicode code points ([N]), as a Python [str] is.
    The character classes ([\s], [\w], [\d]), the white space of
    [str.strip] and of [int], the comparison of re.IGNORECASE and the
    case mappings of [str.capitalize] are those of CPython 3.11 on every
    code point, with the tables of the Unicode database (14.0) that
    they read written out.  Every regular expression of the program is written as
    a term of [regex] and run by one backtracking matcher with the
    priorities of the [re] module (leftmost start, alternatives in
    order, greedy or lazy repetition).  Reading and writing files are
    parameters of [clean_sql_data]; what it prints is part of its
    result.  [create_sample_files] and [main] follow, with the entries
    of the directory and the answer typed at the prompt as parameters
    of [main]. *)

From Stdlib Require Import Ascii String DecimalString.
From Stdlib Require Import List NArith ZArith Arith Bool Lia.
Import ListNotations.

Set Implicit Arguments.

(** ** Text *)

Abbreviation char := N.
Abbreviation str := (list N).

(** [u "abc"] is the text of an ASCII literal. *)
Definition u (s : string) : str := map N_of_ascii (list_ascii_of_string s).

Definition NL : char := 10%N.
Definition SPACE : char := 32%N.
Definition QUOTE : char := 39%N.
Definition BACKSLASH : char := 92%N.
Definition BACKTICK : char := 96%N.
Definition COMMA : char := 44%N.
Definition SEMI : char := 59%N.
Definition UNDERSCORE : char := 95%N.
Definition LPAREN : char := 40%N.
Definition RPAREN : char := 41%N.

Definition in_range (lo hi c : char) : bool := N.leb lo c && N.leb c hi.
Arguments in_range (lo hi c)%_N_scope.

(** [c] lies in one of the ranges. *)
Definition in_ranges (rs : list (N * N)) (c : char) : bool :=
  existsb (fun r => in_range (fst r) (snd r) c) rs.

(** The white space of Python text: the characters for which
    [str.isspace] holds, which [str.strip] removes and which [\s]
    matches in a pattern on a [str]. *)
Definition space_ranges : list (N * N) :=
  [(9, 13); (28, 32); (133, 133); (160, 160); (5760, 5760); (8192, 8202);
   (8232, 8233); (8239, 8239); (8287, 8287); (12288, 12288)]%N.

Definition is_space (c : char) : bool := in_ranges space_ranges c.

(** *** The tables of the Unicode database

    The classes and the case mappings of the characters above 127, as
    CPython 3.11 holds them (Unicode 14.0). *)

(** The code points above 127 for which [str.isalnum] holds, as ranges. *)
Definition alnum_ranges : list (N * N) :=
  [(170, 170); (178, 179); (181, 181); (185, 186); (188, 190); (192, 214);
   (216, 246); (248, 705); (710, 721); (736, 740); (748, 748); (750, 750);
   (880, 884); (886, 887); (890, 893); (895, 895); (902, 902); (904, 906);
   (908, 908); (910, 929); (931, 1013); (1015, 1153); (1162, 1327);
   (1329, 1366); (1369, 1369); (1376, 1416); (1488, 1514); (1519, 1522);
   (1568, 1610); (1632, 1641); (1646, 1647); (1649, 1747); (1749, 1749);
   (1765, 1766); (1774, 1788); (1791, 1791); (1808, 1808); (1810, 1839);
   (1869, 1957); (1969, 1969); (1984, 2026); (2036, 2037); (2042, 2042);
   (2048, 2069); (2074, 2074); (2084, 2084); (2088, 2088); (2112, 2136);
   (2144, 2154); (2160, 2183); (2185, 2190); (2208, 2249); (2308, 2361);
   (2365, 2365); (2384, 2384); (2392, 2401); (2406, 2415); (2417, 2432);
   (2437, 2444); (2447, 2448); (2451, 2472); (2474, 2480); (2482, 2482);
   (2486, 2489); (2493, 2493); (2510, 2510); (2524, 2525); (2527, 2529);
   (2534, 2545); (2548, 2553); (2556, 2556); (2565, 2570); (2575, 2576);
   (2579, 2600); (2602, 2608); (2610, 2611); (2613, 2614); (2616, 2617);
   (2649, 2652); (2654, 2654); (2662, 2671); (2674, 2676); (2693, 2701);
   (2703, 2705); (2707, 2728); (2730, 2736); (2738, 2739); (2741, 2745);
   (2749, 2749); (2768, 2768); (2784, 2785); (2790, 2799); (2809, 2809);
   (2821, 2828); (2831, 2832); (2835, 2856); (2858, 2864); (2866, 2867);
   (2869, 2873); (2877, 2877); (2908, 2909); (2911, 2913); (2918, 2927);
   (2929, 2935); (2947, 2947); (2949, 2954); (2958, 2960); (2962, 2965);
   (2969, 2970); (2972, 2972); (2974, 2975); (2979, 2980); (2984, 2986);
   (2990, 3001); (3024, 3024); (3046, 3058); (3077, 3084); (3086, 3088);
   (3090, 3112); (3114, 3129); (3133, 3133); (3160, 3162); (3165, 3165);
   (3168, 3169); (3174, 3183); (3192, 3198); (3200, 3200); (3205, 3212);
   (3214, 3216); (3218, 3240); (3242, 3251); (3253, 3257); (3261, 3261);
   (3293, 3294); (3296, 3297); (3302, 3311); (3313, 3314); (3332, 3340);
   (3342, 3344); (3346, 3386); (3389, 3389); (3406, 3406); (3412, 3414);
   (3416, 3425); (3430, 3448); (3450, 3455); (3461, 3478); (3482, 3505);
   (3507, 3515); (3517, 3517); (3520, 3526); (3558, 3567); (3585, 3632);
   (3634, 3635); (3648, 3654); (3664, 3673); (3713, 3714); (3716, 3716);
   (3718, 3722); (3724, 3747); (3749, 3749); (3751, 3760); (3762, 3763);
   (3773, 3773); (3776, 3780); (3782, 3782); (3792, 3801); (3804, 3807);
   (3840, 3840); (3872, 3891); (3904, 3911); (3913, 3948); (3976, 3980);
   (4096, 4138); (4159, 4169); (4176, 4181); (4186, 4189); (4193, 4193);
   (4197, 4198); (4206, 4208); (4213, 4225); (4238, 4238); (4240, 4249);
   (4256, 4293); (4295, 4295); (4301, 4301); (4304, 4346); (4348, 4680);
   (4682, 4685); (4688, 4694); (4696, 4696); (4698, 4701); (4704, 4744);
   (4746, 4749); (4752, 4784); (4786, 4789); (4792, 4798); (4800, 4800);
   (4802, 4805); (4808, 4822); (4824, 4880); (4882, 4885); (4888, 4954);
   (4969, 4988); (4992, 5007); (5024, 5109); (5112, 5117); (5121, 5740);
   (5743, 5759); (5761, 5786); (5792, 5866); (5870, 5880); (5888, 5905);
   (5919, 5937); (5952, 5969); (5984, 5996); (5998, 6000); (6016, 6067);
   (6103, 6103); (6108, 6108); (6112, 6121); (6128, 6137); (6160, 6169);
   (6176, 6264); (6272, 6276); (6279, 6312); (6314, 6314); (6320, 6389);
   (6400, 6430); (6470, 6509); (6512, 6516); (6528, 6571); (6576, 6601);
   (6608, 6618); (6656, 6678); (6688, 6740); (6784, 6793); (6800, 6809);
   (6823, 6823); (6917, 6963); (6981, 6988); (6992, 7001); (7043, 7072);
   (7086, 7141); (7168, 7203); (7232, 7241); (7245, 7293); (7296, 7304);
   (7312, 7354); (7357, 7359); (7401, 7404); (7406, 7411); (7413, 7414);
   (7418, 7418); (7424, 7615); (7680, 7957); (7960, 7965); (7968, 8005);
   (8008, 8013); (8016, 8023); (8025, 8025); (8027, 8027); (8029, 8029);
   (8031, 8061); (8064, 8116); (8118, 8124); (8126, 8126); (8130, 8132);
   (8134, 8140); (8144, 8147); (8150, 8155); (8160, 8172); (8178, 8180);
   (8182, 8188); (8304, 8305); (8308, 8313); (8319, 8329); (8336, 8348);
   (8450, 8450); (8455, 8455); (8458, 8467); (8469, 8469); (8473, 8477);
   (8484, 8484); (8486, 8486); (8488, 8488); (8490, 8493); (8495, 8505);
   (8508, 8511); (8517, 8521); (8526, 8526); (8528, 8585); (9312, 9371);
   (9450, 9471); (10102, 10131); (11264, 11492); (11499, 11502);
   (11506, 11507); (11517, 11517); (11520, 11557); (11559, 11559);
   (11565, 11565); (11568, 11623); (11631, 11631); (11648, 11670);
   (11680, 11686); (11688, 11694); (11696, 11702); (11704, 11710);
   (11712, 11718); (11720, 11726); (11728, 11734); (11736, 11742);
   (11823, 11823); (12293, 12295); (12321, 12329); (12337, 12341);
   (12344, 12348); (12353, 12438); (12445, 12447); (12449, 12538);
   (12540, 12543); (12549, 12591); (12593, 12686); (12690, 12693);
   (12704, 12735); (12784, 12799); (12832, 12841); (12872, 12879);
   (12881, 12895); (12928, 12937); (12977, 12991); (13312, 19903);
   (19968, 42124); (42192, 42237); (42240, 42508); (42512, 42539);
   (42560, 42606); (42623, 42653); (42656, 42735); (42775, 42783);
   (42786, 42888); (42891, 42954); (42960, 42961); (42963, 42963);
   (42965, 42969); (42994, 43009); (43011, 43013); (43015, 43018);
   (43020, 43042); (43056, 43061); (43072, 43123); (43138, 43187);
   (43216, 43225); (43250, 43255); (43259, 43259); (43261, 43262);
   (43264, 43301); (43312, 43334); (43360, 43388); (43396, 43442);
   (43471, 43481); (43488, 43492); (43494, 43518); (43520, 43560);
   (43584, 43586); (43588, 43595); (43600, 43609); (43616, 43638);
   (43642, 43642); (43646, 43695); (43697, 43697); (43701, 43702);
   (43705, 43709); (43712, 43712); (43714, 43714); (43739, 43741);
   (43744, 43754); (43762, 43764); (43777, 43782); (43785, 43790);
   (43793, 43798); (43808, 43814); (43816, 43822); (43824, 43866);
   (43868, 43881); (43888, 44002); (44016, 44025); (44032, 55203);
   (55216, 55238); (55243, 55291); (63744, 64109); (64112, 64217);
   (64256, 64262); (64275, 64279); (64285, 64285); (64287, 64296);
   (64298, 64310); (64312, 64316); (64318, 64318); (64320, 64321);
   (64323, 64324); (64326, 64433); (64467, 64829); (64848, 64911);
   (64914, 64967); (65008, 65019); (65136, 65140); (65142, 65276);
   (65296, 65305); (65313, 65338); (65345, 65370); (65382, 65470);
   (65474, 65479); (65482, 65487); (65490, 65495); (65498, 65500);
   (65536, 65547); (65549, 65574); (65576, 65594); (65596, 65597);
   (65599, 65613); (65616, 65629); (65664, 65786); (65799, 65843);
   (65856, 65912); (65930, 65931); (66176, 66204); (66208, 66256);
   (66273, 66299); (66304, 66339); (66349, 66378); (66384, 66421);
   (66432, 66461); (66464, 66499); (66504, 66511); (66513, 66517);
   (66560, 66717); (66720, 66729); (66736, 66771); (66776, 66811);
   (66816, 66855); (66864, 66915); (66928, 66938); (66940, 66954);
   (66956, 66962); (66964, 66965); (66967, 66977); (66979, 66993);
   (66995, 67001); (67003, 67004); (67072, 67382); (67392, 67413);
   (67424, 67431); (67456, 67461); (67463, 67504); (67506, 67514);
   (67584, 67589); (67592, 67592); (67594, 67637); (67639, 67640);
   (67644, 67644); (67647, 67669); (67672, 67702); (67705, 67742);
   (67751, 67759); (67808, 67826); (67828, 67829); (67835, 67867);
   (67872, 67897); (67968, 68023); (68028, 68047); (68050, 68096);
   (68112, 68115); (68117, 68119); (68121, 68149); (68160, 68168);
   (68192, 68222); (68224, 68255); (68288, 68295); (68297, 68324);
   (68331, 68335); (68352, 68405); (68416, 68437); (68440, 68466);
   (68472, 68497); (68521, 68527); (68608, 68680); (68736, 68786);
   (68800, 68850); (68858, 68899); (68912, 68921); (69216, 69246);
   (69248, 69289); (69296, 69297); (69376, 69415); (69424, 69445);
   (69457, 69460); (69488, 69505); (69552, 69579); (69600, 69622);
   (69635, 69687); (69714, 69743); (69745, 69746); (69749, 69749);
   (69763, 69807); (69840, 69864); (69872, 69881); (69891, 69926);
   (69942, 69951); (69956, 69956); (69959, 69959); (69968, 70002);
   (70006, 70006); (70019, 70066); (70081, 70084); (70096, 70106);
   (70108, 70108); (70113, 70132); (70144, 70161); (70163, 70187);
   (70272, 70278); (70280, 70280); (70282, 70285); (70287, 70301);
   (70303, 70312); (70320, 70366); (70384, 70393); (70405, 70412);
   (70415, 70416); (70419, 70440); (70442, 70448); (70450, 70451);
   (70453, 70457); (70461, 70461); (70480, 70480); (70493, 70497);
   (70656, 70708); (70727, 70730); (70736, 70745); (70751, 70753);
   (70784, 70831); (70852, 70853); (70855, 70855); (70864, 70873);
   (71040, 71086); (71128, 71131); (71168, 71215); (71236, 71236);
   (71248, 71257); (71296, 71338); (71352, 71352); (71360, 71369);
   (71424, 71450); (71472, 71483); (71488, 71494); (71680, 71723);
   (71840, 71922); (71935, 71942); (71945, 71945); (71948, 71955);
   (71957, 71958); (71960, 71983); (71999, 71999); (72001, 72001);
   (72016, 72025); (72096, 72103); (72106, 72144); (72161, 72161);
   (72163, 72163); (72192, 72192); (72203, 72242); (72250, 72250);
   (72272, 72272); (72284, 72329); (72349, 72349); (72368, 72440);
   (72704, 72712); (72714, 72750); (72768, 72768); (72784, 72812);
   (72818, 72847); (72960, 72966); (72968, 72969); (72971, 73008);
   (73030, 73030); (73040, 73049); (73056, 73061); (73063, 73064);
   (73066, 73097); (73112, 73112); (73120, 73129); (73440, 73458);
   (73648, 73648); (73664, 73684); (73728, 74649); (74752, 74862);
   (74880, 75075); (77712, 77808); (77824, 78894); (82944, 83526);
   (92160, 92728); (92736, 92766); (92768, 92777); (92784, 92862);
   (92864, 92873); (92880, 92909); (92928, 92975); (92992, 92995);
   (93008, 93017); (93019, 93025); (93027, 93047); (93053, 93071);
   (93760, 93846); (93952, 94026); (94032, 94032); (94099, 94111);
   (94176, 94177); (94179, 94179); (94208, 100343); (100352, 101589);
   (101632, 101640); (110576, 110579); (110581, 110587); (110589, 110590);
   (110592, 110882); (110928, 110930); (110948, 110951); (110960, 111355);
   (113664, 113770); (113776, 113788); (113792, 113800); (113808, 113817);
   (119520, 119539); (119648, 119672); (119808, 119892); (119894, 119964);
   (119966, 119967); (119970, 119970); (119973, 119974); (119977, 119980);
   (119982, 119993); (119995, 119995); (119997, 120003); (120005, 120069);
   (120071, 120074); (120077, 120084); (120086, 120092); (120094, 120121);
   (120123, 120126); (120128, 120132); (120134, 120134); (120138, 120144);
   (120146, 120485); (120488, 120512); (120514, 120538); (120540, 120570);
   (120572, 120596); (120598, 120628); (120630, 120654); (120656, 120686);
   (120688, 120712); (120714, 120744); (120746, 120770); (120772, 120779);
   (120782, 120831); (122624, 122654); (123136, 123180); (123191, 123197);
   (123200, 123209); (123214, 123214); (123536, 123565); (123584, 123627);
   (123632, 123641); (124896, 124902); (124904, 124907); (124909, 124910);
   (124912, 124926); (124928, 125124); (125127, 125135); (125184, 125251);
   (125259, 125259); (125264, 125273); (126065, 126123); (126125, 126127);
   (126129, 126132); (126209, 126253); (126255, 126269); (126464, 126467);
   (126469, 126495); (126497, 126498); (126500, 126500); (126503, 126503);
   (126505, 126514); (126516, 126519); (126521, 126521); (126523, 126523);
   (126530, 126530); (126535, 126535); (126537, 126537); (126539, 126539);
   (126541, 126543); (126545, 126546); (126548, 126548); (126551, 126551);
   (126553, 126553); (126555, 126555); (126557, 126557); (126559, 126559);
   (126561, 126562); (126564, 126564); (126567, 126570); (126572, 126578);
   (126580, 126583); (126585, 126588); (126590, 126590); (126592, 126601);
   (126603, 126619); (126625, 126627); (126629, 126633); (126635, 126651);
   (127232, 127244); (130032, 130041); (131072, 173791); (173824, 177976);
   (177984, 178205); (178208, 183969); (183984, 191456); (194560, 195101);
   (196608, 201546)]%N.

(** The decimal digits above 127 ([str.isdecimal]): each range begins at
    a digit zero and holds whole runs of the ten digits. *)
Definition decimal_ranges : list (N * N) :=
  [(1632, 1641); (1776, 1785); (1984, 1993); (2406, 2415); (2534, 2543);
   (2662, 2671); (2790, 2799); (2918, 2927); (3046, 3055); (3174, 3183);
   (3302, 3311); (3430, 3439); (3558, 3567); (3664, 3673); (3792, 3801);
   (3872, 3881); (4160, 4169); (4240, 4249); (6112, 6121); (6160, 6169);
   (6470, 6479); (6608, 6617); (6784, 6793); (6800, 6809); (6992, 7001);
   (7088, 7097); (7232, 7241); (7248, 7257); (42528, 42537); (43216, 43225);
   (43264, 43273); (43472, 43481); (43504, 43513); (43600, 43609);
   (44016, 44025); (65296, 65305); (66720, 66729); (68912, 68921);
   (69734, 69743); (69872, 69881); (69942, 69951); (70096, 70105);
   (70384, 70393); (70736, 70745); (70864, 70873); (71248, 71257);
   (71360, 71369); (71472, 71481); (71904, 71913); (72016, 72025);
   (72784, 72793); (73040, 73049); (73120, 73129); (92768, 92777);
   (92864, 92873); (93008, 93017); (120782, 120831); (123200, 123209);
   (123632, 123641); (125264, 125273); (130032, 130041)]%N.

(** The code points that the rule of the final sigma passes over. *)
Definition case_ignorable_ranges : list (N * N) :=
  [(39, 39); (46, 46); (58, 58); (94, 94); (96, 96); (168, 168); (173, 173);
   (175, 175); (180, 180); (183, 184); (688, 879); (884, 885); (890, 890);
   (900, 901); (903, 903); (1155, 1161); (1369, 1369); (1375, 1375);
   (1425, 1469); (1471, 1471); (1473, 1474); (1476, 1477); (1479, 1479);
   (1524, 1524); (1536, 1541); (1552, 1562); (1564, 1564); (1600, 1600);
   (1611, 1631); (1648, 1648); (1750, 1757); (1759, 1768); (1770, 1773);
   (1807, 1807); (1809, 1809); (1840, 1866); (1958, 1968); (2027, 2037);
   (2042, 2042); (2045, 2045); (2070, 2093); (2137, 2139); (2184, 2184);
   (2192, 2193); (2200, 2207); (2249, 2306); (2362, 2362); (2364, 2364);
   (2369, 2376); (2381, 2381); (2385, 2391); (2402, 2403); (2417, 2417);
   (2433, 2433); (2492, 2492); (2497, 2500); (2509, 2509); (2530, 2531);
   (2558, 2558); (2561, 2562); (2620, 2620); (2625, 2626); (2631, 2632);
   (2635, 2637); (2641, 2641); (2672, 2673); (2677, 2677); (2689, 2690);
   (2748, 2748); (2753, 2757); (2759, 2760); (2765, 2765); (2786, 2787);
   (2810, 2815); (2817, 2817); (2876, 2876); (2879, 2879); (2881, 2884);
   (2893, 2893); (2901, 2902); (2914, 2915); (2946, 2946); (3008, 3008);
   (3021, 3021); (3072, 3072); (3076, 3076); (3132, 3132); (3134, 3136);
   (3142, 3144); (3146, 3149); (3157, 3158); (3170, 3171); (3201, 3201);
   (3260, 3260); (3263, 3263); (3270, 3270); (3276, 3277); (3298, 3299);
   (3328, 3329); (3387, 3388); (3393, 3396); (3405, 3405); (3426, 3427);
   (3457, 3457); (3530, 3530); (3538, 3540); (3542, 3542); (3633, 3633);
   (3636, 3642); (3654, 3662); (3761, 3761); (3764, 3772); (3782, 3782);
   (3784, 3789); (3864, 3865); (3893, 3893); (3895, 3895); (3897, 3897);
   (3953, 3966); (3968, 3972); (3974, 3975); (3981, 3991); (3993, 4028);
   (4038, 4038); (4141, 4144); (4146, 4151); (4153, 4154); (4157, 4158);
   (4184, 4185); (4190, 4192); (4209, 4212); (4226, 4226); (4229, 4230);
   (4237, 4237); (4253, 4253); (4348, 4348); (4957, 4959); (5906, 5908);
   (5938, 5939); (5970, 5971); (6002, 6003); (6068, 6069); (6071, 6077);
   (6086, 6086); (6089, 6099); (6103, 6103); (6109, 6109); (6155, 6159);
   (6211, 6211); (6277, 6278); (6313, 6313); (6432, 6434); (6439, 6440);
   (6450, 6450); (6457, 6459); (6679, 6680); (6683, 6683); (6742, 6742);
   (6744, 6750); (6752, 6752); (6754, 6754); (6757, 6764); (6771, 6780);
   (6783, 6783); (6823, 6823); (6832, 6862); (6912, 6915); (6964, 6964);
   (6966, 6970); (6972, 6972); (6978, 6978); (7019, 7027); (7040, 7041);
   (7074, 7077); (7080, 7081); (7083, 7085); (7142, 7142); (7144, 7145);
   (7149, 7149); (7151, 7153); (7212, 7219); (7222, 7223); (7288, 7293);
   (7376, 7378); (7380, 7392); (7394, 7400); (7405, 7405); (7412, 7412);
   (7416, 7417); (7468, 7530); (7544, 7544); (7579, 7679); (8125, 8125);
   (8127, 8129); (8141, 8143); (8157, 8159); (8173, 8175); (8189, 8190);
   (8203, 8207); (8216, 8217); (8228, 8228); (8231, 8231); (8234, 8238);
   (8288, 8292); (8294, 8303); (8305, 8305); (8319, 8319); (8336, 8348);
   (8400, 8432); (11388, 11389); (11503, 11505); (11631, 11631);
   (11647, 11647); (11744, 11775); (11823, 11823); (12293, 12293);
   (12330, 12333); (12337, 12341); (12347, 12347); (12441, 12446);
   (12540, 12542); (40981, 40981); (42232, 42237); (42508, 42508);
   (42607, 42610); (42612, 42621); (42623, 42623); (42652, 42655);
   (42736, 42737); (42752, 42785); (42864, 42864); (42888, 42890);
   (42994, 42996); (43000, 43001); (43010, 43010); (43014, 43014);
   (43019, 43019); (43045, 43046); (43052, 43052); (43204, 43205);
   (43232, 43249); (43263, 43263); (43302, 43309); (43335, 43345);
   (43392, 43394); (43443, 43443); (43446, 43449); (43452, 43453);
   (43471, 43471); (43493, 43494); (43561, 43566); (43569, 43570);
   (43573, 43574); (43587, 43587); (43596, 43596); (43632, 43632);
   (43644, 43644); (43696, 43696); (43698, 43700); (43703, 43704);
   (43710, 43711); (43713, 43713); (43741, 43741); (43756, 43757);
   (43763, 43764); (43766, 43766); (43867, 43871); (43881, 43883);
   (44005, 44005); (44008, 44008); (44013, 44013); (64286, 64286);
   (64434, 64450); (65024, 65039); (65043, 65043); (65056, 65071);
   (65106, 65106); (65109, 65109); (65279, 65279); (65287, 65287);
   (65294, 65294); (65306, 65306); (65342, 65342); (65344, 65344);
   (65392, 65392); (65438, 65439); (65507, 65507); (65529, 65531);
   (66045, 66045); (66272, 66272); (66422, 66426); (67456, 67461);
   (67463, 67504); (67506, 67514); (68097, 68099); (68101, 68102);
   (68108, 68111); (68152, 68154); (68159, 68159); (68325, 68326);
   (68900, 68903); (69291, 69292); (69446, 69456); (69506, 69509);
   (69633, 69633); (69688, 69702); (69744, 69744); (69747, 69748);
   (69759, 69761); (69811, 69814); (69817, 69818); (69821, 69821);
   (69826, 69826); (69837, 69837); (69888, 69890); (69927, 69931);
   (69933, 69940); (70003, 70003); (70016, 70017); (70070, 70078);
   (70089, 70092); (70095, 70095); (70191, 70193); (70196, 70196);
   (70198, 70199); (70206, 70206); (70367, 70367); (70371, 70378);
   (70400, 70401); (70459, 70460); (70464, 70464); (70502, 70508);
   (70512, 70516); (70712, 70719); (70722, 70724); (70726, 70726);
   (70750, 70750); (70835, 70840); (70842, 70842); (70847, 70848);
   (70850, 70851); (71090, 71093); (71100, 71101); (71103, 71104);
   (71132, 71133); (71219, 71226); (71229, 71229); (71231, 71232);
   (71339, 71339); (71341, 71341); (71344, 71349); (71351, 71351);
   (71453, 71455); (71458, 71461); (71463, 71467); (71727, 71735);
   (71737, 71738); (71995, 71996); (71998, 71998); (72003, 72003);
   (72148, 72151); (72154, 72155); (72160, 72160); (72193, 72202);
   (72243, 72248); (72251, 72254); (72263, 72263); (72273, 72278);
   (72281, 72283); (72330, 72342); (72344, 72345); (72752, 72758);
   (72760, 72765); (72767, 72767); (72850, 72871); (72874, 72880);
   (72882, 72883); (72885, 72886); (73009, 73014); (73018, 73018);
   (73020, 73021); (73023, 73029); (73031, 73031); (73104, 73105);
   (73109, 73109); (73111, 73111); (73459, 73460); (78896, 78904);
   (92912, 92916); (92976, 92982); (92992, 92995); (94031, 94031);
   (94095, 94111); (94176, 94177); (94179, 94180); (110576, 110579);
   (110581, 110587); (110589, 110590); (113821, 113822); (113824, 113827);
   (118528, 118573); (118576, 118598); (119143, 119145); (119155, 119170);
   (119173, 119179); (119210, 119213); (119362, 119364); (121344, 121398);
   (121403, 121452); (121461, 121461); (121476, 121476); (121499, 121503);
   (121505, 121519); (122880, 122886); (122888, 122904); (122907, 122913);
   (122915, 122916); (122918, 122922); (123184, 123197); (123566, 123566);
   (123628, 123631); (125136, 125142); (125252, 125259); (127995, 127999);
   (917505, 917505); (917536, 917631); (917760, 917999)]%N.

(** The cased code points among those that the rule does not pass over. *)
Definition cased_ranges : list (N * N) :=
  [(65, 90); (97, 122); (170, 170); (181, 181); (186, 186); (192, 214);
   (216, 246); (248, 442); (444, 447); (452, 659); (661, 687); (880, 883);
   (886, 887); (891, 893); (895, 895); (902, 902); (904, 906); (908, 908);
   (910, 929); (931, 1013); (1015, 1153); (1162, 1327); (1329, 1366);
   (1376, 1416); (4256, 4293); (4295, 4295); (4301, 4301); (4304, 4346);
   (4349, 4351); (5024, 5109); (5112, 5117); (7296, 7304); (7312, 7354);
   (7357, 7359); (7424, 7467); (7531, 7543); (7545, 7578); (7680, 7957);
   (7960, 7965); (7968, 8005); (8008, 8013); (8016, 8023); (8025, 8025);
   (8027, 8027); (8029, 8029); (8031, 8061); (8064, 8116); (8118, 8124);
   (8126, 8126); (8130, 8132); (8134, 8140); (8144, 8147); (8150, 8155);
   (8160, 8172); (8178, 8180); (8182, 8188); (8450, 8450); (8455, 8455);
   (8458, 8467); (8469, 8469); (8473, 8477); (8484, 8484); (8486, 8486);
   (8488, 8488); (8490, 8493); (8495, 8500); (8505, 8505); (8508, 8511);
   (8517, 8521); (8526, 8526); (8544, 8575); (8579, 8580); (9398, 9449);
   (11264, 11387); (11390, 11492); (11499, 11502); (11506, 11507);
   (11520, 11557); (11559, 11559); (11565, 11565); (42560, 42605);
   (42624, 42651); (42786, 42863); (42865, 42887); (42891, 42894);
   (42896, 42954); (42960, 42961); (42963, 42963); (42965, 42969);
   (42997, 42998); (43002, 43002); (43824, 43866); (43872, 43880);
   (43888, 43967); (64256, 64262); (64275, 64279); (65313, 65338);
   (65345, 65370); (66560, 66639); (66736, 66771); (66776, 66811);
   (66928, 66938); (66940, 66954); (66956, 66962); (66964, 66965);
   (66967, 66977); (66979, 66993); (66995, 67001); (67003, 67004);
   (68736, 68786); (68800, 68850); (71840, 71903); (93760, 93823);
   (119808, 119892); (119894, 119964); (119966, 119967); (119970, 119970);
   (119973, 119974); (119977, 119980); (119982, 119993); (119995, 119995);
   (119997, 120003); (120005, 120069); (120071, 120074); (120077, 120084);
   (120086, 120092); (120094, 120121); (120123, 120126); (120128, 120132);
   (120134, 120134); (120138, 120144); (120146, 120485); (120488, 120512);
   (120514, 120538); (120540, 120570); (120572, 120596); (120598, 120628);
   (120630, 120654); (120656, 120686); (120688, 120712); (120714, 120744);
   (120746, 120770); (120772, 120779); (122624, 122633); (122635, 122654);
   (125184, 125251); (127280, 127305); (127312, 127337); (127344, 127369)]%N.

(** The code points that [str.lower] changes, each with its image. *)
Definition lower_map : list (N * list N) :=
  [(65, [97]); (66, [98]); (67, [99]); (68, [100]); (69, [101]);
   (70, [102]); (71, [103]); (72, [104]); (73, [105]); (74, [106]);
   (75, [107]); (76, [108]); (77, [109]); (78, [110]); (79, [111]);
   (80, [112]); (81, [113]); (82, [114]); (83, [115]); (84, [116]);
   (85, [117]); (86, [118]); (87, [119]); (88, [120]); (89, [121]);
   (90, [122]); (192, [224]); (193, [225]); (194, [226]); (195, [227]);
   (196, [228]); (197, [229]); (198, [230]); (199, [231]); (200, [232]);
   (201, [233]); (202, [234]); (203, [235]); (204, [236]); (205, [237]);
   (206, [238]); (207, [239]); (208, [240]); (209, [241]); (210, [242]);
   (211, [243]); (212, [244]); (213, [245]); (214, [246]); (216, [248]);
   (217, [249]); (218, [250]); (219, [251]); (220, [252]); (221, [253]);
   (222, [254]); (256, [257]); (258, [259]); (260, [261]); (262, [263]);
   (264, [265]); (266, [267]); (268, [269]); (270, [271]); (272, [273]);
   (274, [275]); (276, [277]); (278, [279]); (280, [281]); (282, [283]);
   (284, [285]); (286, [287]); (288, [289]); (290, [291]); (292, [293]);
   (294, [295]); (296, [297]); (298, [299]); (300, [301]); (302, [303]);
   (304, [105; 775]); (306, [307]); (308, [309]); (310, [311]);
   (313, [314]); (315, [316]); (317, [318]); (319, [320]); (321, [322]);
   (323, [324]); (325, [326]); (327, [328]); (330, [331]); (332, [333]);
   (334, [335]); (336, [337]); (338, [339]); (340, [341]); (342, [343]);
   (344, [345]); (346, [347]); (348, [349]); (350, [351]); (352, [353]);
   (354, [355]); (356, [357]); (358, [359]); (360, [361]); (362, [363]);
   (364, [365]); (366, [367]); (368, [369]); (370, [371]); (372, [373]);
   (374, [375]); (376, [255]); (377, [378]); (379, [380]); (381, [382]);
   (385, [595]); (386, [387]); (388, [389]); (390, [596]); (391, [392]);
   (393, [598]); (394, [599]); (395, [396]); (398, [477]); (399, [601]);
   (400, [603]); (401, [402]); (403, [608]); (404, [611]); (406, [617]);
   (407, [616]); (408, [409]); (412, [623]); (413, [626]); (415, [629]);
   (416, [417]); (418, [419]); (420, [421]); (422, [640]); (423, [424]);
   (425, [643]); (428, [429]); (430, [648]); (431, [432]); (433, [650]);
   (434, [651]); (435, [436]); (437, [438]); (439, [658]); (440, [441]);
   (444, [445]); (452, [454]); (453, [454]); (455, [457]); (456, [457]);
   (458, [460]); (459, [460]); (461, [462]); (463, [464]); (465, [466]);
   (467, [468]); (469, [470]); (471, [472]); (473, [474]); (475, [476]);
   (478, [479]); (480, [481]); (482, [483]); (484, [485]); (486, [487]);
   (488, [489]); (490, [491]); (492, [493]); (494, [495]); (497, [499]);
   (498, [499]); (500, [501]); (502, [405]); (503, [447]); (504, [505]);
   (506, [507]); (508, [509]); (510, [511]); (512, [513]); (514, [515]);
   (516, [517]); (518, [519]); (520, [521]); (522, [523]); (524, [525]);
   (526, [527]); (528, [529]); (530, [531]); (532, [533]); (534, [535]);
   (536, [537]); (538, [539]); (540, [541]); (542, [543]); (544, [414]);
   (546, [547]); (548, [549]); (550, [551]); (552, [553]); (554, [555]);
   (556, [557]); (558, [559]); (560, [561]); (562, [563]); (570, [11365]);
   (571, [572]); (573, [410]); (574, [11366]); (577, [578]); (579, [384]);
   (580, [649]); (581, [652]); (582, [583]); (584, [585]); (586, [587]);
   (588, [589]); (590, [591]); (880, [881]); (882, [883]); (886, [887]);
   (895, [1011]); (902, [940]); (904, [941]); (905, [942]); (906, [943]);
   (908, [972]); (910, [973]); (911, [974]); (913, [945]); (914, [946]);
   (915, [947]); (916, [948]); (917, [949]); (918, [950]); (919, [951]);
   (920, [952]); (921, [953]); (922, [954]); (923, [955]); (924, [956]);
   (925, [957]); (926, [958]); (927, [959]); (928, [960]); (929, [961]);
   (931, [963]); (932, [964]); (933, [965]); (934, [966]); (935, [967]);
   (936, [968]); (937, [969]); (938, [970]); (939, [971]); (975, [983]);
   (984, [985]); (986, [987]); (988, [989]); (990, [991]); (992, [993]);
   (994, [995]); (996, [997]); (998, [999]); (1000, [1001]); (1002, [1003]);
   (1004, [1005]); (1006, [1007]); (1012, [952]); (1015, [1016]);
   (1017, [1010]); (1018, [1019]); (1021, [891]); (1022, [892]);
   (1023, [893]); (1024, [1104]); (1025, [1105]); (1026, [1106]);
   (1027, [1107]); (1028, [1108]); (1029, [1109]); (1030, [1110]);
   (1031, [1111]); (1032, [1112]); (1033, [1113]); (1034, [1114]);
   (1035, [1115]); (1036, [1116]); (1037, [1117]); (1038, [1118]);
   (1039, [1119]); (1040, [1072]); (1041, [1073]); (1042, [1074]);
   (1043, [1075]); (1044, [1076]); (1045, [1077]); (1046, [1078]);
   (1047, [1079]); (1048, [1080]); (1049, [1081]); (1050, [1082]);
   (1051, [1083]); (1052, [1084]); (1053, [1085]); (1054, [1086]);
   (1055, [1087]); (1056, [1088]); (1057, [1089]); (1058, [1090]);
   (1059, [1091]); (1060, [1092]); (1061, [1093]); (1062, [1094]);
   (1063, [1095]); (1064, [1096]); (1065, [1097]); (1066, [1098]);
   (1067, [1099]); (1068, [1100]); (1069, [1101]); (1070, [1102]);
   (1071, [1103]); (1120, [1121]); (1122, [1123]); (1124, [1125]);
   (1126, [1127]); (1128, [1129]); (1130, [1131]); (1132, [1133]);
   (1134, [1135]); (1136, [1137]); (1138, [1139]); (1140, [1141]);
   (1142, [1143]); (1144, [1145]); (1146, [1147]); (1148, [1149]);
   (1150, [1151]); (1152, [1153]); (1162, [1163]); (1164, [1165]);
   (1166, [1167]); (1168, [1169]); (1170, [1171]); (1172, [1173]);
   (1174, [1175]); (1176, [1177]); (1178, [1179]); (1180, [1181]);
   (1182, [1183]); (1184, [1185]); (1186, [1187]); (1188, [1189]);
   (1190, [1191]); (1192, [1193]); (1194, [1195]); (1196, [1197]);
   (1198, [1199]); (1200, [1201]); (1202, [1203]); (1204, [1205]);
   (1206, [1207]); (1208, [1209]); (1210, [1211]); (1212, [1213]);
   (1214, [1215]); (1216, [1231]); (1217, [1218]); (1219, [1220]);
   (1221, [1222]); (1223, [1224]); (1225, [1226]); (1227, [1228]);
   (1229, [1230]); (1232, [1233]); (1234, [1235]); (1236, [1237]);
   (1238, [1239]); (1240, [1241]); (1242, [1243]); (1244, [1245]);
   (1246, [1247]); (1248, [1249]); (1250, [1251]); (1252, [1253]);
   (1254, [1255]); (1256, [1257]); (1258, [1259]); (1260, [1261]);
   (1262, [1263]); (1264, [1265]); (1266, [1267]); (1268, [1269]);
   (1270, [1271]); (1272, [1273]); (1274, [1275]); (1276, [1277]);
   (1278, [1279]); (1280, [1281]); (1282, [1283]); (1284, [1285]);
   (1286, [1287]); (1288, [1289]); (1290, [1291]); (1292, [1293]);
   (1294, [1295]); (1296, [1297]); (1298, [1299]); (1300, [1301]);
   (1302, [1303]); (1304, [1305]); (1306, [1307]); (1308, [1309]);
   (1310, [1311]); (1312, [1313]); (1314, [1315]); (1316, [1317]);
   (1318, [1319]); (1320, [1321]); (1322, [1323]); (1324, [1325]);
   (1326, [1327]); (1329, [1377]); (1330, [1378]); (1331, [1379]);
   (1332, [1380]); (1333, [1381]); (1334, [1382]); (1335, [1383]);
   (1336, [1384]); (1337, [1385]); (1338, [1386]); (1339, [1387]);
   (1340, [1388]); (1341, [1389]); (1342, [1390]); (1343, [1391]);
   (1344, [1392]); (1345, [1393]); (1346, [1394]); (1347, [1395]);
   (1348, [1396]); (1349, [1397]); (1350, [1398]); (1351, [1399]);
   (1352, [1400]); (1353, [1401]); (1354, [1402]); (1355, [1403]);
   (1356, [1404]); (1357, [1405]); (1358, [1406]); (1359, [1407]);
   (1360, [1408]); (1361, [1409]); (1362, [1410]); (1363, [1411]);
   (1364, [1412]); (1365, [1413]); (1366, [1414]); (4256, [11520]);
   (4257, [11521]); (4258, [11522]); (4259, [11523]); (4260, [11524]);
   (4261, [11525]); (4262, [11526]); (4263, [11527]); (4264, [11528]);
   (4265, [11529]); (4266, [11530]); (4267, [11531]); (4268, [11532]);
   (4269, [11533]); (4270, [11534]); (4271, [11535]); (4272, [11536]);
   (4273, [11537]); (4274, [11538]); (4275, [11539]); (4276, [11540]);
   (4277, [11541]); (4278, [11542]); (4279, [11543]); (4280, [11544]);
   (4281, [11545]); (4282, [11546]); (4283, [11547]); (4284, [11548]);
   (4285, [11549]); (4286, [11550]); (4287, [11551]); (4288, [11552]);
   (4289, [11553]); (4290, [11554]); (4291, [11555]); (4292, [11556]);
   (4293, [11557]); (4295, [11559]); (4301, [11565]); (5024, [43888]);
   (5025, [43889]); (5026, [43890]); (5027, [43891]); (5028, [43892]);
   (5029, [43893]); (5030, [43894]); (5031, [43895]); (5032, [43896]);
   (5033, [43897]); (5034, [43898]); (5035, [43899]); (5036, [43900]);
   (5037, [43901]); (5038, [43902]); (5039, [43903]); (5040, [43904]);
   (5041, [43905]); (5042, [43906]); (5043, [43907]); (5044, [43908]);
   (5045, [43909]); (5046, [43910]); (5047, [43911]); (5048, [43912]);
   (5049, [43913]); (5050, [43914]); (5051, [43915]); (5052, [43916]);
   (5053, [43917]); (5054, [43918]); (5055, [43919]); (5056, [43920]);
   (5057, [43921]); (5058, [43922]); (5059, [43923]); (5060, [43924]);
   (5061, [43925]); (5062, [43926]); (5063, [43927]); (5064, [43928]);
   (5065, [43929]); (5066, [43930]); (5067, [43931]); (5068, [43932]);
   (5069, [43933]); (5070, [43934]); (5071, [43935]); (5072, [43936]);
   (5073, [43937]); (5074, [43938]); (5075, [43939]); (5076, [43940]);
   (5077, [43941]); (5078, [43942]); (5079, [43943]); (5080, [43944]);
   (5081, [43945]); (5082, [43946]); (5083, [43947]); (5084, [43948]);
   (5085, [43949]); (5086, [43950]); (5087, [43951]); (5088, [43952]);
   (5089, [43953]); (5090, [43954]); (5091, [43955]); (5092, [43956]);
   (5093, [43957]); (5094, [43958]); (5095, [43959]); (5096, [43960]);
   (5097, [43961]); (5098, [43962]); (5099, [43963]); (5100, [43964]);
   (5101, [43965]); (5102, [43966]); (5103, [43967]); (5104, [5112]);
   (5105, [5113]); (5106, [5114]); (5107, [5115]); (5108, [5116]);
   (5109, [5117]); (7312, [4304]); (7313, [4305]); (7314, [4306]);
   (7315, [4307]); (7316, [4308]); (7317, [4309]); (7318, [4310]);
   (7319, [4311]); (7320, [4312]); (7321, [4313]); (7322, [4314]);
   (7323, [4315]); (7324, [4316]); (7325, [4317]); (7326, [4318]);
   (7327, [4319]); (7328, [4320]); (7329, [4321]); (7330, [4322]);
   (7331, [4323]); (7332, [4324]); (7333, [4325]); (7334, [4326]);
   (7335, [4327]); (7336, [4328]); (7337, [4329]); (7338, [4330]);
   (7339, [4331]); (7340, [4332]); (7341, [4333]); (7342, [4334]);
   (7343, [4335]); (7344, [4336]); (7345, [4337]); (7346, [4338]);
   (7347, [4339]); (7348, [4340]); (7349, [4341]); (7350, [4342]);
   (7351, [4343]); (7352, [4344]); (7353, [4345]); (7354, [4346]);
   (7357, [4349]); (7358, [4350]); (7359, [4351]); (7680, [7681]);
   (7682, [7683]); (7684, [7685]); (7686, [7687]); (7688, [7689]);
   (7690, [7691]); (7692, [7693]); (7694, [7695]); (7696, [7697]);
   (7698, [7699]); (7700, [7701]); (7702, [7703]); (7704, [7705]);
   (7706, [7707]); (7708, [7709]); (7710, [7711]); (7712, [7713]);
   (7714, [7715]); (7716, [7717]); (7718, [7719]); (7720, [7721]);
   (7722, [7723]); (7724, [7725]); (7726, [7727]); (7728, [7729]);
   (7730, [7731]); (7732, [7733]); (7734, [7735]); (7736, [7737]);
   (7738, [7739]); (7740, [7741]); (7742, [7743]); (7744, [7745]);
   (7746, [7747]); (7748, [7749]); (7750, [7751]); (7752, [7753]);
   (7754, [7755]); (7756, [7757]); (7758, [7759]); (7760, [7761]);
   (7762, [7763]); (7764, [7765]); (7766, [7767]); (7768, [7769]);
   (7770, [7771]); (7772, [7773]); (7774, [7775]); (7776, [7777]);
   (7778, [7779]); (7780, [7781]); (7782, [7783]); (7784, [7785]);
   (7786, [7787]); (7788, [7789]); (7790, [7791]); (7792, [7793]);
   (7794, [7795]); (7796, [7797]); (7798, [7799]); (7800, [7801]);
   (7802, [7803]); (7804, [7805]); (7806, [7807]); (7808, [7809]);
   (7810, [7811]); (7812, [7813]); (7814, [7815]); (7816, [7817]);
   (7818, [7819]); (7820, [7821]); (7822, [7823]); (7824, [7825]);
   (7826, [7827]); (7828, [7829]); (7838, [223]); (7840, [7841]);
   (7842, [7843]); (7844, [7845]); (7846, [7847]); (7848, [7849]);
   (7850, [7851]); (7852, [7853]); (7854, [7855]); (7856, [7857]);
   (7858, [7859]); (7860, [7861]); (7862, [7863]); (7864, [7865]);
   (7866, [7867]); (7868, [7869]); (7870, [7871]); (7872, [7873]);
   (7874, [7875]); (7876, [7877]); (7878, [7879]); (7880, [7881]);
   (7882, [7883]); (7884, [7885]); (7886, [7887]); (7888, [7889]);
   (7890, [7891]); (7892, [7893]); (7894, [7895]); (7896, [7897]);
   (7898, [7899]); (7900, [7901]); (7902, [7903]); (7904, [7905]);
   (7906, [7907]); (7908, [7909]); (7910, [7911]); (7912, [7913]);
   (7914, [7915]); (7916, [7917]); (7918, [7919]); (7920, [7921]);
   (7922, [7923]); (7924, [7925]); (7926, [7927]); (7928, [7929]);
   (7930, [7931]); (7932, [7933]); (7934, [7935]); (7944, [7936]);
   (7945, [7937]); (7946, [7938]); (7947, [7939]); (7948, [7940]);
   (7949, [7941]); (7950, [7942]); (7951, [7943]); (7960, [7952]);
   (7961, [7953]); (7962, [7954]); (7963, [7955]); (7964, [7956]);
   (7965, [7957]); (7976, [7968]); (7977, [7969]); (7978, [7970]);
   (7979, [7971]); (7980, [7972]); (7981, [7973]); (7982, [7974]);
   (7983, [7975]); (7992, [7984]); (7993, [7985]); (7994, [7986]);
   (7995, [7987]); (7996, [7988]); (7997, [7989]); (7998, [7990]);
   (7999, [7991]); (8008, [8000]); (8009, [8001]); (8010, [8002]);
   (8011, [8003]); (8012, [8004]); (8013, [8005]); (8025, [8017]);
   (8027, [8019]); (8029, [8021]); (8031, [8023]); (8040, [8032]);
   (8041, [8033]); (8042, [8034]); (8043, [8035]); (8044, [8036]);
   (8045, [8037]); (8046, [8038]); (8047, [8039]); (8072, [8064]);
   (8073, [8065]); (8074, [8066]); (8075, [8067]); (8076, [8068]);
   (8077, [8069]); (8078, [8070]); (8079, [8071]); (8088, [8080]);
   (8089, [8081]); (8090, [8082]); (8091, [8083]); (8092, [8084]);
   (8093, [8085]); (8094, [8086]); (8095, [8087]); (8104, [8096]);
   (8105, [8097]); (8106, [8098]); (8107, [8099]); (8108, [8100]);
   (8109, [8101]); (8110, [8102]); (8111, [8103]); (8120, [8112]);
   (8121, [8113]); (8122, [8048]); (8123, [8049]); (8124, [8115]);
   (8136, [8050]); (8137, [8051]); (8138, [8052]); (8139, [8053]);
   (8140, [8131]); (8152, [8144]); (8153, [8145]); (8154, [8054]);
   (8155, [8055]); (8168, [8160]); (8169, [8161]); (8170, [8058]);
   (8171, [8059]); (8172, [8165]); (8184, [8056]); (8185, [8057]);
   (8186, [8060]); (8187, [8061]); (8188, [8179]); (8486, [969]);
   (8490, [107]); (8491, [229]); (8498, [8526]); (8544, [8560]);
   (8545, [8561]); (8546, [8562]); (8547, [8563]); (8548, [8564]);
   (8549, [8565]); (8550, [8566]); (8551, [8567]); (8552, [8568]);
   (8553, [8569]); (8554, [8570]); (8555, [8571]); (8556, [8572]);
   (8557, [8573]); (8558, [8574]); (8559, [8575]); (8579, [8580]);
   (9398, [9424]); (9399, [9425]); (9400, [9426]); (9401, [9427]);
   (9402, [9428]); (9403, [9429]); (9404, [9430]); (9405, [9431]);
   (9406, [9432]); (9407, [9433]); (9408, [9434]); (9409, [9435]);
   (9410, [9436]); (9411, [9437]); (9412, [9438]); (9413, [9439]);
   (9414, [9440]); (9415, [9441]); (9416, [9442]); (9417, [9443]);
   (9418, [9444]); (9419, [9445]); (9420, [9446]); (9421, [9447]);
   (9422, [9448]); (9423, [9449]); (11264, [11312]); (11265, [11313]);
   (11266, [11314]); (11267, [11315]); (11268, [11316]); (11269, [11317]);
   (11270, [11318]); (11271, [11319]); (11272, [11320]); (11273, [11321]);
   (11274, [11322]); (11275, [11323]); (11276, [11324]); (11277, [11325]);
   (11278, [11326]); (11279, [11327]); (11280, [11328]); (11281, [11329]);
   (11282, [11330]); (11283, [11331]); (11284, [11332]); (11285, [11333]);
   (11286, [11334]); (11287, [11335]); (11288, [11336]); (11289, [11337]);
   (11290, [11338]); (11291, [11339]); (11292, [11340]); (11293, [11341]);
   (11294, [11342]); (11295, [11343]); (11296, [11344]); (11297, [11345]);
   (11298, [11346]); (11299, [11347]); (11300, [11348]); (11301, [11349]);
   (11302, [11350]); (11303, [11351]); (11304, [11352]); (11305, [11353]);
   (11306, [11354]); (11307, [11355]); (11308, [11356]); (11309, [11357]);
   (11310, [11358]); (11311, [11359]); (11360, [11361]); (11362, [619]);
   (11363, [7549]); (11364, [637]); (11367, [11368]); (11369, [11370]);
   (11371, [11372]); (11373, [593]); (11374, [625]); (11375, [592]);
   (11376, [594]); (11378, [11379]); (11381, [11382]); (11390, [575]);
   (11391, [576]); (11392, [11393]); (11394, [11395]); (11396, [11397]);
   (11398, [11399]); (11400, [11401]); (11402, [11403]); (11404, [11405]);
   (11406, [11407]); (11408, [11409]); (11410, [11411]); (11412, [11413]);
   (11414, [11415]); (11416, [11417]); (11418, [11419]); (11420, [11421]);
   (11422, [11423]); (11424, [11425]); (11426, [11427]); (11428, [11429]);
   (11430, [11431]); (11432, [11433]); (11434, [11435]); (11436, [11437]);
   (11438, [11439]); (11440, [11441]); (11442, [11443]); (11444, [11445]);
   (11446, [11447]); (11448, [11449]); (11450, [11451]); (11452, [11453]);
   (11454, [11455]); (11456, [11457]); (11458, [11459]); (11460, [11461]);
   (11462, [11463]); (11464, [11465]); (11466, [11467]); (11468, [11469]);
   (11470, [11471]); (11472, [11473]); (11474, [11475]); (11476, [11477]);
   (11478, [11479]); (11480, [11481]); (11482, [11483]); (11484, [11485]);
   (11486, [11487]); (11488, [11489]); (11490, [11491]); (11499, [11500]);
   (11501, [11502]); (11506, [11507]); (42560, [42561]); (42562, [42563]);
   (42564, [42565]); (42566, [42567]); (42568, [42569]); (42570, [42571]);
   (42572, [42573]); (42574, [42575]); (42576, [42577]); (42578, [42579]);
   (42580, [42581]); (42582, [42583]); (42584, [42585]); (42586, [42587]);
   (42588, [42589]); (42590, [42591]); (42592, [42593]); (42594, [42595]);
   (42596, [42597]); (42598, [42599]); (42600, [42601]); (42602, [42603]);
   (42604, [42605]); (42624, [42625]); (42626, [42627]); (42628, [42629]);
   (42630, [42631]); (42632, [42633]); (42634, [42635]); (42636, [42637]);
   (42638, [42639]); (42640, [42641]); (42642, [42643]); (42644, [42645]);
   (42646, [42647]); (42648, [42649]); (42650, [42651]); (42786, [42787]);
   (42788, [42789]); (42790, [42791]); (42792, [42793]); (42794, [42795]);
   (42796, [42797]); (42798, [42799]); (42802, [42803]); (42804, [42805]);
   (42806, [42807]); (42808, [42809]); (42810, [42811]); (42812, [42813]);
   (42814, [42815]); (42816, [42817]); (42818, [42819]); (42820, [42821]);
   (42822, [42823]); (42824, [42825]); (42826, [42827]); (42828, [42829]);
   (42830, [42831]); (42832, [42833]); (42834, [42835]); (42836, [42837]);
   (42838, [42839]); (42840, [42841]); (42842, [42843]); (42844, [42845]);
   (42846, [42847]); (42848, [42849]); (42850, [42851]); (42852, [42853]);
   (42854, [42855]); (42856, [42857]); (42858, [42859]); (42860, [42861]);
   (42862, [42863]); (42873, [42874]); (42875, [42876]); (42877, [7545]);
   (42878, [42879]); (42880, [42881]); (42882, [42883]); (42884, [42885]);
   (42886, [42887]); (42891, [42892]); (42893, [613]); (42896, [42897]);
   (42898, [42899]); (42902, [42903]); (42904, [42905]); (42906, [42907]);
   (42908, [42909]); (42910, [42911]); (42912, [42913]); (42914, [42915]);
   (42916, [42917]); (42918, [42919]); (42920, [42921]); (42922, [614]);
   (42923, [604]); (42924, [609]); (42925, [620]); (42926, [618]);
   (42928, [670]); (42929, [647]); (42930, [669]); (42931, [43859]);
   (42932, [42933]); (42934, [42935]); (42936, [42937]); (42938, [42939]);
   (42940, [42941]); (42942, [42943]); (42944, [42945]); (42946, [42947]);
   (42948, [42900]); (42949, [642]); (42950, [7566]); (42951, [42952]);
   (42953, [42954]); (42960, [42961]); (42966, [42967]); (42968, [42969]);
   (42997, [42998]); (65313, [65345]); (65314, [65346]); (65315, [65347]);
   (65316, [65348]); (65317, [65349]); (65318, [65350]); (65319, [65351]);
   (65320, [65352]); (65321, [65353]); (65322, [65354]); (65323, [65355]);
   (65324, [65356]); (65325, [65357]); (65326, [65358]); (65327, [65359]);
   (65328, [65360]); (65329, [65361]); (65330, [65362]); (65331, [65363]);
   (65332, [65364]); (65333, [65365]); (65334, [65366]); (65335, [65367]);
   (65336, [65368]); (65337, [65369]); (65338, [65370]); (66560, [66600]);
   (66561, [66601]); (66562, [66602]); (66563, [66603]); (66564, [66604]);
   (66565, [66605]); (66566, [66606]); (66567, [66607]); (66568, [66608]);
   (66569, [66609]); (66570, [66610]); (66571, [66611]); (66572, [66612]);
   (66573, [66613]); (66574, [66614]); (66575, [66615]); (66576, [66616]);
   (66577, [66617]); (66578, [66618]); (66579, [66619]); (66580, [66620]);
   (66581, [66621]); (66582, [66622]); (66583, [66623]); (66584, [66624]);
   (66585, [66625]); (66586, [66626]); (66587, [66627]); (66588, [66628]);
   (66589, [66629]); (66590, [66630]); (66591, [66631]); (66592, [66632]);
   (66593, [66633]); (66594, [66634]); (66595, [66635]); (66596, [66636]);
   (66597, [66637]); (66598, [66638]); (66599, [66639]); (66736, [66776]);
   (66737, [66777]); (66738, [66778]); (66739, [66779]); (66740, [66780]);
   (66741, [66781]); (66742, [66782]); (66743, [66783]); (66744, [66784]);
   (66745, [66785]); (66746, [66786]); (66747, [66787]); (66748, [66788]);
   (66749, [66789]); (66750, [66790]); (66751, [66791]); (66752, [66792]);
   (66753, [66793]); (66754, [66794]); (66755, [66795]); (66756, [66796]);
   (66757, [66797]); (66758, [66798]); (66759, [66799]); (66760, [66800]);
   (66761, [66801]); (66762, [66802]); (66763, [66803]); (66764, [66804]);
   (66765, [66805]); (66766, [66806]); (66767, [66807]); (66768, [66808]);
   (66769, [66809]); (66770, [66810]); (66771, [66811]); (66928, [66967]);
   (66929, [66968]); (66930, [66969]); (66931, [66970]); (66932, [66971]);
   (66933, [66972]); (66934, [66973]); (66935, [66974]); (66936, [66975]);
   (66937, [66976]); (66938, [66977]); (66940, [66979]); (66941, [66980]);
   (66942, [66981]); (66943, [66982]); (66944, [66983]); (66945, [66984]);
   (66946, [66985]); (66947, [66986]); (66948, [66987]); (66949, [66988]);
   (66950, [66989]); (66951, [66990]); (66952, [66991]); (66953, [66992]);
   (66954, [66993]); (66956, [66995]); (66957, [66996]); (66958, [66997]);
   (66959, [66998]); (66960, [66999]); (66961, [67000]); (66962, [67001]);
   (66964, [67003]); (66965, [67004]); (68736, [68800]); (68737, [68801]);
   (68738, [68802]); (68739, [68803]); (68740, [68804]); (68741, [68805]);
   (68742, [68806]); (68743, [68807]); (68744, [68808]); (68745, [68809]);
   (68746, [68810]); (68747, [68811]); (68748, [68812]); (68749, [68813]);
   (68750, [68814]); (68751, [68815]); (68752, [68816]); (68753, [68817]);
   (68754, [68818]); (68755, [68819]); (68756, [68820]); (68757, [68821]);
   (68758, [68822]); (68759, [68823]); (68760, [68824]); (68761, [68825]);
   (68762, [68826]); (68763, [68827]); (68764, [68828]); (68765, [68829]);
   (68766, [68830]); (68767, [68831]); (68768, [68832]); (68769, [68833]);
   (68770, [68834]); (68771, [68835]); (68772, [68836]); (68773, [68837]);
   (68774, [68838]); (68775, [68839]); (68776, [68840]); (68777, [68841]);
   (68778, [68842]); (68779, [68843]); (68780, [68844]); (68781, [68845]);
   (68782, [68846]); (68783, [68847]); (68784, [68848]); (68785, [68849]);
   (68786, [68850]); (71840, [71872]); (71841, [71873]); (71842, [71874]);
   (71843, [71875]); (71844, [71876]); (71845, [71877]); (71846, [71878]);
   (71847, [71879]); (71848, [71880]); (71849, [71881]); (71850, [71882]);
   (71851, [71883]); (71852, [71884]); (71853, [71885]); (71854, [71886]);
   (71855, [71887]); (71856, [71888]); (71857, [71889]); (71858, [71890]);
   (71859, [71891]); (71860, [71892]); (71861, [71893]); (71862, [71894]);
   (71863, [71895]); (71864, [71896]); (71865, [71897]); (71866, [71898]);
   (71867, [71899]); (71868, [71900]); (71869, [71901]); (71870, [71902]);
   (71871, [71903]); (93760, [93792]); (93761, [93793]); (93762, [93794]);
   (93763, [93795]); (93764, [93796]); (93765, [93797]); (93766, [93798]);
   (93767, [93799]); (93768, [93800]); (93769, [93801]); (93770, [93802]);
   (93771, [93803]); (93772, [93804]); (93773, [93805]); (93774, [93806]);
   (93775, [93807]); (93776, [93808]); (93777, [93809]); (93778, [93810]);
   (93779, [93811]); (93780, [93812]); (93781, [93813]); (93782, [93814]);
   (93783, [93815]); (93784, [93816]); (93785, [93817]); (93786, [93818]);
   (93787, [93819]); (93788, [93820]); (93789, [93821]); (93790, [93822]);
   (93791, [93823]); (125184, [125218]); (125185, [125219]);
   (125186, [125220]); (125187, [125221]); (125188, [125222]);
   (125189, [125223]); (125190, [125224]); (125191, [125225]);
   (125192, [125226]); (125193, [125227]); (125194, [125228]);
   (125195, [125229]); (125196, [125230]); (125197, [125231]);
   (125198, [125232]); (125199, [125233]); (125200, [125234]);
   (125201, [125235]); (125202, [125236]); (125203, [125237]);
   (125204, [125238]); (125205, [125239]); (125206, [125240]);
   (125207, [125241]); (125208, [125242]); (125209, [125243]);
   (125210, [125244]); (125211, [125245]); (125212, [125246]);
   (125213, [125247]); (125214, [125248]); (125215, [125249]);
   (125216, [125250]); (125217, [125251])]%N.

(** The code points that [str.title] changes, each with its image. *)
Definition title_map : list (N * list N) :=
  [(97, [65]); (98, [66]); (99, [67]); (100, [68]); (101, [69]);
   (102, [70]); (103, [71]); (104, [72]); (105, [73]); (106, [74]);
   (107, [75]); (108, [76]); (109, [77]); (110, [78]); (111, [79]);
   (112, [80]); (113, [81]); (114, [82]); (115, [83]); (116, [84]);
   (117, [85]); (118, [86]); (119, [87]); (120, [88]); (121, [89]);
   (122, [90]); (181, [924]); (223, [83; 115]); (224, [192]); (225, [193]);
   (226, [194]); (227, [195]); (228, [196]); (229, [197]); (230, [198]);
   (231, [199]); (232, [200]); (233, [201]); (234, [202]); (235, [203]);
   (236, [204]); (237, [205]); (238, [206]); (239, [207]); (240, [208]);
   (241, [209]); (242, [210]); (243, [211]); (244, [212]); (245, [213]);
   (246, [214]); (248, [216]); (249, [217]); (250, [218]); (251, [219]);
   (252, [220]); (253, [221]); (254, [222]); (255, [376]); (257, [256]);
   (259, [258]); (261, [260]); (263, [262]); (265, [264]); (267, [266]);
   (269, [268]); (271, [270]); (273, [272]); (275, [274]); (277, [276]);
   (279, [278]); (281, [280]); (283, [282]); (285, [284]); (287, [286]);
   (289, [288]); (291, [290]); (293, [292]); (295, [294]); (297, [296]);
   (299, [298]); (301, [300]); (303, [302]); (305, [73]); (307, [306]);
   (309, [308]); (311, [310]); (314, [313]); (316, [315]); (318, [317]);
   (320, [319]); (322, [321]); (324, [323]); (326, [325]); (328, [327]);
   (329, [700; 78]); (331, [330]); (333, [332]); (335, [334]); (337, [336]);
   (339, [338]); (341, [340]); (343, [342]); (345, [344]); (347, [346]);
   (349, [348]); (351, [350]); (353, [352]); (355, [354]); (357, [356]);
   (359, [358]); (361, [360]); (363, [362]); (365, [364]); (367, [366]);
   (369, [368]); (371, [370]); (373, [372]); (375, [374]); (378, [377]);
   (380, [379]); (382, [381]); (383, [83]); (384, [579]); (387, [386]);
   (389, [388]); (392, [391]); (396, [395]); (402, [401]); (405, [502]);
   (409, [408]); (410, [573]); (414, [544]); (417, [416]); (419, [418]);
   (421, [420]); (424, [423]); (429, [428]); (432, [431]); (436, [435]);
   (438, [437]); (441, [440]); (445, [444]); (447, [503]); (452, [453]);
   (454, [453]); (455, [456]); (457, [456]); (458, [459]); (460, [459]);
   (462, [461]); (464, [463]); (466, [465]); (468, [467]); (470, [469]);
   (472, [471]); (474, [473]); (476, [475]); (477, [398]); (479, [478]);
   (481, [480]); (483, [482]); (485, [484]); (487, [486]); (489, [488]);
   (491, [490]); (493, [492]); (495, [494]); (496, [74; 780]); (497, [498]);
   (499, [498]); (501, [500]); (505, [504]); (507, [506]); (509, [508]);
   (511, [510]); (513, [512]); (515, [514]); (517, [516]); (519, [518]);
   (521, [520]); (523, [522]); (525, [524]); (527, [526]); (529, [528]);
   (531, [530]); (533, [532]); (535, [534]); (537, [536]); (539, [538]);
   (541, [540]); (543, [542]); (547, [546]); (549, [548]); (551, [550]);
   (553, [552]); (555, [554]); (557, [556]); (559, [558]); (561, [560]);
   (563, [562]); (572, [571]); (575, [11390]); (576, [11391]); (578, [577]);
   (583, [582]); (585, [584]); (587, [586]); (589, [588]); (591, [590]);
   (592, [11375]); (593, [11373]); (594, [11376]); (595, [385]);
   (596, [390]); (598, [393]); (599, [394]); (601, [399]); (603, [400]);
   (604, [42923]); (608, [403]); (609, [42924]); (611, [404]);
   (613, [42893]); (614, [42922]); (616, [407]); (617, [406]);
   (618, [42926]); (619, [11362]); (620, [42925]); (623, [412]);
   (625, [11374]); (626, [413]); (629, [415]); (637, [11364]); (640, [422]);
   (642, [42949]); (643, [425]); (647, [42929]); (648, [430]); (649, [580]);
   (650, [433]); (651, [434]); (652, [581]); (658, [439]); (669, [42930]);
   (670, [42928]); (837, [921]); (881, [880]); (883, [882]); (887, [886]);
   (891, [1021]); (892, [1022]); (893, [1023]); (912, [921; 776; 769]);
   (940, [902]); (941, [904]); (942, [905]); (943, [906]);
   (944, [933; 776; 769]); (945, [913]); (946, [914]); (947, [915]);
   (948, [916]); (949, [917]); (950, [918]); (951, [919]); (952, [920]);
   (953, [921]); (954, [922]); (955, [923]); (956, [924]); (957, [925]);
   (958, [926]); (959, [927]); (960, [928]); (961, [929]); (962, [931]);
   (963, [931]); (964, [932]); (965, [933]); (966, [934]); (967, [935]);
   (968, [936]); (969, [937]); (970, [938]); (971, [939]); (972, [908]);
   (973, [910]); (974, [911]); (976, [914]); (977, [920]); (981, [934]);
   (982, [928]); (983, [975]); (985, [984]); (987, [986]); (989, [988]);
   (991, [990]); (993, [992]); (995, [994]); (997, [996]); (999, [998]);
   (1001, [1000]); (1003, [1002]); (1005, [1004]); (1007, [1006]);
   (1008, [922]); (1009, [929]); (1010, [1017]); (1011, [895]);
   (1013, [917]); (1016, [1015]); (1019, [1018]); (1072, [1040]);
   (1073, [1041]); (1074, [1042]); (1075, [1043]); (1076, [1044]);
   (1077, [1045]); (1078, [1046]); (1079, [1047]); (1080, [1048]);
   (1081, [1049]); (1082, [1050]); (1083, [1051]); (1084, [1052]);
   (1085, [1053]); (1086, [1054]); (1087, [1055]); (1088, [1056]);
   (1089, [1057]); (1090, [1058]); (1091, [1059]); (1092, [1060]);
   (1093, [1061]); (1094, [1062]); (1095, [1063]); (1096, [1064]);
   (1097, [1065]); (1098, [1066]); (1099, [1067]); (1100, [1068]);
   (1101, [1069]); (1102, [1070]); (1103, [1071]); (1104, [1024]);
   (1105, [1025]); (1106, [1026]); (1107, [1027]); (1108, [1028]);
   (1109, [1029]); (1110, [1030]); (1111, [1031]); (1112, [1032]);
   (1113, [1033]); (1114, [1034]); (1115, [1035]); (1116, [1036]);
   (1117, [1037]); (1118, [1038]); (1119, [1039]); (1121, [1120]);
   (1123, [1122]); (1125, [1124]); (1127, [1126]); (1129, [1128]);
   (1131, [1130]); (1133, [1132]); (1135, [1134]); (1137, [1136]);
   (1139, [1138]); (1141, [1140]); (1143, [1142]); (1145, [1144]);
   (1147, [1146]); (1149, [1148]); (1151, [1150]); (1153, [1152]);
   (1163, [1162]); (1165, [1164]); (1167, [1166]); (1169, [1168]);
   (1171, [1170]); (1173, [1172]); (1175, [1174]); (1177, [1176]);
   (1179, [1178]); (1181, [1180]); (1183, [1182]); (1185, [1184]);
   (1187, [1186]); (1189, [1188]); (1191, [1190]); (1193, [1192]);
   (1195, [1194]); (1197, [1196]); (1199, [1198]); (1201, [1200]);
   (1203, [1202]); (1205, [1204]); (1207, [1206]); (1209, [1208]);
   (1211, [1210]); (1213, [1212]); (1215, [1214]); (1218, [1217]);
   (1220, [1219]); (1222, [1221]); (1224, [1223]); (1226, [1225]);
   (1228, [1227]); (1230, [1229]); (1231, [1216]); (1233, [1232]);
   (1235, [1234]); (1237, [1236]); (1239, [1238]); (1241, [1240]);
   (1243, [1242]); (1245, [1244]); (1247, [1246]); (1249, [1248]);
   (1251, [1250]); (1253, [1252]); (1255, [1254]); (1257, [1256]);
   (1259, [1258]); (1261, [1260]); (1263, [1262]); (1265, [1264]);
   (1267, [1266]); (1269, [1268]); (1271, [1270]); (1273, [1272]);
   (1275, [1274]); (1277, [1276]); (1279, [1278]); (1281, [1280]);
   (1283, [1282]); (1285, [1284]); (1287, [1286]); (1289, [1288]);
   (1291, [1290]); (1293, [1292]); (1295, [1294]); (1297, [1296]);
   (1299, [1298]); (1301, [1300]); (1303, [1302]); (1305, [1304]);
   (1307, [1306]); (1309, [1308]); (1311, [1310]); (1313, [1312]);
   (1315, [1314]); (1317, [1316]); (1319, [1318]); (1321, [1320]);
   (1323, [1322]); (1325, [1324]); (1327, [1326]); (1377, [1329]);
   (1378, [1330]); (1379, [1331]); (1380, [1332]); (1381, [1333]);
   (1382, [1334]); (1383, [1335]); (1384, [1336]); (1385, [1337]);
   (1386, [1338]); (1387, [1339]); (1388, [1340]); (1389, [1341]);
   (1390, [1342]); (1391, [1343]); (1392, [1344]); (1393, [1345]);
   (1394, [1346]); (1395, [1347]); (1396, [1348]); (1397, [1349]);
   (1398, [1350]); (1399, [1351]); (1400, [1352]); (1401, [1353]);
   (1402, [1354]); (1403, [1355]); (1404, [1356]); (1405, [1357]);
   (1406, [1358]); (1407, [1359]); (1408, [1360]); (1409, [1361]);
   (1410, [1362]); (1411, [1363]); (1412, [1364]); (1413, [1365]);
   (1414, [1366]); (1415, [1333; 1410]); (5112, [5104]); (5113, [5105]);
   (5114, [5106]); (5115, [5107]); (5116, [5108]); (5117, [5109]);
   (7296, [1042]); (7297, [1044]); (7298, [1054]); (7299, [1057]);
   (7300, [1058]); (7301, [1058]); (7302, [1066]); (7303, [1122]);
   (7304, [42570]); (7545, [42877]); (7549, [11363]); (7566, [42950]);
   (7681, [7680]); (7683, [7682]); (7685, [7684]); (7687, [7686]);
   (7689, [7688]); (7691, [7690]); (7693, [7692]); (7695, [7694]);
   (7697, [7696]); (7699, [7698]); (7701, [7700]); (7703, [7702]);
   (7705, [7704]); (7707, [7706]); (7709, [7708]); (7711, [7710]);
   (7713, [7712]); (7715, [7714]); (7717, [7716]); (7719, [7718]);
   (7721, [7720]); (7723, [7722]); (7725, [7724]); (7727, [7726]);
   (7729, [7728]); (7731, [7730]); (7733, [7732]); (7735, [7734]);
   (7737, [7736]); (7739, [7738]); (7741, [7740]); (7743, [7742]);
   (7745, [7744]); (7747, [7746]); (7749, [7748]); (7751, [7750]);
   (7753, [7752]); (7755, [7754]); (7757, [7756]); (7759, [7758]);
   (7761, [7760]); (7763, [7762]); (7765, [7764]); (7767, [7766]);
   (7769, [7768]); (7771, [7770]); (7773, [7772]); (7775, [7774]);
   (7777, [7776]); (7779, [7778]); (7781, [7780]); (7783, [7782]);
   (7785, [7784]); (7787, [7786]); (7789, [7788]); (7791, [7790]);
   (7793, [7792]); (7795, [7794]); (7797, [7796]); (7799, [7798]);
   (7801, [7800]); (7803, [7802]); (7805, [7804]); (7807, [7806]);
   (7809, [7808]); (7811, [7810]); (7813, [7812]); (7815, [7814]);
   (7817, [7816]); (7819, [7818]); (7821, [7820]); (7823, [7822]);
   (7825, [7824]); (7827, [7826]); (7829, [7828]); (7830, [72; 817]);
   (7831, [84; 776]); (7832, [87; 778]); (7833, [89; 778]);
   (7834, [65; 702]); (7835, [7776]); (7841, [7840]); (7843, [7842]);
   (7845, [7844]); (7847, [7846]); (7849, [7848]); (7851, [7850]);
   (7853, [7852]); (7855, [7854]); (7857, [7856]); (7859, [7858]);
   (7861, [7860]); (7863, [7862]); (7865, [7864]); (7867, [7866]);
   (7869, [7868]); (7871, [7870]); (7873, [7872]); (7875, [7874]);
   (7877, [7876]); (7879, [7878]); (7881, [7880]); (7883, [7882]);
   (7885, [7884]); (7887, [7886]); (7889, [7888]); (7891, [7890]);
   (7893, [7892]); (7895, [7894]); (7897, [7896]); (7899, [7898]);
   (7901, [7900]); (7903, [7902]); (7905, [7904]); (7907, [7906]);
   (7909, [7908]); (7911, [7910]); (7913, [7912]); (7915, [7914]);
   (7917, [7916]); (7919, [7918]); (7921, [7920]); (7923, [7922]);
   (7925, [7924]); (7927, [7926]); (7929, [7928]); (7931, [7930]);
   (7933, [7932]); (7935, [7934]); (7936, [7944]); (7937, [7945]);
   (7938, [7946]); (7939, [7947]); (7940, [7948]); (7941, [7949]);
   (7942, [7950]); (7943, [7951]); (7952, [7960]); (7953, [7961]);
   (7954, [7962]); (7955, [7963]); (7956, [7964]); (7957, [7965]);
   (7968, [7976]); (7969, [7977]); (7970, [7978]); (7971, [7979]);
   (7972, [7980]); (7973, [7981]); (7974, [7982]); (7975, [7983]);
   (7984, [7992]); (7985, [7993]); (7986, [7994]); (7987, [7995]);
   (7988, [7996]); (7989, [7997]); (7990, [7998]); (7991, [7999]);
   (8000, [8008]); (8001, [8009]); (8002, [8010]); (8003, [8011]);
   (8004, [8012]); (8005, [8013]); (8016, [933; 787]); (8017, [8025]);
   (8018, [933; 787; 768]); (8019, [8027]); (8020, [933; 787; 769]);
   (8021, [8029]); (8022, [933; 787; 834]); (8023, [8031]); (8032, [8040]);
   (8033, [8041]); (8034, [8042]); (8035, [8043]); (8036, [8044]);
   (8037, [8045]); (8038, [8046]); (8039, [8047]); (8048, [8122]);
   (8049, [8123]); (8050, [8136]); (8051, [8137]); (8052, [8138]);
   (8053, [8139]); (8054, [8154]); (8055, [8155]); (8056, [8184]);
   (8057, [8185]); (8058, [8170]); (8059, [8171]); (8060, [8186]);
   (8061, [8187]); (8064, [8072]); (8065, [8073]); (8066, [8074]);
   (8067, [8075]); (8068, [8076]); (8069, [8077]); (8070, [8078]);
   (8071, [8079]); (8080, [8088]); (8081, [8089]); (8082, [8090]);
   (8083, [8091]); (8084, [8092]); (8085, [8093]); (8086, [8094]);
   (8087, [8095]); (8096, [8104]); (8097, [8105]); (8098, [8106]);
   (8099, [8107]); (8100, [8108]); (8101, [8109]); (8102, [8110]);
   (8103, [8111]); (8112, [8120]); (8113, [8121]); (8114, [8122; 837]);
   (8115, [8124]); (8116, [902; 837]); (8118, [913; 834]);
   (8119, [913; 834; 837]); (8126, [921]); (8130, [8138; 837]);
   (8131, [8140]); (8132, [905; 837]); (8134, [919; 834]);
   (8135, [919; 834; 837]); (8144, [8152]); (8145, [8153]);
   (8146, [921; 776; 768]); (8147, [921; 776; 769]); (8150, [921; 834]);
   (8151, [921; 776; 834]); (8160, [8168]); (8161, [8169]);
   (8162, [933; 776; 768]); (8163, [933; 776; 769]); (8164, [929; 787]);
   (8165, [8172]); (8166, [933; 834]); (8167, [933; 776; 834]);
   (8178, [8186; 837]); (8179, [8188]); (8180, [911; 837]);
   (8182, [937; 834]); (8183, [937; 834; 837]); (8526, [8498]);
   (8560, [8544]); (8561, [8545]); (8562, [8546]); (8563, [8547]);
   (8564, [8548]); (8565, [8549]); (8566, [8550]); (8567, [8551]);
   (8568, [8552]); (8569, [8553]); (8570, [8554]); (8571, [8555]);
   (8572, [8556]); (8573, [8557]); (8574, [8558]); (8575, [8559]);
   (8580, [8579]); (9424, [9398]); (9425, [9399]); (9426, [9400]);
   (9427, [9401]); (9428, [9402]); (9429, [9403]); (9430, [9404]);
   (9431, [9405]); (9432, [9406]); (9433, [9407]); (9434, [9408]);
   (9435, [9409]); (9436, [9410]); (9437, [9411]); (9438, [9412]);
   (9439, [9413]); (9440, [9414]); (9441, [9415]); (9442, [9416]);
   (9443, [9417]); (9444, [9418]); (9445, [9419]); (9446, [9420]);
   (9447, [9421]); (9448, [9422]); (9449, [9423]); (11312, [11264]);
   (11313, [11265]); (11314, [11266]); (11315, [11267]); (11316, [11268]);
   (11317, [11269]); (11318, [11270]); (11319, [11271]); (11320, [11272]);
   (11321, [11273]); (11322, [11274]); (11323, [11275]); (11324, [11276]);
   (11325, [11277]); (11326, [11278]); (11327, [11279]); (11328, [11280]);
   (11329, [11281]); (11330, [11282]); (11331, [11283]); (11332, [11284]);
   (11333, [11285]); (11334, [11286]); (11335, [11287]); (11336, [11288]);
   (11337, [11289]); (11338, [11290]); (11339, [11291]); (11340, [11292]);
   (11341, [11293]); (11342, [11294]); (11343, [11295]); (11344, [11296]);
   (11345, [11297]); (11346, [11298]); (11347, [11299]); (11348, [11300]);
   (11349, [11301]); (11350, [11302]); (11351, [11303]); (11352, [11304]);
   (11353, [11305]); (11354, [11306]); (11355, [11307]); (11356, [11308]);
   (11357, [11309]); (11358, [11310]); (11359, [11311]); (11361, [11360]);
   (11365, [570]); (11366, [574]); (11368, [11367]); (11370, [11369]);
   (11372, [11371]); (11379, [11378]); (11382, [11381]); (11393, [11392]);
   (11395, [11394]); (11397, [11396]); (11399, [11398]); (11401, [11400]);
   (11403, [11402]); (11405, [11404]); (11407, [11406]); (11409, [11408]);
   (11411, [11410]); (11413, [11412]); (11415, [11414]); (11417, [11416]);
   (11419, [11418]); (11421, [11420]); (11423, [11422]); (11425, [11424]);
   (11427, [11426]); (11429, [11428]); (11431, [11430]); (11433, [11432]);
   (11435, [11434]); (11437, [11436]); (11439, [11438]); (11441, [11440]);
   (11443, [11442]); (11445, [11444]); (11447, [11446]); (11449, [11448]);
   (11451, [11450]); (11453, [11452]); (11455, [11454]); (11457, [11456]);
   (11459, [11458]); (11461, [11460]); (11463, [11462]); (11465, [11464]);
   (11467, [11466]); (11469, [11468]); (11471, [11470]); (11473, [11472]);
   (11475, [11474]); (11477, [11476]); (11479, [11478]); (11481, [11480]);
   (11483, [11482]); (11485, [11484]); (11487, [11486]); (11489, [11488]);
   (11491, [11490]); (11500, [11499]); (11502, [11501]); (11507, [11506]);
   (11520, [4256]); (11521, [4257]); (11522, [4258]); (11523, [4259]);
   (11524, [4260]); (11525, [4261]); (11526, [4262]); (11527, [4263]);
   (11528, [4264]); (11529, [4265]); (11530, [4266]); (11531, [4267]);
   (11532, [4268]); (11533, [4269]); (11534, [4270]); (11535, [4271]);
   (11536, [4272]); (11537, [4273]); (11538, [4274]); (11539, [4275]);
   (11540, [4276]); (11541, [4277]); (11542, [4278]); (11543, [4279]);
   (11544, [4280]); (11545, [4281]); (11546, [4282]); (11547, [4283]);
   (11548, [4284]); (11549, [4285]); (11550, [4286]); (11551, [4287]);
   (11552, [4288]); (11553, [4289]); (11554, [4290]); (11555, [4291]);
   (11556, [4292]); (11557, [4293]); (11559, [4295]); (11565, [4301]);
   (42561, [42560]); (42563, [42562]); (42565, [42564]); (42567, [42566]);
   (42569, [42568]); (42571, [42570]); (42573, [42572]); (42575, [42574]);
   (42577, [42576]); (42579, [42578]); (42581, [42580]); (42583, [42582]);
   (42585, [42584]); (42587, [42586]); (42589, [42588]); (42591, [42590]);
   (42593, [42592]); (42595, [42594]); (42597, [42596]); (42599, [42598]);
   (42601, [42600]); (42603, [42602]); (42605, [42604]); (42625, [42624]);
   (42627, [42626]); (42629, [42628]); (42631, [42630]); (42633, [42632]);
   (42635, [42634]); (42637, [42636]); (42639, [42638]); (42641, [42640]);
   (42643, [42642]); (42645, [42644]); (42647, [42646]); (42649, [42648]);
   (42651, [42650]); (42787, [42786]); (42789, [42788]); (42791, [42790]);
   (42793, [42792]); (42795, [42794]); (42797, [42796]); (42799, [42798]);
   (42803, [42802]); (42805, [42804]); (42807, [42806]); (42809, [42808]);
   (42811, [42810]); (42813, [42812]); (42815, [42814]); (42817, [42816]);
   (42819, [42818]); (42821, [42820]); (42823, [42822]); (42825, [42824]);
   (42827, [42826]); (42829, [42828]); (42831, [42830]); (42833, [42832]);
   (42835, [42834]); (42837, [42836]); (42839, [42838]); (42841, [42840]);
   (42843, [42842]); (42845, [42844]); (42847, [42846]); (42849, [42848]);
   (42851, [42850]); (42853, [42852]); (42855, [42854]); (42857, [42856]);
   (42859, [42858]); (42861, [42860]); (42863, [42862]); (42874, [42873]);
   (42876, [42875]); (42879, [42878]); (42881, [42880]); (42883, [42882]);
   (42885, [42884]); (42887, [42886]); (42892, [42891]); (42897, [42896]);
   (42899, [42898]); (42900, [42948]); (42903, [42902]); (42905, [42904]);
   (42907, [42906]); (42909, [42908]); (42911, [42910]); (42913, [42912]);
   (42915, [42914]); (42917, [42916]); (42919, [42918]); (42921, [42920]);
   (42933, [42932]); (42935, [42934]); (42937, [42936]); (42939, [42938]);
   (42941, [42940]); (42943, [42942]); (42945, [42944]); (42947, [42946]);
   (42952, [42951]); (42954, [42953]); (42961, [42960]); (42967, [42966]);
   (42969, [42968]); (42998, [42997]); (43859, [42931]); (43888, [5024]);
   (43889, [5025]); (43890, [5026]); (43891, [5027]); (43892, [5028]);
   (43893, [5029]); (43894, [5030]); (43895, [5031]); (43896, [5032]);
   (43897, [5033]); (43898, [5034]); (43899, [5035]); (43900, [5036]);
   (43901, [5037]); (43902, [5038]); (43903, [5039]); (43904, [5040]);
   (43905, [5041]); (43906, [5042]); (43907, [5043]); (43908, [5044]);
   (43909, [5045]); (43910, [5046]); (43911, [5047]); (43912, [5048]);
   (43913, [5049]); (43914, [5050]); (43915, [5051]); (43916, [5052]);
   (43917, [5053]); (43918, [5054]); (43919, [5055]); (43920, [5056]);
   (43921, [5057]); (43922, [5058]); (43923, [5059]); (43924, [5060]);
   (43925, [5061]); (43926, [5062]); (43927, [5063]); (43928, [5064]);
   (43929, [5065]); (43930, [5066]); (43931, [5067]); (43932, [5068]);
   (43933, [5069]); (43934, [5070]); (43935, [5071]); (43936, [5072]);
   (43937, [5073]); (43938, [5074]); (43939, [5075]); (43940, [5076]);
   (43941, [5077]); (43942, [5078]); (43943, [5079]); (43944, [5080]);
   (43945, [5081]); (43946, [5082]); (43947, [5083]); (43948, [5084]);
   (43949, [5085]); (43950, [5086]); (43951, [5087]); (43952, [5088]);
   (43953, [5089]); (43954, [5090]); (43955, [5091]); (43956, [5092]);
   (43957, [5093]); (43958, [5094]); (43959, [5095]); (43960, [5096]);
   (43961, [5097]); (43962, [5098]); (43963, [5099]); (43964, [5100]);
   (43965, [5101]); (43966, [5102]); (43967, [5103]); (64256, [70; 102]);
   (64257, [70; 105]); (64258, [70; 108]); (64259, [70; 102; 105]);
   (64260, [70; 102; 108]); (64261, [83; 116]); (64262, [83; 116]);
   (64275, [1348; 1398]); (64276, [1348; 1381]); (64277, [1348; 1387]);
   (64278, [1358; 1398]); (64279, [1348; 1389]); (65345, [65313]);
   (65346, [65314]); (65347, [65315]); (65348, [65316]); (65349, [65317]);
   (65350, [65318]); (65351, [65319]); (65352, [65320]); (65353, [65321]);
   (65354, [65322]); (65355, [65323]); (65356, [65324]); (65357, [65325]);
   (65358, [65326]); (65359, [65327]); (65360, [65328]); (65361, [65329]);
   (65362, [65330]); (65363, [65331]); (65364, [65332]); (65365, [65333]);
   (65366, [65334]); (65367, [65335]); (65368, [65336]); (65369, [65337]);
   (65370, [65338]); (66600, [66560]); (66601, [66561]); (66602, [66562]);
   (66603, [66563]); (66604, [66564]); (66605, [66565]); (66606, [66566]);
   (66607, [66567]); (66608, [66568]); (66609, [66569]); (66610, [66570]);
   (66611, [66571]); (66612, [66572]); (66613, [66573]); (66614, [66574]);
   (66615, [66575]); (66616, [66576]); (66617, [66577]); (66618, [66578]);
   (66619, [66579]); (66620, [66580]); (66621, [66581]); (66622, [66582]);
   (66623, [66583]); (66624, [66584]); (66625, [66585]); (66626, [66586]);
   (66627, [66587]); (66628, [66588]); (66629, [66589]); (66630, [66590]);
   (66631, [66591]); (66632, [66592]); (66633, [66593]); (66634, [66594]);
   (66635, [66595]); (66636, [66596]); (66637, [66597]); (66638, [66598]);
   (66639, [66599]); (66776, [66736]); (66777, [66737]); (66778, [66738]);
   (66779, [66739]); (66780, [66740]); (66781, [66741]); (66782, [66742]);
   (66783, [66743]); (66784, [66744]); (66785, [66745]); (66786, [66746]);
   (66787, [66747]); (66788, [66748]); (66789, [66749]); (66790, [66750]);
   (66791, [66751]); (66792, [66752]); (66793, [66753]); (66794, [66754]);
   (66795, [66755]); (66796, [66756]); (66797, [66757]); (66798, [66758]);
   (66799, [66759]); (66800, [66760]); (66801, [66761]); (66802, [66762]);
   (66803, [66763]); (66804, [66764]); (66805, [66765]); (66806, [66766]);
   (66807, [66767]); (66808, [66768]); (66809, [66769]); (66810, [66770]);
   (66811, [66771]); (66967, [66928]); (66968, [66929]); (66969, [66930]);
   (66970, [66931]); (66971, [66932]); (66972, [66933]); (66973, [66934]);
   (66974, [66935]); (66975, [66936]); (66976, [66937]); (66977, [66938]);
   (66979, [66940]); (66980, [66941]); (66981, [66942]); (66982, [66943]);
   (66983, [66944]); (66984, [66945]); (66985, [66946]); (66986, [66947]);
   (66987, [66948]); (66988, [66949]); (66989, [66950]); (66990, [66951]);
   (66991, [66952]); (66992, [66953]); (66993, [66954]); (66995, [66956]);
   (66996, [66957]); (66997, [66958]); (66998, [66959]); (66999, [66960]);
   (67000, [66961]); (67001, [66962]); (67003, [66964]); (67004, [66965]);
   (68800, [68736]); (68801, [68737]); (68802, [68738]); (68803, [68739]);
   (68804, [68740]); (68805, [68741]); (68806, [68742]); (68807, [68743]);
   (68808, [68744]); (68809, [68745]); (68810, [68746]); (68811, [68747]);
   (68812, [68748]); (68813, [68749]); (68814, [68750]); (68815, [68751]);
   (68816, [68752]); (68817, [68753]); (68818, [68754]); (68819, [68755]);
   (68820, [68756]); (68821, [68757]); (68822, [68758]); (68823, [68759]);
   (68824, [68760]); (68825, [68761]); (68826, [68762]); (68827, [68763]);
   (68828, [68764]); (68829, [68765]); (68830, [68766]); (68831, [68767]);
   (68832, [68768]); (68833, [68769]); (68834, [68770]); (68835, [68771]);
   (68836, [68772]); (68837, [68773]); (68838, [68774]); (68839, [68775]);
   (68840, [68776]); (68841, [68777]); (68842, [68778]); (68843, [68779]);
   (68844, [68780]); (68845, [68781]); (68846, [68782]); (68847, [68783]);
   (68848, [68784]); (68849, [68785]); (68850, [68786]); (71872, [71840]);
   (71873, [71841]); (71874, [71842]); (71875, [71843]); (71876, [71844]);
   (71877, [71845]); (71878, [71846]); (71879, [71847]); (71880, [71848]);
   (71881, [71849]); (71882, [71850]); (71883, [71851]); (71884, [71852]);
   (71885, [71853]); (71886, [71854]); (71887, [71855]); (71888, [71856]);
   (71889, [71857]); (71890, [71858]); (71891, [71859]); (71892, [71860]);
   (71893, [71861]); (71894, [71862]); (71895, [71863]); (71896, [71864]);
   (71897, [71865]); (71898, [71866]); (71899, [71867]); (71900, [71868]);
   (71901, [71869]); (71902, [71870]); (71903, [71871]); (93792, [93760]);
   (93793, [93761]); (93794, [93762]); (93795, [93763]); (93796, [93764]);
   (93797, [93765]); (93798, [93766]); (93799, [93767]); (93800, [93768]);
   (93801, [93769]); (93802, [93770]); (93803, [93771]); (93804, [93772]);
   (93805, [93773]); (93806, [93774]); (93807, [93775]); (93808, [93776]);
   (93809, [93777]); (93810, [93778]); (93811, [93779]); (93812, [93780]);
   (93813, [93781]); (93814, [93782]); (93815, [93783]); (93816, [93784]);
   (93817, [93785]); (93818, [93786]); (93819, [93787]); (93820, [93788]);
   (93821, [93789]); (93822, [93790]); (93823, [93791]); (125218, [125184]);
   (125219, [125185]); (125220, [125186]); (125221, [125187]);
   (125222, [125188]); (125223, [125189]); (125224, [125190]);
   (125225, [125191]); (125226, [125192]); (125227, [125193]);
   (125228, [125194]); (125229, [125195]); (125230, [125196]);
   (125231, [125197]); (125232, [125198]); (125233, [125199]);
   (125234, [125200]); (125235, [125201]); (125236, [125202]);
   (125237, [125203]); (125238, [125204]); (125239, [125205]);
   (125240, [125206]); (125241, [125207]); (125242, [125208]);
   (125243, [125209]); (125244, [125210]); (125245, [125211]);
   (125246, [125212]); (125247, [125213]); (125248, [125214]);
   (125249, [125215]); (125250, [125216]); (125251, [125217])]%N.

(** *** Classes and case *)

(** The ASCII capital and small letters. *)
Definition is_upper (c : char) : bool := in_range 65 90 c.
Definition is_lower (c : char) : bool := in_range 97 122 c.

(** [\d] on a [str]: the decimal digits of every script. *)
Definition is_digit (c : char) : bool :=
  in_range 48 57 c || (N.leb 128 c && in_ranges decimal_ranges c).

(** [\w] on a [str]: the letters and digits of every script, and the
    underscore. *)
Definition is_word (c : char) : bool :=
  is_upper c || is_lower c || is_digit c || N.eqb c 95
  || (N.leb 128 c && in_ranges alnum_ranges c).

(** The ASCII letters in lower case.  [main] compares the lower-case
    form of an answer with [y]; only [y] and [Y] have that form, so the
    mapping of the ASCII letters decides the comparison as [str.lower]
    does. *)
Definition to_lower (c : char) : char := if is_upper c then (c + 32)%N else c.

(** What re.IGNORECASE compares on a [str]: a character of the text
    matches a literal when both have the same image here.  The ASCII
    capital letters go to the small ones; the capital I with dot and the
    small i without dot match i, the long s matches s and the Kelvin
    sign matches k.  This is exact for the literals of the program,
    which are all ASCII. *)
Definition sre_fold (c : char) : char :=
  if is_upper c then (c + 32)%N
  else if N.eqb c 304 then 105%N
  else if N.eqb c 305 then 105%N
  else if N.eqb c 383 then 115%N
  else if N.eqb c 8490 then 107%N
  else c.

Fixpoint str_eqb (a b : str) : bool :=
  match a, b with
  | [], [] => true
  | x :: a', y :: b' => N.eqb x y && str_eqb a' b'
  | _, _ => false
  end.

(** [s.startswith(p)] *)
Fixpoint prefixb (p s : str) : bool :=
  match p, s with
  | [], _ => true
  | x :: p', y :: s' => N.eqb x y && prefixb p' s'
  | _ :: _, [] => false
  end.

(** [p in s] *)
Fixpoint contains (p s : str) : bool :=
  prefixb p s || match s with [] => false | _ :: t => contains p t end.

(** ** The methods of [str] the program calls *)

(** [s.replace(old, new)]: the occurrences of [old] are taken from left
    to right and do not overlap; [skip] counts the characters of the
    occurrence just replaced that are still to be passed. *)
Fixpoint replace_aux (old new : str) (skip : nat) (s : str) : str :=
  match s with
  | [] => []
  | c :: t =>
      match skip with
      | S k => replace_aux old new k t
      | O => if prefixb old s
             then new ++ replace_aux old new (length old - 1) t
             else c :: replace_aux old new 0 t
      end
  end.

Definition replace (old new s : str) : str :=
  match old with
  | [] => new ++ flat_map (fun c => c :: new) s
  | _ :: _ => replace_aux old new 0 s
  end.

Fixpoint lstrip_by (p : char -> bool) (s : str) : str :=
  match s with
  | c :: t => if p c then lstrip_by p t else s
  | [] => []
  end.

Definition rstrip_by (p : char -> bool) (s : str) : str :=
  rev (lstrip_by p (rev s)).

Definition strip_by (p : char -> bool) (s : str) : str :=
  rstrip_by p (lstrip_by p s).

Definition mem_char (chars : str) (c : char) : bool := existsb (N.eqb c) chars.

(** [s.strip()], [s.strip(chars)], [s.rstrip(chars)] *)
Definition strip (s : str) : str := strip_by is_space s.
Definition strip_chars (chars s : str) : str := strip_by (mem_char chars) s.
Definition rstrip_chars (chars s : str) : str := rstrip_by (mem_char chars) s.

(** [s.split(sep)] for a separator of one character. *)
Fixpoint split_on (sep : char) (s : str) : list str :=
  match s with
  | [] => [[]]
  | c :: t =>
      if N.eqb c sep then [] :: split_on sep t
      else match split_on sep t with
           | w :: ws => (c :: w) :: ws
           | [] => [[c]]
           end
  end.

(** [sep.join(parts)] *)
Fixpoint join (sep : str) (parts : list str) : str :=
  match parts with
  | [] => []
  | [w] => w
  | w :: ws => w ++ sep ++ join sep ws
  end.

Fixpoint assoc (c : char) (m : list (N * list N)) : option str :=
  match m with
  | [] => None
  | (k, v) :: m' => if N.eqb c k then Some v else assoc c m'
  end.

(** The title-case and the lower-case image of one character; an image
    may hold more than one character. *)
Definition title_full (c : char) : str :=
  match assoc c title_map with
  | Some v => v
  | None => [c]
  end.

Definition lower_full (c : char) : str :=
  match assoc c lower_map with
  | Some v => v
  | None => [c]
  end.

(** The rule of the final sigma: a capital sigma becomes the final
    small sigma when a cased character stands before it and none after
    it, characters that the rule passes over set aside.  [before] is the
    text before the sigma, the nearest character first. *)
Definition final_sigma (before after : str) : bool :=
  match lstrip_by (in_ranges case_ignorable_ranges) before with
  | j :: _ =>
      in_ranges cased_ranges j
      && match lstrip_by (in_ranges case_ignorable_ranges) after with
         | k :: _ => negb (in_ranges cased_ranges k)
         | [] => true
         end
  | [] => false
  end.

(** The characters of [s] in lower case, [before] standing before them. *)
Fixpoint lower_from (before s : str) : str :=
  match s with
  | [] => []
  | c :: t =>
      (if N.eqb c 931
       then [if final_sigma before t then 962%N else 963%N]
       else lower_full c)
      ++ lower_from (c :: before) t
  end.

(** [s.capitalize()]: the first character in title case, the others in
    lower case. *)
Definition capitalize (s : str) : str :=
  match s with
  | [] => []
  | c :: t => title_full c ++ lower_from [c] t
  end.

(** ** The part of [re] the program uses *)

Record flags := { ignorecase : bool; dotall : bool }.

Definition no_flags := {| ignorecase := false; dotall := false |}.

Inductive regex :=
| Eps
| Lit (c : char)
| Any
| Cls (p : char -> bool)
| Seq (r1 r2 : regex)
| Alt (r1 r2 : regex)
| Star (greedy : bool) (r : regex)
| Grp (n : nat) (r : regex)
| EndZ.

(** [r+], [r+?] and [r?] *)
Definition Plus (greedy : bool) (r : regex) : regex := Seq r (Star greedy r).
Definition Opt (r : regex) : regex := Alt r Eps.

(** The literal text [s], character by character. *)
Fixpoint Lits (s : str) : regex :=
  match s with
  | [] => Eps
  | [c] => Lit c
  | c :: t => Seq (Lit c) (Lits t)
  end.

(** Captured groups, the most recent first. *)
Definition caps := list (nat * str).

Fixpoint group (n : nat) (c : caps) : str :=
  match c with
  | [] => []
  | (m, w) :: c' => if Nat.eqb m n then w else group n c'
  end.

(** A match in progress: the groups so far and the text still to read. *)
Definition outcome := option (caps * str).
Definition cont := caps -> str -> outcome.

Definition or_else (a b : outcome) : outcome :=
  match a with
  | Some x => Some x
  | None => b
  end.

Definition lit_eq (fl : flags) (a x : char) : bool :=
  if ignorecase fl then N.eqb (sre_fold a) (sre_fold x) else N.eqb a x.

(** Repetition.  A greedy loop tries one more round before it goes on,
    a lazy one goes on before it tries one more round; a round that reads
    nothing ends the loop, so [n], the length of the text, bounds the
    number of rounds. *)
Fixpoint star_loop (body : cont -> cont) (greedy : bool) (k : cont)
    (n : nat) : cont :=
  fun c s =>
    match n with
    | O => k c s
    | S n' =>
        let again :=
          body (fun c' s' =>
                  if length s' <? length s
                  then star_loop body greedy k n' c' s'
                  else None) c s in
        if greedy then or_else again (k c s) else or_else (k c s) again
    end.

(** [rmatch fl r k c s]: match [r] at the head of [s], then go on with
    [k]; the first success in the order of the backtracking search. *)
Fixpoint rmatch (fl : flags) (r : regex) (k : cont) {struct r} : cont :=
  fun c s =>
    match r with
    | Eps => k c s
    | Lit a =>
        match s with
        | x :: t => if lit_eq fl a x then k c t else None
        | [] => None
        end
    | Any =>
        match s with
        | x :: t => if dotall fl || negb (N.eqb x NL) then k c t else None
        | [] => None
        end
    | Cls p =>
        match s with
        | x :: t => if p x then k c t else None
        | [] => None
        end
    | Seq r1 r2 => rmatch fl r1 (rmatch fl r2 k) c s
    | Alt r1 r2 => or_else (rmatch fl r1 k c s) (rmatch fl r2 k c s)
    | Star g r1 => star_loop (rmatch fl r1) g k (length s) c s
    | Grp n r1 =>
        rmatch fl r1
          (fun c' s' => k ((n, firstn (length s - length s') s) :: c') s') c s
    | EndZ =>
        match s with
        | [] => k c s
        | _ :: _ => None
        end
    end.

Definition accept : cont := fun c s => Some (c, s).

(** A match of [r] that starts at the head of [s]: the groups and the
    text after the match. *)
Definition match_here (fl : flags) (r : regex) (s : str) : outcome :=
  rmatch fl r accept [] s.

(** [re.search(r, s, flags)]: the leftmost match; the result is the
    position of its start, the groups, and the text after it. *)
Fixpoint search_from (fl : flags) (r : regex) (pos : nat) (s : str)
  : option (nat * caps * str) :=
  match match_here fl r s with
  | Some (c, rest) => Some (pos, c, rest)
  | None =>
      match s with
      | [] => None
      | _ :: t => search_from fl r (S pos) t
      end
  end.

Definition re_search (fl : flags) (r : regex) (s : str)
  : option (nat * caps * str) :=
  search_from fl r 0 s.

(** [re.sub(r, repl, s)]: every match, from left to right and without
    overlap, is replaced by [repl] of its groups.  No pattern given to
    [re.sub] in this program matches the empty text, and an empty match
    is left alone here. *)
Fixpoint sub_aux (fl : flags) (r : regex) (repl : caps -> str)
    (skip : nat) (s : str) : str :=
  match s with
  | [] => []
  | x :: t =>
      match skip with
      | S k => sub_aux fl r repl k t
      | O =>
          match match_here fl r s with
          | Some (c, rest) =>
              match length s - length rest with
              | O => x :: sub_aux fl r repl 0 t
              | S k => repl c ++ sub_aux fl r repl k t
              end
          | None => x :: sub_aux fl r repl 0 t
          end
      end
  end.

Definition re_sub (fl : flags) (r : regex) (repl : caps -> str) (s : str)
  : str :=
  sub_aux fl r repl 0 s.

(** [len(re.findall('^' + r, s, re.MULTILINE))]: under MULTILINE a
    pattern that begins with [^] is tried at the start of the text and
    after each line break only. *)
Fixpoint count_bol_aux (fl : flags) (r : regex) (bol : bool) (skip : nat)
    (s : str) : nat :=
  match s with
  | [] => 0
  | x :: t =>
      match skip with
      | S k => count_bol_aux fl r (N.eqb x NL) k t
      | O =>
          match (if bol then match_here fl r s else None) with
          | Some (_, rest) =>
              match length s - length rest with
              | O => count_bol_aux fl r (N.eqb x NL) 0 t
              | S k => S (count_bol_aux fl r (N.eqb x NL) k t)
              end
          | None => count_bol_aux fl r (N.eqb x NL) 0 t
          end
      end
  end.

Definition findall_bol_count (fl : flags) (r : regex) (s : str) : nat :=
  count_bol_aux fl r true 0 s.

(** ** The patterns of the program *)

Fixpoint seqs (rs : list regex) : regex :=
  match rs with
  | [] => Eps
  | [r] => r
  | r :: rs' => Seq r (seqs rs')
  end.

Definition not_char (a : char) (c : char) : bool := negb (N.eqb c a).
Arguments not_char (a c)%_N_scope.
Definition not_quote_backslash (c : char) : bool :=
  negb (N.eqb c QUOTE) && negb (N.eqb c BACKSLASH).

(** [r'INSERT INTO `?(\w+)`?\s*\(([^)]+)\)'], with re.IGNORECASE;
    [insert_columns] is its end [\(([^)]+)\)] and [insert_after_name]
    is what follows the name. *)
Definition insert_columns : regex :=
  seqs [ Lit LPAREN; Grp 2 (Plus true (Cls (not_char RPAREN))); Lit RPAREN ].

Definition insert_after_name : regex :=
  seqs [ Opt (Lit BACKTICK); Star true (Cls is_space); insert_columns ].

Definition insert_re : regex :=
  seqs [ Lits (u "INSERT INTO ");
         Opt (Lit BACKTICK);
         Grp 1 (Plus true (Cls is_word));
         insert_after_name ].
Definition insert_flags := {| ignorecase := true; dotall := false |}.

(** [r"'((?:[^'\\]|\\.|'')*?)'"]; [literal_body] is the group
    [(?:[^'\\]|\\.|'')]. *)
Definition literal_body : regex :=
  Alt (Cls not_quote_backslash)
      (Alt (Seq (Lit BACKSLASH) Any) (Seq (Lit QUOTE) (Lit QUOTE))).

Definition literal_re : regex :=
  seqs [ Lit QUOTE; Grp 1 (Star false literal_body); Lit QUOTE ].

(** [r'\s+'] *)
Definition spaces_re : regex := Plus true (Cls is_space).

(** [r"'T(\d+)'"] *)
Definition tcode_re : regex :=
  seqs [ Lit QUOTE; Lit 84%N; Grp 1 (Plus true (Cls is_digit)); Lit QUOTE ].

(** [r'VALUES\s+(.*?)(?:;|\n\s*--|\Z)'], with re.DOTALL | re.IGNORECASE;
    [values_term] is the group [(?:;|\n\s*--|\Z)]. *)
Definition values_term : regex :=
  Alt (Lit SEMI)
    (Alt (seqs [Lit NL; Star true (Cls is_space); Lits (u "--")]) EndZ).

Definition values_re : regex :=
  seqs [ Lits (u "VALUES");
         Plus true (Cls is_space);
         Grp 1 (Star false Any);
         values_term ].
Definition values_flags := {| ignorecase := true; dotall := true |}.

(** [r'^\s*\(\d+,'] after its [^], with re.MULTILINE *)
Definition record_re : regex :=
  seqs [ Star true (Cls is_space); Lit LPAREN; Plus true (Cls is_digit);
         Lit COMMA ].

(** ** The passes of [clean_sql_data] *)

(** Step 1: the table name and the columns of the INSERT statement. *)
Definition detect_table_and_columns (table_name content : str)
  : str * list str :=
  match re_search insert_flags insert_re content with
  | Some (_, g, _) =>
      let detected_table := group 1 g in
      let columns_raw := group 2 g in
      let columns :=
        map (fun col => strip_chars [BACKTICK] (strip col))
            (split_on COMMA columns_raw) in
      let table_pascal :=
        concat (map capitalize (split_on UNDERSCORE detected_table)) in
      (table_pascal, columns)
  | None => (table_name, [])
  end.

(** Step 2: quotes inside string literals. *)
Definition replace_quotes_in_string (g : caps) : str :=
  let content := group 1 g in
  let content := replace [QUOTE] [QUOTE; QUOTE] content in
  [QUOTE] ++ content ++ [QUOTE].

Definition fix_quotes_and_special_chars (text : str) : str :=
  re_sub no_flags literal_re replace_quotes_in_string text.

(** Step 3: the table of contractions, in the order of the dictionary. *)
Definition apostrophe_fixes : list (str * str) :=
  map (fun p => (u (fst p), u (snd p)))
    [ ("don't", "don''t"); ("won't", "won''t"); ("can't", "can''t");
      ("isn't", "isn''t"); ("aren't", "aren''t"); ("wasn't", "wasn''t");
      ("weren't", "weren''t"); ("doesn't", "doesn''t");
      ("haven't", "haven''t");
      ("hasn't", "hasn''t"); ("hadn't", "hadn''t");
      ("wouldn't", "wouldn''t");
      ("shouldn't", "shouldn''t"); ("couldn't", "couldn''t");
      ("it's", "it''s"); ("that's", "that''s"); ("what's", "what''s");
      ("here's", "here''s"); ("there's", "there''s");
      ("where's", "where''s");
      ("let's", "let''s"); ("who's", "who''s");
      ("you'll", "you''ll"); ("we'll", "we''ll"); ("they'll", "they''ll");
      ("I'll", "I''ll"); ("he'll", "he''ll"); ("she'll", "she''ll");
      ("you're", "you''re"); ("we're", "we''re"); ("they're", "they''re");
      ("I'm", "I''m"); ("you've", "you''ve"); ("we've", "we''ve");
      ("they've", "they''ve"); ("I've", "I''ve") ]%string.

Definition fix_apostrophes (text : str) : str :=
  fold_left (fun text p => replace (fst p) (snd p) text) apostrophe_fixes text.

(** Step 4: line breaks, runs of white space, mis-encoded symbols. *)
Definition fix_newlines_and_formatting (text : str) : str :=
  let text := replace [BACKSLASH; 110%N] [NL] text in
  let text := replace [NL] [SPACE] text in
  let text := re_sub no_flags spaces_re (fun _ => [SPACE]) text in
  let text := replace [172; 169]%N (u "(c)") text in
  let text := replace [172; 198]%N (u "(R)") text in
  let text := replace [8218; 209; 162]%N (u "(TM)") text in
  text.

(** Step 5: business terms. *)
Definition fix_business_terms (text : str) : str :=
  let text := replace (u "e&") (u "e&") text in
  let text := replace (u "UAE's") (u "UAE''s") text in
  let text :=
    re_sub no_flags tcode_re
      (fun g => u "''T" ++ group 1 g ++ u "''") text in
  let text := replace (u "kids\'") (u "kids''") text in
  let text := replace (u "\'") (u "''") text in
  text.

(** Step 6: the VALUES section. *)
Definition extract_and_clean_values (content : str) : str :=
  match re_search values_flags values_re content with
  | Some (_, g, _) =>
      let values_content := strip (group 1 g) in
      let values_content := strip (rstrip_chars [SEMI] values_content) in
      values_content
  | None => strip content
  end.

(** The cleaning steps, in the order in which they are applied. *)
Definition clean_values (values_content : str) : str :=
  let cleaned_content := values_content in
  let cleaned_content := fix_newlines_and_formatting cleaned_content in
  let cleaned_content := fix_apostrophes cleaned_content in
  let cleaned_content := fix_business_terms cleaned_content in
  let cleaned_content := fix_quotes_and_special_chars cleaned_content in
  cleaned_content.

Definition addons_columns : str :=
  u "(internal_id, id, additional_details, amount, amount_details, best_seller, billing_cycle, brand_name, description, is_new, limited_offer, processed_at, product_name, run_id, seasonal_offer, segment, url, vat_applicable, vat_included, vat_percentage, vat_percentage_details, validity, coverage_amount, coverage_amount_details, validity_details, minutes, minutes_type, data_allowance, data_allowance_details, data_type, minutes_details, coverage_types)".

Definition bio_columns : str :=
  u "(internal_id, id, Biography, brand_name, processed_at, run_id, segment, url)".

Definition column_list_of (detected_table : str) (columns : list str) : str :=
  match columns with
  | _ :: _ => u "(" ++ join (u ", ") columns ++ u ")"
  | [] =>
      if contains (u "Addons") detected_table then addons_columns
      else if contains (u "Bio") detected_table then bio_columns
      else []
  end.

Definition unlines (ls : list str) : str := flat_map (fun l => l ++ [NL]) ls.

(** The lines of the script before the INSERT statement, the statement
    itself, and the lines after it. *)
Definition script_head (detected_table : str) : list str :=
  [ u "-- SQL Server INSERT Script for " ++ detected_table;
    u "-- Generated by Python cleaning script";
    u "-- Original MySQL data cleaned for SQL Server compatibility";
    [];
    u "-- Enable IDENTITY_INSERT";
    u "SET IDENTITY_INSERT " ++ detected_table ++ u " ON;";
    u "SET NOCOUNT ON;";
    [];
    u "-- Begin Transaction for safety";
    u "BEGIN TRANSACTION;";
    [];
    u "TRY";
    u "    -- Insert statements" ].

Definition script_insert (detected_table column_list cleaned_content : str)
  : list str :=
  [ u "    INSERT INTO " ++ detected_table ++ u " " ++ column_list
      ++ u " VALUES";
    u "    " ++ rstrip_chars [COMMA] cleaned_content ++ u ";" ].

Definition script_tail (detected_table : str) : list str :=
  [ u "    ";
    u "    -- Commit if successful";
    u "    COMMIT TRANSACTION;";
    u "    PRINT 'SUCCESS: Data inserted successfully into "
      ++ detected_table ++ u "';";
    u "    ";
    u "END TRY";
    u "BEGIN CATCH";
    u "    -- Rollback on error";
    u "    ROLLBACK TRANSACTION;";
    u "    PRINT 'ERROR: ' + ERROR_MESSAGE();";
    u "    PRINT 'Error occurred during insert into " ++ detected_table
      ++ u "';";
    u "END CATCH";
    [];
    u "-- Disable IDENTITY_INSERT";
    u "SET IDENTITY_INSERT " ++ detected_table ++ u " OFF;";
    u "SET NOCOUNT OFF;";
    [];
    u "-- Verify insertion";
    u "SELECT COUNT(*) as 'Total Records in " ++ detected_table
      ++ u "' FROM " ++ detected_table ++ u ";";
    u "SELECT TOP 5 * FROM " ++ detected_table
      ++ u " ORDER BY internal_id DESC;" ].

(** The f-string [sql_server_content]. *)
Definition sql_server_content
    (detected_table column_list cleaned_content : str) : str :=
  unlines (script_head detected_table
           ++ script_insert detected_table column_list cleaned_content
           ++ script_tail detected_table).

(** ** Files, the console and [clean_sql_data] *)

(** The exceptions [open], [read] and [write] may raise.  All derive
    from [Exception] but [KeyboardInterrupt], which derives from
    [BaseException] only. *)
Inductive exc_class :=
| FileNotFoundError
| OSError
| UnicodeError
| KeyboardInterrupt.

(** An exception and its text [str(e)]. *)
Record exc := { exc_kind : exc_class; exc_str : str }.

Definition is_FileNotFoundError (e : exc) : bool :=
  match exc_kind e with
  | FileNotFoundError => true
  | _ => false
  end.

Definition is_Exception (e : exc) : bool :=
  match exc_kind e with
  | KeyboardInterrupt => false
  | _ => true
  end.

(** What reading a file gives, and what writing a text to a file does. *)
Record filesystem := {
  fs_read : str -> exc + str;
  fs_write : str -> str -> option exc
}.

Inductive result :=
| Returned (b : bool)
| Raised (e : exc).

(** A call of [clean_sql_data]: the lines printed, the file written if
    any, and how the call ends. *)
Record run := {
  console : list str;
  written : option (str * str);
  outcome_of : result
}.

(** [str(n)] for a natural number. *)
Definition decimal (n : nat) : str :=
  u (DecimalString.NilZero.string_of_uint (Nat.to_uint n)).

Definition check_mark : str := [8218; 250; 214]%N.

Definition clean_sql_data (fs : filesystem)
    (input_file output_file table_name : str) : run :=
  let out := [u "Reading data from: " ++ input_file] in
  match fs_read fs input_file with
  | inl e =>
      if is_FileNotFoundError e then
        {| console := out ++ [u "Error: File '" ++ input_file
                                ++ u "' not found!"];
           written := None;
           outcome_of := Returned false |}
      else if is_Exception e then
        {| console := out ++ [u "Error reading file: " ++ exc_str e];
           written := None;
           outcome_of := Returned false |}
      else {| console := out; written := None; outcome_of := Raised e |}
  | inr content =>
      let out := out ++ [u "Cleaning data..."] in
      let '(detected_table, columns) :=
        detect_table_and_columns table_name content in
      let out := out ++ [u "Detected table: " ++ detected_table;
                         u "Detected columns: " ++ decimal (length columns)
                           ++ u " columns"] in
      let values_content := extract_and_clean_values content in
      let cleaned_content := clean_values values_content in
      let column_list := column_list_of detected_table columns in
      let script :=
        sql_server_content detected_table column_list cleaned_content in
      match fs_write fs output_file script with
      | None =>
          let record_count :=
            findall_bol_count no_flags record_re cleaned_content in
          {| console :=
               out ++ [check_mark ++ u " Cleaned data saved to: "
                         ++ output_file;
                       check_mark ++ u " Total size: "
                         ++ decimal (length script) ++ u " characters";
                       check_mark ++ u " Total records: "
                         ++ decimal record_count];
             written := Some (output_file, script);
             outcome_of := Returned true |}
      | Some e =>
          if is_Exception e then
            {| console := out ++ [u "Error writing file: " ++ exc_str e];
               written := None;
               outcome_of := Returned false |}
          else {| console := out; written := None; outcome_of := Raised e |}
      end
  end.

(** The text [clean_sql_data] hands to [write] for a file of content
    [content]. *)
Definition output_script (table_name content : str) : str :=
  let '(detected_table, columns) :=
    detect_table_and_columns table_name content in
  sql_server_content detected_table
    (column_list_of detected_table columns)
    (clean_values (extract_and_clean_values content)).

(** ** Inputs of the scenarios *)

Definition scenario_input : str := u "(1, 'it''s T100 test\n line2')".

(** A file system in which no file can be read or written. *)
Definition missing_fs : filesystem :=
  {| fs_read := fun path =>
       inl {| exc_kind := FileNotFoundError; exc_str := path |};
     fs_write := fun path _ =>
       Some {| exc_kind := OSError; exc_str := path |} |}.

(** A file system with one readable file and a disk that is full. *)
Definition full_disk_fs (content : str) : filesystem :=
  {| fs_read := fun _ => inr content;
     fs_write := fun _ _ =>
       Some {| exc_kind := OSError;
               exc_str := u "No space left on device" |} |}.

(** ** Functions the properties are stated with *)

(** *** Runs of characters and search orders *)

(** [lit_prefix fl w s]: the text after [w] when [s] begins with [w],
    letters compared as the flags say. *)
Fixpoint lit_prefix (fl : flags) (w s : str) : option str :=
  match w with
  | [] => Some s
  | a :: w' =>
      match s with
      | x :: t => if lit_eq fl a x then lit_prefix fl w' t else None
      | [] => None
      end
  end.

(** The search order of [p*] and of [p*?] for a class [p] of single
    characters, followed by [k]. *)
Fixpoint greedy_run (p : char -> bool) (k : cont) (c : caps) (s : str)
  : outcome :=
  match s with
  | x :: t => if p x then or_else (greedy_run p k c t) (k c s) else k c s
  | [] => k c []
  end.

Fixpoint lazy_run (p : char -> bool) (k : cont) (c : caps) (s : str)
  : outcome :=
  or_else (k c s)
    match s with
    | x :: t => if p x then lazy_run p k c t else None
    | [] => None
    end.

Definition any_char (fl : flags) (x : char) : bool :=
  dotall fl || negb (N.eqb x NL).

(** The first character of [x], if any, is not in [p]. *)
Definition head_not (p : char -> bool) (x : str) : bool :=
  match x with
  | [] => true
  | h :: _ => negb (p h)
  end.

(** The longest prefix of [s] made of characters of [p]. *)
Fixpoint take_by (p : char -> bool) (s : str) : str :=
  match s with
  | x :: t => if p x then x :: take_by p t else []
  | [] => []
  end.

(** [w.endswith(a)] *)
Fixpoint suffixb (a w : str) : bool :=
  str_eqb a w ||
  match w with
  | [] => false
  | _ :: t => suffixb a t
  end.

(** No character lies in a range of [rs] and in a range of [ss]. *)
Definition ranges_apart (rs ss : list (N * N)) : bool :=
  forallb (fun r =>
             forallb (fun s => N.ltb (snd r) (fst s) || N.ltb (snd s) (fst r))
                     ss) rs.

(** *** String literals *)

(** What [literal_re] reads after an opening quote: the body of the
    literal, up to the first quote that no backslash precedes, and the
    text after that quote. *)
Fixpoint scan_literal (s : str) : option (str * str) :=
  match s with
  | [] => None
  | y :: r =>
      if N.eqb y QUOTE then Some ([], r)
      else if N.eqb y BACKSLASH then
        match r with
        | [] => None
        | z :: r' =>
            if N.eqb z NL then None
            else match scan_literal r' with
                 | Some (body, rest) => Some (y :: z :: body, rest)
                 | None => None
                 end
        end
      else match scan_literal r with
           | Some (body, rest) => Some (y :: body, rest)
           | None => None
           end
  end.

(** The continuation of [literal_re] after the body of a literal that
    starts in the text [t]: the group is closed, then the closing quote
    is read. *)
Definition close_literal (t : str) : cont :=
  fun c' s' =>
    rmatch no_flags (Lit QUOTE) accept
      ((1, firstn (length t - length s') t) :: c') s'.

(** The SQL Server reading of quotes: outside a literal a quote opens
    one; inside, two quotes in a row stand for one quote of the text and
    a quote alone closes the literal.  A text is correctly escaped when
    the reading ends outside a literal. *)
Fixpoint sql_scan (inside : bool) (s : str) : bool :=
  match s with
  | [] => negb inside
  | c :: t =>
      if N.eqb c QUOTE then
        if inside then
          match t with
          | c2 :: t2 => if N.eqb c2 QUOTE then sql_scan true t2
                        else sql_scan false t
          | [] => true
          end
        else sql_scan true t
      else sql_scan inside t
  end.

Definition correctly_escaped (s : str) : bool := sql_scan false s.

Definition count_char (a : char) (s : str) : nat :=
  length (filter (N.eqb a) s).

(** *** The contractions, in two halves *)

Definition listed_contraction (w : str) : bool :=
  existsb (fun p => str_eqb (fst p) w) apostrophe_fixes.

Definition quote_free (w : str) : bool := forallb (not_char QUOTE) w.

(** The text before the quote of a contraction and the text after it. *)
Definition halves (w : str) : str * str :=
  (take_by (not_char QUOTE) w, tl (lstrip_by (not_char QUOTE) w)).

Definition contraction_halves : list (str * str) :=
  map (fun p => halves (fst p)) apostrophe_fixes.

(** The contraction with one quote, and with two. *)
Definition with_quote (ab : str * str) : str := fst ab ++ QUOTE :: snd ab.
Definition with_quotes (ab : str * str) : str :=
  fst ab ++ QUOTE :: QUOTE :: snd ab.

(** No end of [b] that is not empty begins [a]: two occurrences of
    [a'b] cannot share characters. *)
Fixpoint no_overlap (a b : str) : bool :=
  match b with
  | [] => true
  | _ :: t => negb (prefixb b a) && no_overlap a t
  end.

Definition good_halves (ab : str * str) : bool :=
  negb (str_eqb (fst ab) []) && negb (str_eqb (snd ab) [])
  && quote_free (fst ab) && quote_free (snd ab)
  && no_overlap (fst ab) (snd ab).

(** A quote between the texts [w0] and [w1] stands in a contraction
    [a'b] when [w0] ends with [a] and [w1] begins with [b]. *)
Definition between (ab : str * str) (w0 w1 : str) : bool :=
  suffixb (fst ab) w0 && prefixb (snd ab) w1.

Definition in_contraction (w0 w1 : str) : bool :=
  existsb (fun ab => between ab w0 w1) contraction_halves.

(** The text is cut at its quotes; [mark P] puts an empty piece, that
    is a second quote, between two pieces that [P] relates. *)
Fixpoint mark (P : str -> str -> bool) (segs : list str) : list str :=
  match segs with
  | w0 :: ((w1 :: _) as rest) =>
      if P w0 w1 then w0 :: [] :: mark P rest else w0 :: mark P rest
  | _ => segs
  end.

(** Every quote that stands in an enumerated contraction is doubled. *)
Definition double_contraction_quotes (s : str) : str :=
  join [QUOTE] (mark in_contraction (split_on QUOTE s)).

(** [quotes_added s s']: [s'] is [s] with some of its quotes doubled. *)
Inductive quotes_added : str -> str -> Prop :=
| qa_nil : quotes_added [] []
| qa_keep (c : char) (s s' : str) :
    quotes_added s s' -> quotes_added (c :: s) (c :: s')
| qa_double (s s' : str) :
    quotes_added s s' -> quotes_added (QUOTE :: s) (QUOTE :: QUOTE :: s').

(** [quotes_repeated s s']: [s'] is [s] with some of its quotes
    repeated, each any number of times; nothing is taken out and no
    other character is put in. *)
Inductive quotes_repeated : str -> str -> Prop :=
| qr_nil : quotes_repeated [] []
| qr_keep (c : char) (s s' : str) :
    quotes_repeated s s' -> quotes_repeated (c :: s) (c :: s')
| qr_again (s s' : str) :
    quotes_repeated (QUOTE :: s) s' ->
    quotes_repeated (QUOTE :: s) (QUOTE :: s').

(** *** The values block, in the words of the specification *)

(** The text begins with the keyword VALUES, in any case, and white
    space follows: the text after that white space. *)
Definition after_values_keyword (s : str) : option str :=
  match lit_prefix values_flags (u "VALUES") s with
  | Some (x :: t) => if is_space x then Some (lstrip_by is_space t) else None
  | _ => None
  end.

(** The text after the first VALUES keyword that white space follows. *)
Fixpoint find_values (s : str) : option str :=
  match after_values_keyword s with
  | Some r => Some r
  | None =>
      match s with
      | [] => None
      | _ :: t => find_values t
      end
  end.

(** The block ends here: (a) at a semicolon, (b) at a line break after
    which a line begins with [--], or (c) at the end of the text. *)
Definition values_end (s : str) : bool :=
  match s with
  | [] => true
  | x :: t =>
      N.eqb x SEMI || (N.eqb x NL && prefixb (u "--") (lstrip_by is_space t))
  end.

(** The text up to the first place where the block ends. *)
Fixpoint values_span (s : str) : str :=
  match s with
  | [] => []
  | x :: t => if values_end s then [] else x :: values_span t
  end.

Definition values_block (content : str) : str :=
  match find_values content with
  | Some s1 => strip (values_span s1)
  | None => strip content
  end.

(** A line that begins with [--] starts somewhere in [s]. *)
Fixpoint comment_line_in (s : str) : bool :=
  match s with
  | [] => false
  | x :: t =>
      (N.eqb x NL && prefixb (u "--") (lstrip_by is_space t))
      || comment_line_in t
  end.

(** What [values_term] reads at the head of [s], if it matches there,
    and the text after the terminator that ends the span of [s]. *)
Definition after_end (s : str) : option str :=
  match s with
  | [] => Some []
  | x :: t =>
      if N.eqb x SEMI then Some t
      else if N.eqb x NL then
        if prefixb (u "--") (lstrip_by is_space t)
        then Some (skipn 2 (lstrip_by is_space t))
        else None
      else None
  end.

Fixpoint values_rest (s : str) : str :=
  match s with
  | [] => []
  | x :: t =>
      match after_end s with
      | Some r => r
      | None => values_rest t
      end
  end.

Definition close_values (t : str) : cont :=
  fun c' s' =>
    rmatch values_flags values_term accept
      ((1, firstn (length t - length s') t) :: c') s'.

(** *** The INSERT statement, in the words of the specification *)

Definition drop_backtick (s : str) : str :=
  match s with
  | x :: t => if N.eqb x BACKTICK then t else s
  | [] => []
  end.

(** [(<cols>)] at the head of [s]: the text between the parentheses,
    which is not empty, and the text after them. *)
Definition columns_at (s : str) : option (str * str) :=
  match s with
  | x :: s1 =>
      if N.eqb x LPAREN then
        match take_by (not_char RPAREN) s1, lstrip_by (not_char RPAREN) s1 with
        | (_ :: _) as cols, _ :: rest => Some (cols, rest)
        | _, _ => None
        end
      else None
  | [] => None
  end.

(** [INSERT INTO <name> (<cols>)] at the head of [s], the keywords in
    any case and the name between optional backticks: the name, the
    text between the parentheses, and the text after them. *)
Definition insert_statement (s : str) : option (str * str * str) :=
  match lit_prefix insert_flags (u "INSERT INTO ") s with
  | None => None
  | Some s1 =>
      let s2 := drop_backtick s1 in
      match take_by is_word s2 with
      | [] => None
      | (_ :: _) as name =>
          match columns_at (lstrip_by is_space
                              (drop_backtick (lstrip_by is_word s2))) with
          | Some (cols, rest) => Some (name, cols, rest)
          | None => None
          end
      end
  end.

(** The first INSERT statement of the text. *)
Fixpoint find_insert (s : str) : option (str * str) :=
  match insert_statement s with
  | Some (name, cols, _) => Some (name, cols)
  | None =>
      match s with
      | [] => None
      | _ :: t => find_insert t
      end
  end.

(** snake_case to PascalCase, and the columns of a column list. *)
Definition pascal_case (name : str) : str :=
  concat (map capitalize (split_on UNDERSCORE name)).

Definition column_names (cols : str) : list str :=
  map (fun col => strip_chars [BACKTICK] (strip col)) (split_on COMMA cols).

Definition opt_backtick (q : str) : Prop := q = [] \/ q = [BACKTICK].

(** [s] begins with an INSERT statement of the pattern: the keywords
    INSERT INTO in any case and one space, a name of word characters
    between optional backticks, white space or none, and a column list
    between parentheses that is not empty and holds no closing
    parenthesis. *)
Definition insert_at (s name cols : str) : Prop :=
  exists kw q1 q2 ws rest : str,
    s = kw ++ q1 ++ name ++ q2 ++ ws ++ LPAREN :: cols ++ RPAREN :: rest /\
    lit_prefix insert_flags (u "INSERT INTO ") kw = Some [] /\
    opt_backtick q1 /\ opt_backtick q2 /\
    name <> [] /\ forallb is_word name = true /\
    forallb is_space ws = true /\
    cols <> [] /\ forallb (not_char RPAREN) cols = true.

(** *** Counting occurrences *)

(** The number of places of [s] at which [p] begins. *)
Fixpoint occurrences (p s : str) : nat :=
  (if prefixb p s then 1 else 0)
  + match s with
    | [] => 0
    | _ :: t => occurrences p t
    end.

(** No occurrence of [p] in [a ++ b] begins in [a] and ends in [b]:
    no beginning of [p] ends [a] while the rest of [p] begins [b]. *)
Definition straddle_free (p a b : str) : bool :=
  forallb (fun k => negb (suffixb (firstn k p) a && prefixb (skipn k p) b))
          (seq 1 (length p - 1)).

Definition INSERT_INTO : str := u "INSERT INTO".

(** *** The shape of a normalised text *)

(** Every white-space character of [s] is a space and no two of them
    are neighbours; [prev] tells that a space stands just before [s]. *)
Fixpoint single_spaced (prev : bool) (s : str) : bool :=
  match s with
  | [] => true
  | c :: t =>
      if is_space c
      then N.eqb c SPACE && negb prev && single_spaced true t
      else single_spaced false t
  end.

(** The third step of [fix_newlines_and_formatting]. *)
Definition collapse (text : str) : str :=
  re_sub no_flags spaces_re (fun _ => [SPACE]) text.

(** The sequences that [fix_newlines_and_formatting] rewrites: the two
    characters backslash and n, the line break, and the three
    mis-encoded symbols. *)
Definition rewritten_sequences : list str :=
  [ [BACKSLASH; 110]; [NL]; [172; 169]; [172; 198]; [8218; 209; 162] ]%N.

(** The mis-encoded symbols of [fix_newlines_and_formatting] and the
    texts that stand for them. *)
Definition rewritten_symbols : list (str * str) :=
  [ ([172; 169]%N, u "(c)");
    ([172; 198]%N, u "(R)");
    ([8218; 209; 162]%N, u "(TM)") ].

(** *** The code of a tariff *)

(** ['T<digits>'] at the head of [s]: the digits and the text after
    the closing quote. *)
Definition tcode_at (s : str) : option (str * str) :=
  match s with
  | q :: l :: s1 =>
      if N.eqb q QUOTE && N.eqb l 84 then
        match take_by is_digit s1, lstrip_by is_digit s1 with
        | (_ :: _) as ds, y :: rest =>
            if N.eqb y QUOTE then Some (ds, rest) else None
        | _, _ => None
        end
      else None
  | _ => None
  end.

(** *** Columns that need no cleaning *)

(** A column name without comma and closing parenthesis, with no
    white space and no backtick at its ends. *)
Definition plain_column (c : str) : Prop :=
  mem_char c COMMA = false /\ mem_char c RPAREN = false /\
  strip c = c /\ strip_chars [BACKTICK] c = c.

(** ** [create_sample_files] and [main] *)

(** [int(s)] for a text [s], [None] standing for ValueError.  The
    white space that [int] passes over at both ends is the white space
    of C among the ASCII characters (the separators 28 to 31, which
    [str.strip] removes, are refused) and every white space beyond
    ASCII.  Then come one optional sign and decimal digits, with single
    underscores between digits; a decimal digit of any script counts
    with its value.  A text of more digits than [int_max_str_digits],
    leading zeros among them, is refused: 4300 is the limit of CPython
    when nothing sets another, and the program sets none. *)
Definition int_space (c : char) : bool :=
  in_range 9 13 c || N.eqb c 32 || (N.leb 128 c && is_space c).

(** The decimal digits of a script stand in order in runs of ten. *)
Definition digit_value (c : char) : N :=
  if in_range 48 57 c then (c - 48)%N
  else
    match find (fun r => in_range (fst r) (snd r) c) decimal_ranges with
    | Some r => ((c - fst r) mod 10)%N
    | None => 0%N
    end.

Fixpoint int_digits (acc : Z) (after_digit : bool) (s : str) : option Z :=
  match s with
  | [] => if after_digit then Some acc else None
  | c :: t =>
      if is_digit c then int_digits (acc * 10 + Z.of_N (digit_value c)) true t
      else if N.eqb c UNDERSCORE && after_digit then int_digits acc false t
      else None
  end.

Definition int_max_str_digits : nat := 4300.

Definition int_of_digits (s : str) : option Z :=
  if Nat.ltb int_max_str_digits (length (filter is_digit s)) then None
  else int_digits 0 false s.

Definition int_of_str (s : str) : option Z :=
  match strip_by int_space s with
  | [] => None
  | c :: t =>
      if N.eqb c 45 then option_map Z.opp (int_of_digits t)
      else if N.eqb c 43 then int_of_digits t
      else int_of_digits (c :: t)
  end.

(** [files[i]]: a negative index counts from the end of the list;
    [None] stands for IndexError. *)
Definition index (files : list str) (i : Z) : option str :=
  let n := Z.of_nat (length files) in
  if (0 <=? i)%Z && (i <? n)%Z then nth_error files (Z.to_nat i)
  else if (- n <=? i)%Z && (i <? 0)%Z then nth_error files (Z.to_nat (n + i))
  else None.

(** [s.rfind(c)] for one character; [None] stands for -1. *)
Fixpoint rfind (c : char) (s : str) : option nat :=
  match s with
  | [] => None
  | x :: t =>
      match rfind c t with
      | Some i => Some (S i)
      | None => if N.eqb x c then Some 0 else None
      end
  end.

(** [os.path.splitext(p)] of posixpath: the extension begins at the
    last dot of the last component of the path, unless nothing but dots
    stands before that dot in the component.  [filenameIndex <=? d] is
    the test [dotIndex > sepIndex]; the characters from [filenameIndex]
    up to the dot are those that the loop of [_splitext] looks at. *)
Definition splitext (p : str) : str * str :=
  let sepIndex := rfind 47 p in
  let dotIndex := rfind 46 p in
  match dotIndex with
  | None => (p, [])
  | Some d =>
      let filenameIndex :=
        match sepIndex with
        | Some i => S i
        | None => 0
        end in
      if (filenameIndex <=? d)
         && existsb (fun c => negb (N.eqb c 46))
              (firstn (d - filenameIndex) (skipn filenameIndex p))
      then (firstn d p, skipn d p)
      else (p, [])
  end.

(** What a run of [create_sample_files] or of [main] prints, the files
    it writes, in order, and the exception that ends it, if any. *)
Record session := {
  printed : list str;
  files_written : list (str * str);
  raised : option exc
}.

(** The sample rows of [create_sample_files]. *)
Definition addons_data : str :=
  u "(1, '67c7dc0a1f208d60dd031cc2-CCTV Video Analytics Add-On-4', 'Each analytic report add-on includes features like People Count, Heat Maps, and more.', 49, 'Per analytic report', 'No', 'Monthly', 'eand', 'Analytics add-on: Video Analytics, People Count, Heat Maps, Demographics', 'No', 'No', '2025-03-05 05:07:22', 'CCTV Video Analytics Add-On', 188, 'No', 'business', 'https://www.etisalat.ae/en/smb/products/digital-products/cctv/cctv-cloud-connectivity-4-cameras.html', 'True', 'False', 5, '5% VAT excluded', NULL, NULL, NULL, NULL, NULL, NULL, NULL, NULL, NULL, NULL, NULL),"
  ++ [10]%N
  ++ u "(6, '67c7d1f81f208d60dd022e8d-Takaful Personal Accident Cover - AED 100,000-2', 'To subscribe, text 'T100' to 1012.', 6, 'Monthly fee. VAT excluded.', 'No', 'Monthly', 'eand', 'Accidental life coverage at AED 5.5/month.', 'No', 'No', '2025-03-05 04:24:24', 'Takaful Personal Accident Cover - AED 100,000', 188, 'No', 'consumer', 'https://www.etisalat.ae/en/c/promotions/takaful-offer.html', 'True', 'False', 5, '5% VAT excluded.', '30 Days', 'AED 100,000', 'In the event of death by accident or Permanent Total Disablement (PTD) due to an accident.', 'The cover is valid for 30 days during the policy year for which contribution is paid.', NULL, NULL, NULL, NULL, NULL, NULL, NULL)".

Definition bio_data : str :=
  u "(1, '67c7c0d01f208d60dd0098b0', 'Through our B2B portal, you can choose to pay fully or partially one or more bills by cheque. You can view and download your bill, generate a B2B reference number, and use it when depositing your cheque at any Etisalat Smart Service Machine. Access the B2B portal for easy bill management and payment.', 'eand', '2025-03-05 03:11:12', 188, 'business', 'https://www.etisalat.ae/en/smb/billing-and-payment/quick-and-easy-cheque-payment.html'),"
  ++ [10]%N
  ++ u "(2, '67c7c0da1f208d60dd0099a3', 'Our mission at e& enterprise is to enable organizations to maximize their digital potential by being a partner in the digital shift through advanced technology and expert guidance. Our values focus on ambition, passion, people, and togetherness, driving us to exceed customer expectations and build collaborative ecosystems. Our strategy centers on digital transformation, with a focus on empowering businesses with cutting-edge technologies while prioritizing people. We aim to make a regional impact from Egypt to Oman in digital change. Our senior leadership guides us to success, spotting opportunities and keeping us on track. CEO Khalid Murshed emphasizes the extraordinary opportunities in the digital landscape driven by innovation. Our story began in 1976 as Etisalat, the UAE\'s first telephone company, growing into the largest telco in the region. Today, as e& enterprise, we blend the strength of a telco with the agility of a managed service provider, helping businesses build a better tomorrow. In 2022, Etisalat transformed into e&, merging various business models into a global technology and investment conglomerate, diversifying into segments such as Etisalat UAE, e& international, e& life, e& capital, and e& enterprise previously known as Etisalat Digital.', 'eand', '2025-03-05 03:11:22', 188, 'e&_enterprise', 'https://www.eandenterprise.com/en/about-us.html'),"
  ++ [10]%N
  ++ u "(3, '67c7c0dd1f208d60dd0099c0', 'Mobile & Roaming Services\nConnecting mobile customers around the world\nWith more than 780 mobile partners, our mobility services offer a multilateral roaming service and enable a one-stop shop to mobile customers around the world. Signalling services & VAS\nWe are a one-stop shop for mobile operators, enabling 2/3G roaming services with global reach for more than 700 mobile operators along with value-added services. Our SS7 Signalling service is essential for establishing highest quality international roaming and with ANSI signalling service we enable roaming of the GSM mobile operators in the North American region.\nRoaming Steering Tool\nA reliable steering tool, Proactively steering the roaming traffic to the preferred network, based on quality of service and commercial\nSignalling Analytics\nFull reporting and notification systems, Generating reports and alarms-notification to guarantee the QoS and identify the silent roamers in real-time base; presenting different KPIs\nSS7 Signalling Firewall\nA great support system, Recognised as one of the best telecom innovative solution\nOur Services\nAntispam Policy\nClick here to download the SMS service Antispam Policy\nDownload PDF\nContact Sales\nShare your details and our sales team will get back to you.\nRequest A Call Back\n"
  ++ [172; 169]%N
  ++ u " 2025 e&. All Rights Reserved.\nCareers Terms & Conditions Privacy Policy Code of Conduct', 'eand', '2025-03-05 03:11:25', 188, 'carrier_and_wholesale', 'https://www.eand.com/en/whoweare/carrier-and-wholesale/services/mobile-and-roaming.html')".
Definition create_sample_files (fs : filesystem) : session :=
  match fs_write fs (u "mysql_addons_data.txt") addons_data with
  | Some e => {| printed := []; files_written := []; raised := Some e |}
  | None =>
      match fs_write fs (u "mysql_bio_data.txt") bio_data with
      | Some e =>
          {| printed := [];
             files_written := [(u "mysql_addons_data.txt", addons_data)];
             raised := Some e |}
      | None =>
          {| printed :=
               [ check_mark ++ u " Sample input files created:";
                 u "   - mysql_addons_data.txt (for CombinedAddons)";
                 u "   - mysql_bio_data.txt (for CombinedBio)" ];
             files_written :=
               [ (u "mysql_addons_data.txt", addons_data);
                 (u "mysql_bio_data.txt", bio_data) ];
             raised := None |}
      end
  end.

(** [[f for f in os.listdir('.')
       if f.endswith('.txt') or f.endswith('.sql')]] *)
Definition input_files (listing : list str) : list str :=
  filter (fun f => suffixb (u ".txt") f || suffixb (u ".sql") f) listing.

(** The file [main] takes for the answer typed at its prompt, and
    whether the answer was refused: ValueError and IndexError both lead
    to the first file. *)
Definition chosen_file (files : list str) (first answer : str)
  : str * bool :=
  match int_of_str answer with
  | Some v =>
      let choice := (v - 1)%Z in
      match index files choice with
      | Some input_file => (input_file, false)
      | None => (first, true)
      end
  | None => (first, true)
  end.

Definition output_file_of (input_file : str) : str :=
  let base_name := fst (splitext input_file) in
  base_name ++ u "_cleaned_sqlserver.sql".

(** [main] for a directory of entries [listing] and a user who types
    [answer] at the one prompt of the run.  The prompts themselves are
    not kept among the lines printed. *)
Definition main (fs : filesystem) (listing : list str) (answer : str)
  : session :=
  let out :=
    [ [63743; 252; 238; 223]%N ++ u " MySQL to SQL Server Data Cleaner v2.0";
      u "Supports: CombinedAddons, CombinedBio, and other tables";
      concat (repeat (u "=") 60);
      [NL] ++ u "Available input files:" ] in
  let files := input_files listing in
  match files with
  | [] =>
      let out :=
        out ++ [ [8218; 246; 8224; 212; 8719; 232]%N
                   ++ u "  No input files found." ] in
      let create_sample := answer in
      if str_eqb (map to_lower create_sample) (u "y") then
        let s := create_sample_files fs in
        match raised s with
        | Some e =>
            {| printed := out ++ printed s;
               files_written := files_written s;
               raised := Some e |}
        | None =>
            {| printed :=
                 out ++ printed s
                 ++ [ [10; 63743; 252; 236; 249]%N
                        ++ u " Please add your MySQL INSERT data to the appropriate file and run this script again." ];
               files_written := files_written s;
               raised := None |}
        end
      else
        {| printed :=
             out ++ [ u "Please create a .txt file with your MySQL INSERT data." ];
           files_written := [];
           raised := None |}
  | first :: _ =>
      let out :=
        out ++ [ u "Found files:" ]
        ++ map (fun p => u "  " ++ decimal (fst p) ++ u ". " ++ snd p)
               (combine (seq 1 (length files)) files) in
      let '(input_file, refused) := chosen_file files first answer in
      let out :=
        if refused then out ++ [ u "Invalid choice. Using default..." ]
        else out in
      let output_file := output_file_of input_file in
      let r := clean_sql_data fs input_file output_file (u "CombinedAddons") in
      let out := out ++ console r in
      let saved :=
        match written r with
        | Some f => [f]
        | None => []
        end in
      match outcome_of r with
      | Raised e =>
          {| printed := out; files_written := saved; raised := Some e |}
      | Returned true =>
          {| printed :=
               out ++ [ [10; 63743; 252; 233; 226]%N
                          ++ u " Data cleaning completed successfully!";
                        [63743; 252; 236; 209]%N
                          ++ u " Cleaned SQL Server script saved as: "
                          ++ output_file;
                        [10; 63743; 252; 236; 227]%N ++ u " Next steps:";
                        u "1. Review the generated SQL file";
                        u "2. Run it in SQL Server Management Studio";
                        u "3. Check for any remaining syntax errors";
                        u "4. Verify data integrity after insertion" ];
             files_written := saved;
             raised := None |}
      | Returned false =>
          {| printed :=
               out ++ [ [10; 8218; 249; 229]%N
                          ++ u " Data cleaning failed. Please check the error messages above." ];
             files_written := saved;
             raised := None |}
      end
  end.

(** A file system in which every file reads as [content] and every
    write succeeds. *)
Definition plain_fs (content : str) : filesystem :=
  {| fs_read := fun _ => inr content;
     fs_write := fun _ _ => None |}.

(** * Properties *)

(** ** Prefixes, occurrences and [str.replace] *)

Lemma prefixb_app (p t : str) : prefixb p (p ++ t) = true.
Proof.
  induction p as [|x p IH]; simpl; [reflexivity|].
  now rewrite N.eqb_refl, IH.
Qed.

Lemma prefixb_spec (p s : str) :
  prefixb p s = true <-> exists t, s = p ++ t.
Proof.
  split.
  - revert s; induction p as [|x p IH]; intros s H.
    + now exists s.
    + destruct s as [|y s]; simpl in H; [discriminate|].
      apply andb_true_iff in H as [Hxy Hp].
      apply N.eqb_eq in Hxy; subst y.
      destruct (IH _ Hp) as [t ->].
      now exists t.
  - intros [t ->]; apply prefixb_app.
Qed.

Lemma contains_cons_false (p : str) (c : char) (s : str) :
  contains p (c :: s) = false ->
  prefixb p (c :: s) = false /\ contains p s = false.
Proof.
  simpl; intros H; apply orb_false_iff in H as [H1 H2].
  split; [exact H1|].
  destruct s; exact H2.
Qed.

Lemma contains_app_false_r (p a b : str) :
  contains p (a ++ b) = false -> contains p b = false.
Proof.
  induction a as [|x a IH]; simpl app; intros H; [exact H|].
  apply contains_cons_false in H as [_ H]; auto.
Qed.

Lemma replace_aux_skip (old new xs t : str) :
  replace_aux old new (length xs) (xs ++ t) = replace_aux old new 0 t.
Proof.
  induction xs as [|x xs IH]; simpl; [reflexivity | exact IH].
Qed.

(** A text without any occurrence of [old] is left as it is. *)
Lemma replace_absent (old new s : str) :
  contains old s = false -> replace old new s = s.
Proof.
  destruct old as [|o old]; [destruct s; discriminate|].
  unfold replace.
  induction s as [|c s IH]; intros H; [reflexivity|].
  apply contains_cons_false in H as [Hp Hc].
  cbn [replace_aux]; rewrite Hp, IH; auto.
Qed.

(** An occurrence at the head is replaced, and the scan goes on after it. *)
Lemma replace_aux_head (old new t : str) :
  old <> [] ->
  replace_aux old new 0 (old ++ t) = new ++ replace_aux old new 0 t.
Proof.
  intros Hne; destruct old as [|o old]; [congruence|].
  change ((o :: old) ++ t) with (o :: (old ++ t)).
  cbn [replace_aux].
  change (o :: old ++ t) with ((o :: old) ++ t).
  rewrite prefixb_app.
  replace (length (o :: old) - 1) with (length old) by (simpl; lia).
  now rewrite replace_aux_skip.
Qed.

Lemma replace_aux_step (old new : str) (c : char) (t : str) :
  prefixb old (c :: t) = false ->
  replace_aux old new 0 (c :: t) = c :: replace_aux old new 0 t.
Proof. intros H; cbn [replace_aux]; now rewrite H. Qed.

(** ** The scenario of the cleaning chain *)

(** C3, as stated, fails: the text [T100] of the scenario stands between
    two spaces, not between quotes, so the business-term pass finds no
    ['T<digits>'] and the result holds no [''T100'']. *)
Lemma scenario_has_no_doubled_T100 :
  contains (u "''T100''") (clean_values scenario_input) = false /\
  clean_values scenario_input <> u "(1, 'it''s ''T100'' test line2')".
Proof. split; [vm_compute; reflexivity | vm_compute; discriminate]. Qed.

(** C3, amended: the normalizer turns the backslash-n of the scenario
    into one space, the later passes change nothing, and the result is
    one flat literal with its inner quote doubled; the business-term
    pass doubles the quotes of a [T100] that stands between quotes. *)
Theorem scenario_clean_values :
  fix_newlines_and_formatting scenario_input
    = u "(1, 'it''s T100 test line2')" /\
  clean_values scenario_input = u "(1, 'it''s T100 test line2')" /\
  fix_business_terms (u "text 'T100' to 1012") = u "text ''T100'' to 1012".
Proof. repeat split; vm_compute; reflexivity. Qed.

(** ** Errors of reading and writing *)

(** C8: when every failure of reading or writing is an [Exception], as
    a missing file and an I/O error are, [clean_sql_data] returns; after
    a failure it returns [False] and the last line printed reports the
    error. *)
Theorem clean_sql_data_catches_io_errors
    (fs : filesystem) (input_file output_file table_name : str)
    (Hread : forall e, fs_read fs input_file = inl e -> is_Exception e = true)
    (Hwrite : forall text e,
        fs_write fs output_file text = Some e -> is_Exception e = true) :
  let r := clean_sql_data fs input_file output_file table_name in
  (exists b, outcome_of r = Returned b) /\
  (forall e, fs_read fs input_file = inl e ->
     outcome_of r = Returned false /\
     written r = None /\
     last (console r) [] =
       if is_FileNotFoundError e
       then u "Error: File '" ++ input_file ++ u "' not found!"
       else u "Error reading file: " ++ exc_str e) /\
  (forall content e,
     fs_read fs input_file = inr content ->
     fs_write fs output_file (output_script table_name content) = Some e ->
     outcome_of r = Returned false /\
     written r = None /\
     last (console r) [] = u "Error writing file: " ++ exc_str e).
Proof.
  intros r; subst r; unfold clean_sql_data, output_script.
  destruct (fs_read fs input_file) as [e|content] eqn:Hr.
  - specialize (Hread e eq_refl).
    destruct (is_FileNotFoundError e) eqn:Hnf.
    + split; [now exists false|]; split.
      * intros e' [= <-]; rewrite Hnf; repeat split; reflexivity.
      * intros ? ? [=].
    + rewrite Hread.
      split; [now exists false|]; split.
      * intros e' [= <-]; rewrite Hnf; repeat split; reflexivity.
      * intros ? ? [=].
  - destruct (detect_table_and_columns table_name content)
      as [tb cols] eqn:Hd.
    match goal with
    | |- context [fs_write fs output_file ?t] =>
        destruct (fs_write fs output_file t) as [e|] eqn:Hw
    end.
    + rewrite (Hwrite _ _ Hw).
      split; [now exists false|]; split; [intros ? [=]|].
      intros content' e' Heq Hw'; injection Heq as <-.
      rewrite Hd, Hw in Hw'; injection Hw' as <-.
      repeat split; reflexivity.
    + split; [now exists true|]; split; [intros ? [=]|].
      intros content' e' Heq Hw'; injection Heq as <-.
      rewrite Hd, Hw in Hw'; discriminate.
Qed.

Lemma clean_sql_data_catches_io_errors_witness :
  outcome_of (clean_sql_data missing_fs (u "in.txt") (u "out.sql")
                (u "CombinedAddons")) = Returned false /\
  outcome_of (clean_sql_data (full_disk_fs (u "(1, 'a')")) (u "in.txt")
                (u "out.sql") (u "CombinedAddons")) = Returned false.
Proof.
  split.
  - refine (proj1 (proj1 (proj2
      (clean_sql_data_catches_io_errors missing_fs (u "in.txt") (u "out.sql")
         (u "CombinedAddons") _ _))
      {| exc_kind := FileNotFoundError; exc_str := u "in.txt" |} eq_refl)).
    + intros e [= <-]; reflexivity.
    + intros text e [= <-]; reflexivity.
  - refine (proj1 (proj2 (proj2
      (clean_sql_data_catches_io_errors (full_disk_fs (u "(1, 'a')"))
         (u "in.txt") (u "out.sql") (u "CombinedAddons") _ _))
      (u "(1, 'a')") _ eq_refl eq_refl)).
    + intros e [=].
    + intros text e [= <-]; reflexivity.
Defined.

(** ** The matcher, construct by construct *)

Lemma or_else_none_r (a : outcome) : or_else a None = a.
Proof. now destruct a. Qed.

Lemma rmatch_seq fl r1 r2 k c s :
  rmatch fl (Seq r1 r2) k c s = rmatch fl r1 (rmatch fl r2 k) c s.
Proof. reflexivity. Qed.

Lemma rmatch_alt fl r1 r2 k c s :
  rmatch fl (Alt r1 r2) k c s
  = or_else (rmatch fl r1 k c s) (rmatch fl r2 k c s).
Proof. reflexivity. Qed.

Lemma rmatch_opt fl r k c s :
  rmatch fl (Opt r) k c s = or_else (rmatch fl r k c s) (k c s).
Proof. reflexivity. Qed.

Lemma rmatch_lit fl a k c s :
  rmatch fl (Lit a) k c s
  = match s with
    | x :: t => if lit_eq fl a x then k c t else None
    | [] => None
    end.
Proof. reflexivity. Qed.

Lemma rmatch_cls fl p k c s :
  rmatch fl (Cls p) k c s
  = match s with
    | x :: t => if p x then k c t else None
    | [] => None
    end.
Proof. reflexivity. Qed.

Lemma rmatch_any fl k c s :
  rmatch fl Any k c s
  = match s with
    | x :: t => if any_char fl x then k c t else None
    | [] => None
    end.
Proof. reflexivity. Qed.

Lemma rmatch_star fl g r k c s :
  rmatch fl (Star g r) k c s = star_loop (rmatch fl r) g k (length s) c s.
Proof. reflexivity. Qed.

Lemma rmatch_grp fl n r k c s :
  rmatch fl (Grp n r) k c s
  = rmatch fl r
      (fun c' s' => k ((n, firstn (length s - length s') s) :: c') s') c s.
Proof. reflexivity. Qed.

Lemma rmatch_lits fl w k c s :
  rmatch fl (Lits w) k c s
  = match lit_prefix fl w s with
    | Some t => k c t
    | None => None
    end.
Proof.
  revert s; induction w as [|a w IH]; intros s; [reflexivity|].
  destruct w as [|b w'].
  - cbn [Lits lit_prefix]. rewrite rmatch_lit.
    destruct s as [|x t]; [reflexivity|]. now destruct (lit_eq fl a x).
  - change (Lits (a :: b :: w')) with (Seq (Lit a) (Lits (b :: w'))).
    rewrite rmatch_seq, rmatch_lit.
    cbn [lit_prefix]; fold (lit_prefix fl (b :: w')).
    destruct s as [|x t]; [reflexivity|].
    destruct (lit_eq fl a x); [apply IH | reflexivity].
Qed.

(** Loops over one character at a time. *)
Section CharLoop.
Variable body : cont -> cont.
Variable p : char -> bool.
Hypothesis body_eq : forall k c s,
  body k c s = match s with
               | x :: t => if p x then k c t else None
               | [] => None
               end.

Lemma star_greedy_char k n : forall c s,
  length s <= n -> star_loop body true k n c s = greedy_run p k c s.
Proof.
  induction n as [|n IH]; intros c s Hn.
  - destruct s; [reflexivity | simpl in Hn; lia].
  - cbn [star_loop]. rewrite body_eq.
    destruct s as [|x t]; [reflexivity|].
    cbn [greedy_run]. destruct (p x); [|reflexivity].
    assert (Hlt : (length t <? length (x :: t)) = true)
      by (apply Nat.ltb_lt; simpl; lia).
    rewrite Hlt, IH by (simpl in Hn; lia). reflexivity.
Qed.

Lemma star_lazy_char k n : forall c s,
  length s <= n -> star_loop body false k n c s = lazy_run p k c s.
Proof.
  induction n as [|n IH]; intros c s Hn.
  - destruct s; [|simpl in Hn; lia].
    cbn [star_loop lazy_run]. now rewrite or_else_none_r.
  - cbn [star_loop]. rewrite body_eq.
    destruct s as [|x t]; [reflexivity|].
    cbn [lazy_run]. destruct (p x); [|reflexivity].
    assert (Hlt : (length t <? length (x :: t)) = true)
      by (apply Nat.ltb_lt; simpl; lia).
    rewrite Hlt, IH by (simpl in Hn; lia). reflexivity.
Qed.
End CharLoop.

Lemma rmatch_star_cls fl p k c s :
  rmatch fl (Star true (Cls p)) k c s = greedy_run p k c s.
Proof.
  rewrite rmatch_star.
  apply star_greedy_char; [intros; apply rmatch_cls | lia].
Qed.

Lemma rmatch_plus_cls fl p k c s :
  rmatch fl (Plus true (Cls p)) k c s
  = match s with
    | x :: t => if p x then greedy_run p k c t else None
    | [] => None
    end.
Proof.
  unfold Plus. rewrite rmatch_seq, rmatch_cls.
  destruct s as [|x t]; [reflexivity|].
  destruct (p x); [apply rmatch_star_cls | reflexivity].
Qed.

Lemma rmatch_lazy_any fl k c s :
  rmatch fl (Star false Any) k c s = lazy_run (any_char fl) k c s.
Proof.
  rewrite rmatch_star.
  apply star_lazy_char; [intros; apply rmatch_any | lia].
Qed.

(** When [k] fails on every text that begins with a character of the
    class, the greedy loop ends after the longest run. *)
Lemma greedy_run_longest p (k : cont) :
  (forall c x t, p x = true -> k c (x :: t) = None) ->
  forall c s, greedy_run p k c s = k c (lstrip_by p s).
Proof.
  intros Hk c s; induction s as [|x t IH]; [reflexivity|].
  cbn [greedy_run lstrip_by]. destruct (p x) eqn:Hp; [|reflexivity].
  rewrite IH, (Hk c x t Hp). apply or_else_none_r.
Qed.

(** ** What [literal_re] matches *)

Lemma literal_body_eq k c s :
  rmatch no_flags literal_body k c s
  = match s with
    | [] => None
    | y :: r =>
        if N.eqb y QUOTE then
          match r with
          | z :: r' => if N.eqb z QUOTE then k c r' else None
          | [] => None
          end
        else if N.eqb y BACKSLASH then
          match r with
          | z :: r' => if N.eqb z NL then None else k c r'
          | [] => None
          end
        else k c r
    end.
Proof.
  unfold literal_body.
  rewrite !rmatch_alt, !rmatch_seq, rmatch_cls, !rmatch_lit.
  destruct s as [|y r]; [reflexivity|].
  unfold not_quote_backslash, lit_eq, QUOTE, BACKSLASH; cbn [no_flags ignorecase].
  rewrite (N.eqb_sym 39 y), (N.eqb_sym 92 y).
  destruct (N.eqb_spec y 39) as [->|Hq]; cbn [negb andb or_else].
  - rewrite rmatch_lit. destruct r as [|z r']; [reflexivity|].
    unfold lit_eq; cbn [no_flags ignorecase]. now rewrite (N.eqb_sym 39 z).
  - destruct (N.eqb_spec y 92) as [->|Hb]; cbn [negb or_else].
    + rewrite rmatch_any. destruct r as [|z r']; [reflexivity|].
      unfold any_char, NL; cbn [no_flags dotall orb].
      destruct (N.eqb z 10); cbn [negb]; [reflexivity|apply or_else_none_r].
    + apply or_else_none_r.
Qed.

Lemma firstn_app_exact (pre s : str) :
  firstn (length (pre ++ s) - length s) (pre ++ s) = pre.
Proof.
  rewrite length_app, Nat.add_sub.
  rewrite firstn_app, Nat.sub_diag, firstn_all. simpl. apply app_nil_r.
Qed.

Lemma literal_loop (t : str) (n : nat) :
  forall pre s, t = pre ++ s -> length s <= n ->
  star_loop (rmatch no_flags literal_body) false (close_literal t) n [] s
  = match scan_literal s with
    | Some (body, rest) => Some ([(1, pre ++ body)], rest)
    | None => None
    end.
Proof.
  induction n as [|n IH]; intros pre s Ht Hn.
  - destruct s; [|simpl in Hn; lia]. reflexivity.
  - cbn [star_loop]. rewrite literal_body_eq.
    destruct s as [|y r]; [reflexivity|].
    cbn [scan_literal].
    unfold close_literal at 1. rewrite rmatch_lit.
    unfold lit_eq, QUOTE, BACKSLASH, NL; cbn [no_flags ignorecase].
    rewrite (N.eqb_sym 39 y).
    destruct (N.eqb_spec y 39) as [->|Hq].
    + cbn [or_else accept]. rewrite Ht, firstn_app_exact, app_nil_r. reflexivity.
    + cbn [or_else]. destruct (N.eqb y 92).
      * destruct r as [|z r']; [reflexivity|].
        destruct (N.eqb z 10); [reflexivity|].
        assert (Hlt : (length r' <? length (y :: z :: r')) = true)
          by (apply Nat.ltb_lt; simpl; lia).
        rewrite Hlt, (IH (pre ++ [y; z])).
        -- destruct (scan_literal r') as [[body rest]|]; [|reflexivity].
           now rewrite <- app_assoc.
        -- rewrite Ht, <- app_assoc. reflexivity.
        -- simpl in Hn; lia.
      * assert (Hlt : (length r <? length (y :: r)) = true)
          by (apply Nat.ltb_lt; simpl; lia).
        rewrite Hlt, (IH (pre ++ [y])).
        -- destruct (scan_literal r) as [[body rest]|]; [|reflexivity].
           now rewrite <- app_assoc.
        -- rewrite Ht, <- app_assoc. reflexivity.
        -- simpl in Hn; lia.
Qed.

Lemma match_here_literal (s : str) :
  match_here no_flags literal_re s
  = match s with
    | [] => None
    | x :: t =>
        if N.eqb x QUOTE then
          match scan_literal t with
          | Some (body, rest) => Some ([(1, body)], rest)
          | None => None
          end
        else None
    end.
Proof.
  unfold match_here, literal_re. cbn [seqs].
  rewrite rmatch_seq, rmatch_lit.
  destruct s as [|x t]; [reflexivity|].
  unfold lit_eq; cbn [no_flags ignorecase]. rewrite (N.eqb_sym QUOTE x).
  destruct (N.eqb x QUOTE); [|reflexivity].
  rewrite rmatch_seq, rmatch_grp, rmatch_star.
  apply (literal_loop (n := length t) (t := t) [] t); [reflexivity|lia].
Qed.
Lemma sub_aux_skip fl r repl (xs t : str) :
  sub_aux fl r repl (length xs) (xs ++ t) = sub_aux fl r repl 0 t.
Proof.
  induction xs as [|x xs IH]; simpl; [reflexivity | exact IH].
Qed.

Lemma scan_literal_split (n : nat) : forall t body rest,
  length t <= n ->
  scan_literal t = Some (body, rest) -> t = body ++ QUOTE :: rest.
Proof.
  induction n as [|n IH]; intros t body rest Hn H.
  - destruct t; [discriminate | simpl in Hn; lia].
  - destruct t as [|y r]; [discriminate|].
    cbn [scan_literal] in H.
    destruct (N.eqb_spec y QUOTE) as [->|Hq].
    + injection H as <- <-. reflexivity.
    + destruct (N.eqb y BACKSLASH).
      * destruct r as [|z r']; [discriminate|].
        destruct (N.eqb z NL); [discriminate|].
        destruct (scan_literal r') as [[b' rest']|] eqn:Hs; [|discriminate].
        injection H as <- <-.
        rewrite (IH r' b' rest'); [reflexivity | simpl in Hn; lia | exact Hs].
      * destruct (scan_literal r) as [[b' rest']|] eqn:Hs; [|discriminate].
        injection H as <- <-.
        rewrite (IH r b' rest'); [reflexivity | simpl in Hn; lia | exact Hs].
Qed.

(** Without a backslash before a quote in the text, the body of a
    literal holds no quote. *)
Lemma scan_literal_no_quote (n : nat) : forall t body rest,
  length t <= n ->
  contains [BACKSLASH; QUOTE] t = false ->
  scan_literal t = Some (body, rest) -> contains [QUOTE] body = false.
Proof.
  induction n as [|n IH]; intros t body rest Hn Hc H.
  - destruct t; [discriminate | simpl in Hn; lia].
  - destruct t as [|y r]; [discriminate|].
    cbn [scan_literal] in H.
    apply contains_cons_false in Hc as [Hp Hc].
    destruct (N.eqb_spec y QUOTE) as [->|Hq].
    + injection H as <- <-. reflexivity.
    + destruct (N.eqb_spec y BACKSLASH) as [->|Hb].
      * destruct r as [|z r']; [discriminate|].
        destruct (N.eqb z NL); [discriminate|].
        destruct (scan_literal r') as [[b' rest']|] eqn:Hs; [|discriminate].
        injection H as <- <-.
        apply contains_cons_false in Hc as [_ Hc].
        assert (Hz : N.eqb z QUOTE = false).
        { cbn [prefixb] in Hp. rewrite N.eqb_refl in Hp.
          cbn [andb] in Hp. rewrite andb_true_r in Hp.
          now rewrite N.eqb_sym. }
        cbn [contains prefixb]. cbn [andb orb].
        rewrite (N.eqb_sym QUOTE z), Hz. cbn [andb orb].
        pose proof (IH r' b' rest' ltac:(simpl in Hn; lia) Hc Hs) as Hb'.
        destruct b'; exact Hb'.
      * destruct (scan_literal r) as [[b' rest']|] eqn:Hs; [|discriminate].
        injection H as <- <-.
        cbn [contains prefixb]. rewrite (N.eqb_sym QUOTE y).
        apply N.eqb_neq in Hq; rewrite Hq. cbn [andb orb].
        pose proof (IH r b' rest' ltac:(simpl in Hn; lia) Hc Hs) as Hb'.
        destruct b'; exact Hb'.
Qed.

Lemma fix_quotes_unchanged (n : nat) : forall s,
  length s <= n ->
  contains [BACKSLASH; QUOTE] s = false ->
  sub_aux no_flags literal_re replace_quotes_in_string 0 s = s.
Proof.
  induction n as [|n IH]; intros s Hn Hc.
  - destruct s; [reflexivity | simpl in Hn; lia].
  - destruct s as [|x t]; [reflexivity|].
    cbn [sub_aux]. rewrite match_here_literal.
    pose proof (contains_cons_false _ _ _ Hc) as [_ Hct].
    assert (Ht : sub_aux no_flags literal_re replace_quotes_in_string 0 t = t)
      by (apply IH; [simpl in Hn; lia | exact Hct]).
    destruct (N.eqb_spec x QUOTE) as [->|Hq]; [|now rewrite Ht].
    destruct (scan_literal t) as [[body rest]|] eqn:Hs; [|now rewrite Ht].
    pose proof (scan_literal_split (n := length t) t (le_n _) Hs) as Hsplit.
    pose proof (scan_literal_no_quote (n := length t) t (le_n _) Hct Hs) as Hnq.
    subst t.
    replace (length (QUOTE :: body ++ QUOTE :: rest) - length rest)
      with (S (length (body ++ [QUOTE])))
      by (cbn [length]; rewrite !length_app; cbn [length]; lia).
    replace (body ++ QUOTE :: rest) with ((body ++ [QUOTE]) ++ rest)
      by (now rewrite <- app_assoc).
    rewrite sub_aux_skip.
    rewrite IH.
    + unfold replace_quotes_in_string. cbn [group Nat.eqb].
      rewrite replace_absent by exact Hnq.
      simpl. now rewrite <- !app_assoc.
    + simpl in Hn. rewrite !length_app in Hn. simpl in Hn. lia.
    + apply contains_app_false_r in Hct.
      apply contains_cons_false in Hct as [_ Hct]. exact Hct.
Qed.

(** ** The generic quote fixer *)

(** C1 fails on the code: the quote inside the literal ['Bob's car']
    comes out single, after the whole chain as after the last pass
    alone, and the result is not correctly escaped. *)
Lemma inner_quote_left_single :
  clean_values (u "(1, 'Bob's car')") = u "(1, 'Bob's car')" /\
  fix_quotes_and_special_chars (u "'Bob's car'") = u "'Bob's car'" /\
  fix_quotes_and_special_chars (u "'Bob's car'") <> u "'Bob''s car'" /\
  correctly_escaped (fix_quotes_and_special_chars (u "'Bob's car'")) = false.
Proof.
  split; [vm_compute; reflexivity|].
  split; [vm_compute; reflexivity|].
  split; [vm_compute; discriminate | vm_compute; reflexivity].
Qed.

(** C2, as stated, fails: in [('C:\', 'x')] no literal holds a quote,
    the text is correctly escaped, and the fixer adds a quote to it. *)
Lemma backslash_before_quote_changed :
  correctly_escaped (u "('C:\', 'x')") = true /\
  fix_quotes_and_special_chars (u "('C:\', 'x')") = u "('C:\'', 'x')" /\
  fix_quotes_and_special_chars (u "('C:\', 'x')") <> u "('C:\', 'x')" /\
  count_char QUOTE (u "('C:\', 'x')")
    < count_char QUOTE (fix_quotes_and_special_chars (u "('C:\', 'x')")).
Proof.
  split; [vm_compute; reflexivity|].
  split; [vm_compute; reflexivity|].
  split; [vm_compute; discriminate | vm_compute; lia].
Qed.

(** C2, amended: a text in which no quote stands right after a
    backslash is returned as it is. *)
Theorem fix_quotes_without_backslash_quote (s : str) :
  contains [BACKSLASH; QUOTE] s = false ->
  fix_quotes_and_special_chars s = s.
Proof. intros H; apply (fix_quotes_unchanged (n := length s)); auto. Qed.

Lemma fix_quotes_without_backslash_quote_witness :
  fix_quotes_and_special_chars (u "(1, 'it''s', 'a\\b')")
  = u "(1, 'it''s', 'a\\b')".
Proof.
  apply (fix_quotes_without_backslash_quote (u "(1, 'it''s', 'a\\b')")).
  vm_compute; reflexivity.
Defined.

(** ** What [values_re] matches *)

Lemma sre_fold_cases (x : char) :
  (is_upper x = true /\ sre_fold x = (x + 32)%N) \/
  (is_upper x = false /\
   ((x = 304%N /\ sre_fold x = 105%N) \/ (x = 305%N /\ sre_fold x = 105%N) \/
    (x = 383%N /\ sre_fold x = 115%N) \/ (x = 8490%N /\ sre_fold x = 107%N) \/
    (x <> 304%N /\ x <> 305%N /\ x <> 383%N /\ x <> 8490%N /\
     sre_fold x = x))).
Proof.
  unfold sre_fold. destruct (is_upper x); [left; split; reflexivity|].
  right. split; [reflexivity|].
  destruct (N.eqb_spec x 304); [tauto|].
  destruct (N.eqb_spec x 305); [tauto|].
  destruct (N.eqb_spec x 383); [tauto|].
  destruct (N.eqb_spec x 8490); tauto.
Qed.

(** A literal that is no letter matches itself only. *)
Lemma lit_eq_caseless fl (a x : char) :
  is_upper a = false -> is_lower a = false -> N.ltb a 128 = true ->
  lit_eq fl a x = N.eqb a x.
Proof.
  unfold lit_eq. intros Hu Hl Ha. destruct (ignorecase fl); [|reflexivity].
  apply N.ltb_lt in Ha.
  assert (Fa : sre_fold a = a).
  { destruct (sre_fold_cases a) as [[H _]|[_ H]]; [congruence|].
    destruct H as [[H _]|[[H _]|[[H _]|[[H _]|[_ [_ [_ [_ H]]]]]]]];
      try (subst a; lia). exact H. }
  rewrite Fa. unfold is_upper, is_lower, in_range in Hu, Hl.
  apply andb_false_iff in Hu, Hl. rewrite !N.leb_gt in Hu, Hl.
  destruct (N.eqb_spec a x) as [<-|Hn]; [rewrite Fa; apply N.eqb_refl|].
  apply N.eqb_neq.
  destruct (sre_fold_cases x) as [[H E]|[_ H]].
  - rewrite E. unfold is_upper, in_range in H.
    apply andb_true_iff in H. rewrite !N.leb_le in H. lia.
  - destruct H as [[H E]|[[H E]|[[H E]|[[H E]|[_ [_ [_ [_ E]]]]]]]];
      rewrite E; lia.
Qed.

Lemma lit_prefix_caseless fl (w s : str) :
  forallb (fun a => negb (is_upper a) && negb (is_lower a) && N.ltb a 128) w
    = true ->
  lit_prefix fl w s = if prefixb w s then Some (skipn (length w) s) else None.
Proof.
  revert s; induction w as [|a w IH]; intros s H; [reflexivity|].
  cbn [forallb] in H. apply andb_true_iff in H as [Ha Hw].
  apply andb_true_iff in Ha as [Ha H128].
  apply andb_true_iff in Ha as [Hu Hl].
  apply negb_true_iff in Hu, Hl.
  destruct s as [|x t]; [reflexivity|].
  cbn [lit_prefix prefixb length skipn].
  rewrite lit_eq_caseless by assumption.
  destruct (N.eqb a x); [apply IH; exact Hw | reflexivity].
Qed.

Lemma values_term_eq c s :
  rmatch values_flags values_term accept c s
  = match after_end s with
    | Some r => Some (c, r)
    | None => None
    end.
Proof.
  unfold values_term. cbn [seqs].
  rewrite !rmatch_alt, !rmatch_seq, !rmatch_lit.
  destruct s as [|x t]; [reflexivity|].
  rewrite !lit_eq_caseless by reflexivity.
  unfold after_end. rewrite (N.eqb_sym SEMI x), (N.eqb_sym NL x).
  destruct (N.eqb_spec x SEMI) as [->|Hs]; [reflexivity|].
  change (rmatch values_flags EndZ accept c (x :: t)) with (@None (caps * str)).
  cbn [or_else]. rewrite or_else_none_r.
  destruct (N.eqb_spec x NL) as [->|Hn]; [|reflexivity].
  rewrite rmatch_seq, rmatch_star_cls, greedy_run_longest.
  - rewrite rmatch_lits, lit_prefix_caseless by reflexivity.
    now destruct (prefixb (u "--") (lstrip_by is_space t)).
  - intros c0 y t0 Hy. rewrite rmatch_lits.
    change (u "--") with [45; 45]%N. cbn [lit_prefix].
    rewrite lit_eq_caseless by reflexivity.
    destruct (N.eqb_spec 45 y) as [<-|]; [discriminate | reflexivity].
Qed.

Lemma values_end_after_end s :
  values_end s = match after_end s with Some _ => true | None => false end.
Proof.
  destruct s as [|x t]; [reflexivity|].
  unfold values_end, after_end.
  destruct (N.eqb x SEMI); [reflexivity|].
  destruct (N.eqb x NL); [|reflexivity].
  now destruct (prefixb (u "--") (lstrip_by is_space t)).
Qed.

Lemma values_lazy (t : str) (c : caps) : forall s' pre,
  t = pre ++ s' ->
  lazy_run (any_char values_flags) (close_values t) c s'
  = Some ((1, pre ++ values_span s') :: c, values_rest s').
Proof.
  induction s' as [|x r IH]; intros pre Ht.
  - cbn [lazy_run]. unfold close_values. rewrite values_term_eq.
    cbn [after_end or_else length values_span values_rest].
    rewrite Nat.sub_0_r, firstn_all, Ht. reflexivity.
  - cbn [lazy_run]. unfold close_values at 1. rewrite values_term_eq.
    cbn [values_span values_rest]. rewrite values_end_after_end.
    destruct (after_end (x :: r)) as [rest|] eqn:Ha.
    + cbn [or_else]. rewrite Ht, firstn_app_exact, app_nil_r. reflexivity.
    + cbn [or_else]. cbn [any_char values_flags dotall orb].
      rewrite (IH (pre ++ [x])) by (rewrite Ht, <- app_assoc; reflexivity).
      now rewrite <- app_assoc.
Qed.

Lemma greedy_run_total p (k : cont) :
  (forall c s, k c s <> None) ->
  forall c s, greedy_run p k c s = k c (lstrip_by p s).
Proof.
  intros Hk c s; induction s as [|x t IH]; [reflexivity|].
  cbn [greedy_run lstrip_by]. destruct (p x); [|reflexivity].
  rewrite IH. destruct (k c (lstrip_by p t)) eqn:E; [reflexivity|].
  now apply Hk in E.
Qed.

Lemma match_here_values (s : str) :
  match_here values_flags values_re s
  = match after_values_keyword s with
    | Some s1 => Some ([(1, values_span s1)], values_rest s1)
    | None => None
    end.
Proof.
  unfold match_here, values_re, after_values_keyword. cbn [seqs].
  rewrite rmatch_seq, rmatch_lits.
  destruct (lit_prefix values_flags (u "VALUES") s) as [[|x t]|];
    try reflexivity.
  rewrite rmatch_seq, rmatch_plus_cls.
  destruct (is_space x); [|reflexivity].
  rewrite greedy_run_total.
  - rewrite rmatch_seq, rmatch_grp, rmatch_lazy_any.
      apply (values_lazy (t := lstrip_by is_space t) [] (lstrip_by is_space t) []).
      reflexivity.
  - intros c s0. rewrite rmatch_seq, rmatch_grp, rmatch_lazy_any.
      change (fun (c' : caps) (s' : str) =>
                rmatch values_flags values_term accept
                  ((1, firstn (length s0 - length s') s0) :: c') s')
        with (close_values s0).
      now rewrite (values_lazy (t := s0) c s0 [] eq_refl).
Qed.
(** ** Stripping *)

Lemma lstrip_by_split p (x : str) :
  exists pre, x = pre ++ lstrip_by p x /\ forallb p pre = true.
Proof.
  induction x as [|h x [pre [IH1 IH2]]]; [now exists []|].
  cbn [lstrip_by]. destruct (p h) eqn:Hp.
  - exists (h :: pre); split; [simpl; now f_equal | simpl; now rewrite Hp].
  - now exists [].
Qed.

Lemma lstrip_by_head p (x : str) : head_not p (lstrip_by p x) = true.
Proof.
  induction x as [|h x IH]; [reflexivity|].
  cbn [lstrip_by]. destruct (p h) eqn:Hp; [exact IH|].
  simpl; now rewrite Hp.
Qed.

Lemma lstrip_by_fixed p (x : str) : head_not p x = true -> lstrip_by p x = x.
Proof.
  destruct x as [|h x]; [reflexivity|]. simpl.
  now destruct (p h).
Qed.

Lemma lstrip_by_Forall (P : char -> Prop) p (x : str) :
  Forall P x -> Forall P (lstrip_by p x).
Proof.
  induction 1 as [|h x Hh Hx IH]; [constructor|].
  cbn [lstrip_by]. destruct (p h); [exact IH | now constructor].
Qed.

Lemma rstrip_by_Forall (P : char -> Prop) p (x : str) :
  Forall P x -> Forall P (rstrip_by p x).
Proof.
  intros H. unfold rstrip_by.
  apply Forall_rev, lstrip_by_Forall, Forall_rev, H.
Qed.

Lemma rstrip_by_split p (x : str) :
  exists suf, x = rstrip_by p x ++ suf /\ forallb p suf = true.
Proof.
  unfold rstrip_by.
  destruct (lstrip_by_split p (rev x)) as [pre [H1 H2]].
  exists (rev pre); split.
  - rewrite <- rev_app_distr, <- H1. symmetry; apply rev_involutive.
  - rewrite forallb_forall in *. intros c Hc. apply H2. now apply in_rev.
Qed.

Lemma rstrip_by_none p (x : str) :
  Forall (fun c => p c = false) x -> rstrip_by p x = x.
Proof.
  intros H. unfold rstrip_by.
  rewrite lstrip_by_fixed; [apply rev_involutive|].
  apply Forall_rev in H. destruct (rev x) as [|h y]; [reflexivity|].
  simpl. inversion H; subst. now rewrite H2.
Qed.

Lemma rstrip_by_idem p (x : str) :
  rstrip_by p (rstrip_by p x) = rstrip_by p x.
Proof.
  unfold rstrip_by. rewrite rev_involutive.
  rewrite (lstrip_by_fixed p (lstrip_by p (rev x))); [reflexivity|].
  apply lstrip_by_head.
Qed.

Lemma rstrip_by_keeps_head p (x : str) :
  head_not p x = true -> head_not p (rstrip_by p x) = true.
Proof.
  intros H. destruct (rstrip_by_split p x) as [suf [Hx _]].
  destruct (rstrip_by p x) as [|h y]; [reflexivity|].
  rewrite Hx in H. exact H.
Qed.

Lemma strip_by_idem p (x : str) : strip_by p (strip_by p x) = strip_by p x.
Proof.
  unfold strip_by.
  rewrite (lstrip_by_fixed p (rstrip_by p (lstrip_by p x))).
  - apply rstrip_by_idem.
  - apply rstrip_by_keeps_head, lstrip_by_head.
Qed.

Lemma strip_by_Forall (P : char -> Prop) p (x : str) :
  Forall P x -> Forall P (strip_by p x).
Proof. intros H; apply rstrip_by_Forall, lstrip_by_Forall, H. Qed.

(** ** The values extractor *)

Lemma values_span_no_semicolon (s : str) :
  Forall (fun c => mem_char [SEMI] c = false) (values_span s).
Proof.
  induction s as [|x t IH]; [constructor|].
  cbn [values_span]. destruct (values_end (x :: t)) eqn:He; [constructor|].
  constructor; [|exact IH].
  unfold values_end in He. apply orb_false_iff in He as [He _].
  unfold mem_char; simpl. now rewrite He.
Qed.

Lemma search_values (s : str) : forall pos,
  match search_from values_flags values_re pos s with
  | Some (_, g, _) => Some (group 1 g)
  | None => None
  end
  = match find_values s with
    | Some s1 => Some (values_span s1)
    | None => None
    end.
Proof.
  induction s as [|x t IH]; intros pos.
  - cbn [search_from find_values]. rewrite match_here_values.
    now destruct (after_values_keyword []).
  - cbn [search_from find_values]. rewrite match_here_values.
    destruct (after_values_keyword (x :: t)); [reflexivity | apply IH].
Qed.

(** The extractor and the values block of the specification agree. *)
Lemma extract_is_values_block (content : str) :
  extract_and_clean_values content = values_block content.
Proof.
  unfold extract_and_clean_values, values_block, re_search.
  pose proof (search_values content 0) as H.
  destruct (search_from values_flags values_re 0 content) as [[[p g] r]|];
    destruct (find_values content) as [s1|]; try discriminate; [|reflexivity].
  injection H as ->.
  unfold strip, rstrip_chars.
  rewrite rstrip_by_none.
  - apply strip_by_idem.
  - apply strip_by_Forall, values_span_no_semicolon.
Qed.

(** C4, as stated, fails: this input holds the keyword VALUES, and the
    extractor returns all of it, keyword and semicolon included, because
    no white space follows the keyword. *)
Lemma values_without_space_not_extracted :
  contains (u "VALUES") (u "INSERT INTO t (a) VALUES(1);") = true /\
  extract_and_clean_values (u "INSERT INTO t (a) VALUES(1);")
    = u "INSERT INTO t (a) VALUES(1);" /\
  extract_and_clean_values (u "INSERT INTO t (a) VALUES(1);") <> u "(1)".
Proof.
  split; [vm_compute; reflexivity|].
  split; [vm_compute; reflexivity | vm_compute; discriminate].
Qed.

(** C4, amended: the extractor looks for the first keyword VALUES, in
    any case, that white space follows; it skips that white space and
    returns the text up to the first semicolon, line break before a line
    that begins with [--], or end of input, stripped; when there is no
    such keyword it returns the whole input, stripped. *)
Theorem extract_and_clean_values_spec (content : str) :
  extract_and_clean_values content
  = match find_values content with
    | Some s1 => strip (values_span s1)
    | None => strip content
    end.
Proof. apply extract_is_values_block. Qed.

Lemma no_comment_before_semicolon (b rest : str) :
  prefixb (u "--") (lstrip_by is_space b) = false ->
  prefixb (u "--") (lstrip_by is_space (b ++ SEMI :: rest)) = false.
Proof.
  induction b as [|y b IH]; intros H; [reflexivity|].
  cbn [app lstrip_by] in *. destruct (is_space y); [now apply IH|].
  change (u "--") with [45; 45]%N in *. cbn [prefixb] in *.
  destruct (N.eqb 45 y); [|reflexivity]. cbn [andb] in *.
  destruct b as [|z b]; [reflexivity | exact H].
Qed.

Lemma values_span_semicolon (body rest : str) :
  contains [SEMI] body = false ->
  comment_line_in body = false ->
  values_span (body ++ SEMI :: rest) = body.
Proof.
  induction body as [|x b IH]; intros Hs Hc.
  - cbn [app values_span values_end]. now rewrite N.eqb_refl.
  - apply contains_cons_false in Hs as [Hx Hs].
    cbn [comment_line_in] in Hc. apply orb_false_iff in Hc as [Hn Hc].
    change ((x :: b) ++ SEMI :: rest) with (x :: (b ++ SEMI :: rest)).
    cbn [values_span].
    assert (He : values_end (x :: b ++ SEMI :: rest) = false).
    { unfold values_end. apply orb_false_iff; split.
      - cbn [prefixb] in Hx. rewrite andb_true_r in Hx.
        now rewrite N.eqb_sym.
      - destruct (N.eqb x NL); [|reflexivity]. cbn [andb] in *.
        now apply no_comment_before_semicolon. }
    rewrite He, IH by assumption. reflexivity.
Qed.

(** C9, as stated, fails twice.  Without white space after VALUES the
    first semicolon lies inside the literal ['a;b'] and nothing is cut
    there: the extractor returns the whole input.  With white space
    after VALUES and a line that begins with [--] before the first
    semicolon, the block ends at that line, before the semicolon of the
    literal. *)
Lemma semicolon_in_literal_not_truncated :
  (extract_and_clean_values (u "INSERT INTO t (a) VALUES('a;b');")
     = u "INSERT INTO t (a) VALUES('a;b');" /\
   extract_and_clean_values (u "INSERT INTO t (a) VALUES('a;b');")
     <> u "('a") /\
  (extract_and_clean_values
     (u "INSERT INTO t (a) VALUES (1," ++ [NL] ++ u "-- c" ++ [NL]
      ++ u "'a;b');")
     = u "(1," /\
   extract_and_clean_values
     (u "INSERT INTO t (a) VALUES (1," ++ [NL] ++ u "-- c" ++ [NL]
      ++ u "'a;b');")
     <> u "(1," ++ [NL] ++ u "-- c" ++ [NL] ++ u "'a").
Proof.
  split; (split; [vm_compute; reflexivity | vm_compute; discriminate]).
Qed.

(** C9, amended: when white space follows the keyword VALUES and no
    line that begins with [--] starts before the first semicolon after
    it, the values block ends at that semicolon, wherever it lies, in a
    string literal or not. *)
Theorem extract_stops_at_first_semicolon (content s1 body rest : str) :
  find_values content = Some s1 ->
  s1 = body ++ SEMI :: rest ->
  contains [SEMI] body = false ->
  comment_line_in body = false ->
  extract_and_clean_values content = strip body.
Proof.
  intros Hf -> Hs Hc.
  rewrite extract_is_values_block. unfold values_block.
  now rewrite Hf, values_span_semicolon.
Qed.

Lemma extract_stops_at_first_semicolon_witness :
  extract_and_clean_values (u "INSERT INTO t (a) VALUES (1, 'a &amp; b');")
  = strip (u "(1, 'a &amp").
Proof.
  apply (extract_stops_at_first_semicolon
           (u "INSERT INTO t (a) VALUES (1, 'a &amp; b');")
           (s1 := u "(1, 'a &amp; b');") (u "(1, 'a &amp") (u " b');"));
    vm_compute; reflexivity.
Defined.

(** ** What [insert_re] matches *)

Lemma take_lstrip p (s : str) : s = take_by p s ++ lstrip_by p s.
Proof.
  induction s as [|x t IH]; [reflexivity|].
  cbn [take_by lstrip_by]. destruct (p x); [|reflexivity].
  simpl; now f_equal.
Qed.

Lemma firstn_take_by p (s : str) :
  firstn (length s - length (lstrip_by p s)) s = take_by p s.
Proof.
  rewrite (take_lstrip p s) at 1 3. apply firstn_app_exact.
Qed.

Lemma is_space_spec (x : char) :
  is_space x = true <->
  (9 <= x <= 13 \/ 28 <= x <= 32 \/ x = 133 \/ x = 160 \/ x = 5760 \/
   8192 <= x <= 8202 \/ 8232 <= x <= 8233 \/ x = 8239 \/ x = 8287 \/
   x = 12288)%N.
Proof.
  unfold is_space, in_ranges, space_ranges, in_range.
  cbn [existsb fst snd].
  rewrite !orb_true_iff, !andb_true_iff, !N.leb_le. lia.
Qed.

Lemma in_ranges_apart (rs ss : list (N * N)) (x : char) :
  ranges_apart rs ss = true ->
  in_ranges rs x = true -> in_ranges ss x = false.
Proof.
  unfold ranges_apart, in_ranges. intros Ha Hx.
  apply existsb_exists in Hx. destruct Hx as [r [Hr Hx]].
  rewrite forallb_forall in Ha. specialize (Ha r Hr).
  rewrite forallb_forall in Ha.
  destruct (existsb (fun s => in_range (fst s) (snd s) x) ss) eqn:E;
    [|reflexivity].
  apply existsb_exists in E. destruct E as [s0 [Hs E]].
  specialize (Ha s0 Hs). unfold in_range in Hx, E.
  apply andb_true_iff in Hx, E. rewrite !N.leb_le in Hx, E.
  apply orb_true_iff in Ha. rewrite !N.ltb_lt in Ha. lia.
Qed.

(** A character of [\w] is one of the ASCII letters and digits, the
    underscore, or a letter or digit above 127, which is no white
    space. *)
Lemma is_word_cases (x : char) :
  is_word x = true ->
  (65 <= x <= 90 \/ 97 <= x <= 122 \/ 48 <= x <= 57 \/ x = 95)%N \/
  ((128 <= x)%N /\ is_space x = false).
Proof.
  unfold is_word, is_upper, is_lower, is_digit, in_range.
  rewrite !orb_true_iff, !andb_true_iff, !N.leb_le, N.eqb_eq.
  intros [[[[H|H]|[H|[H D]]]|H]|[H A]]; try (left; lia); right;
    (split; [exact H|]).
  - apply (@in_ranges_apart decimal_ranges space_ranges x); [|exact D].
    vm_compute. reflexivity.
  - apply (@in_ranges_apart alnum_ranges space_ranges x); [|exact A].
    vm_compute. reflexivity.
Qed.

Lemma word_is_plain (x : char) :
  is_word x = true ->
  N.eqb x BACKTICK = false /\ is_space x = false /\ N.eqb x LPAREN = false.
Proof.
  intros H. unfold BACKTICK, LPAREN. rewrite !N.eqb_neq.
  destruct (is_word_cases x H) as [Ha|[Hw Hs]].
  - split; [lia|]. split; [|lia].
    destruct (is_space x) eqn:E; [|reflexivity].
    apply is_space_spec in E. lia.
  - split; [lia|]. split; [exact Hs | lia].
Qed.

Lemma space_is_plain (x : char) :
  is_space x = true -> N.eqb LPAREN x = false /\ N.eqb 45 x = false.
Proof.
  intros H. apply is_space_spec in H. unfold LPAREN.
  rewrite !N.eqb_neq. lia.
Qed.

Lemma insert_columns_eq c s :
  rmatch insert_flags insert_columns accept c s
  = match columns_at s with
    | Some (cols, rest) => Some ((2, cols) :: c, rest)
    | None => None
    end.
Proof.
  unfold insert_columns, columns_at. cbn [seqs].
  rewrite rmatch_seq, rmatch_lit.
  destruct s as [|x s1]; [reflexivity|].
  rewrite lit_eq_caseless by reflexivity. rewrite (N.eqb_sym LPAREN x).
  destruct (N.eqb x LPAREN); [|reflexivity].
  rewrite rmatch_seq, rmatch_grp, rmatch_plus_cls.
  destruct s1 as [|y s2]; [reflexivity|].
  cbn [take_by lstrip_by]. destruct (not_char RPAREN y) eqn:Hy; [|reflexivity].
  rewrite greedy_run_longest.
  - rewrite rmatch_lit.
    pose proof (firstn_take_by (not_char RPAREN) (y :: s2)) as Hf.
    cbn [take_by lstrip_by] in Hf. rewrite Hy in Hf. rewrite Hf.
    pose proof (lstrip_by_head (not_char RPAREN) s2) as Hh.
    destruct (lstrip_by (not_char RPAREN) s2) as [|z rest]; [reflexivity|].
    cbn [head_not] in Hh. unfold not_char in Hh.
    rewrite negb_involutive in Hh. apply N.eqb_eq in Hh; subst z.
    reflexivity.
  - intros c0 z t0 Hz. rewrite rmatch_lit, lit_eq_caseless by reflexivity.
    unfold not_char in Hz. apply negb_true_iff in Hz.
    now rewrite N.eqb_sym, Hz.
Qed.

Lemma insert_after_name_eq c s :
  rmatch insert_flags insert_after_name accept c s
  = match columns_at (lstrip_by is_space (drop_backtick s)) with
    | Some (cols, rest) => Some ((2, cols) :: c, rest)
    | None => None
    end.
Proof.
  assert (Hsp : forall c0 s0,
    rmatch insert_flags (Seq (Star true (Cls is_space)) insert_columns)
      accept c0 s0
    = match columns_at (lstrip_by is_space s0) with
      | Some (cols, rest) => Some ((2, cols) :: c0, rest)
      | None => None
      end).
  { intros c0 s0. rewrite rmatch_seq, rmatch_star_cls, greedy_run_longest.
    - apply insert_columns_eq.
    - intros c1 x t Hx. rewrite insert_columns_eq. unfold columns_at.
      destruct (space_is_plain x Hx) as [H40 _].
      rewrite N.eqb_sym, H40. reflexivity. }
  unfold insert_after_name. cbn [seqs].
  rewrite rmatch_seq, rmatch_opt, rmatch_lit.
  destruct s as [|x t].
  - cbn [or_else drop_backtick]. apply Hsp.
  - rewrite lit_eq_caseless by reflexivity. rewrite (N.eqb_sym BACKTICK x).
    cbn [drop_backtick].
    destruct (N.eqb_spec x BACKTICK) as [->|Hx].
    + rewrite !Hsp. cbn [lstrip_by]. 
      change (is_space BACKTICK) with false. cbn iota.
      change (columns_at (BACKTICK :: t)) with (@None (str * str)).
      apply or_else_none_r.
    + cbn [or_else]. apply Hsp.
Qed.

Lemma insert_after_name_word c x t :
  is_word x = true -> rmatch insert_flags insert_after_name accept c (x :: t) = None.
Proof.
  intros Hx. rewrite insert_after_name_eq.
  destruct (word_is_plain x Hx) as [Hb [Hs H40]].
  cbn [drop_backtick]. rewrite Hb. cbn [lstrip_by]. rewrite Hs.
  unfold columns_at. now rewrite H40.
Qed.

Lemma insert_name_eq c s :
  rmatch insert_flags
    (Seq (Grp 1 (Plus true (Cls is_word))) insert_after_name) accept c s
  = match take_by is_word s with
    | [] => None
    | (_ :: _) as name =>
        match columns_at (lstrip_by is_space
                            (drop_backtick (lstrip_by is_word s))) with
        | Some (cols, rest) => Some ((2, cols) :: (1, name) :: c, rest)
        | None => None
        end
    end.
Proof.
  rewrite rmatch_seq, rmatch_grp, rmatch_plus_cls.
  destruct s as [|x t]; [reflexivity|].
  cbn [take_by lstrip_by]. destruct (is_word x) eqn:Hx; [|reflexivity].
  rewrite greedy_run_longest.
  - rewrite insert_after_name_eq.
    pose proof (firstn_take_by is_word (x :: t)) as Hf.
    cbn [take_by lstrip_by] in Hf. rewrite Hx in Hf. rewrite Hf.
    reflexivity.
  - intros c0 y t0 Hy. now apply insert_after_name_word.
Qed.

Lemma match_here_insert (s : str) :
  match_here insert_flags insert_re s
  = match insert_statement s with
    | Some (name, cols, rest) => Some ([(2, cols); (1, name)], rest)
    | None => None
    end.
Proof.
  unfold match_here, insert_re, insert_statement. cbn [seqs].
  rewrite rmatch_seq, rmatch_lits.
  destruct (lit_prefix insert_flags (u "INSERT INTO ") s) as [s1|];
    [|reflexivity].
  rewrite rmatch_seq, rmatch_opt, rmatch_lit.
  assert (Hgo : forall s2,
    rmatch insert_flags
      (Seq (Grp 1 (Plus true (Cls is_word))) insert_after_name) accept [] s2
    = match take_by is_word s2 with
      | [] => None
      | _ :: _ =>
          match columns_at (lstrip_by is_space
                              (drop_backtick (lstrip_by is_word s2))) with
          | Some (cols, rest) =>
              Some ([(2, cols); (1, take_by is_word s2)], rest)
          | None => None
          end
      end).
  { intros s2. rewrite insert_name_eq.
    destruct (take_by is_word s2); [reflexivity|].
    now destruct (columns_at _) as [[cols rest]|]. }
  destruct s1 as [|x t].
  - cbn [or_else drop_backtick]. rewrite Hgo. reflexivity.
  - rewrite lit_eq_caseless by reflexivity. rewrite (N.eqb_sym BACKTICK x).
    cbn [drop_backtick].
    destruct (N.eqb_spec x BACKTICK) as [->|Hx].
    + rewrite !Hgo.
      change (take_by is_word (BACKTICK :: t)) with (@nil char).
      rewrite or_else_none_r.
      destruct (take_by is_word t); [reflexivity|].
      now destruct (columns_at _) as [[cols rest]|].
    + cbn [or_else]. rewrite Hgo.
      destruct (take_by is_word (x :: t)); [reflexivity|].
      now destruct (columns_at _) as [[cols rest]|].
Qed.
(** ** The pattern of the INSERT statement, as a shape of the text *)

Lemma take_by_forallb p (s : str) : forallb p (take_by p s) = true.
Proof.
  induction s as [|x t IH]; [reflexivity|].
  cbn [take_by]. destruct (p x) eqn:Hp; [|reflexivity].
  simpl; now rewrite Hp.
Qed.

Lemma span_app p (a b : str) :
  forallb p a = true -> head_not p b = true ->
  take_by p (a ++ b) = a /\ lstrip_by p (a ++ b) = b.
Proof.
  intros Ha Hb. induction a as [|x a IH].
  - destruct b as [|y b]; [now split|].
    cbn [head_not] in Hb. apply negb_true_iff in Hb.
    simpl. rewrite Hb. now split.
  - cbn [forallb] in Ha. apply andb_true_iff in Ha as [Hx Ha].
    destruct (IH Ha) as [IH1 IH2].
    simpl. rewrite Hx, IH1, IH2. now split.
Qed.

Lemma lit_prefix_ci (w : str) : forall kw t,
  lit_prefix insert_flags w kw = Some [] ->
  lit_prefix insert_flags w (kw ++ t) = Some t.
Proof.
  induction w as [|a w IH]; intros kw t H.
  - cbn [lit_prefix] in H. injection H as ->. reflexivity.
  - destruct kw as [|x kw]; [discriminate|]. cbn [app lit_prefix] in H |- *.
    destruct (lit_eq insert_flags a x); [|discriminate]. now apply IH.
Qed.

Lemma lit_prefix_ci_inv (w : str) : forall s t,
  lit_prefix insert_flags w s = Some t ->
  exists kw, s = kw ++ t /\ lit_prefix insert_flags w kw = Some [].
Proof.
  induction w as [|a w IH]; intros s t H.
  - injection H as ->. now exists [].
  - destruct s as [|x s]; [discriminate|]. cbn [lit_prefix] in H.
    destruct (lit_eq insert_flags a x) eqn:Hx; [|discriminate].
    destruct (IH _ _ H) as [kw [-> Hk]].
    exists (x :: kw); split; [reflexivity|]. cbn [lit_prefix].
    now rewrite Hx.
Qed.

Lemma drop_backtick_split (s : str) :
  exists q, opt_backtick q /\ s = q ++ drop_backtick s.
Proof.
  destruct s as [|x t]; [exists []; split; [now left | reflexivity]|].
  cbn [drop_backtick]. destruct (N.eqb_spec x BACKTICK) as [->|Hx].
  - exists [BACKTICK]; split; [now right | reflexivity].
  - exists []; split; [now left | reflexivity].
Qed.

Lemma drop_backtick_app (q b : str) :
  opt_backtick q ->
  match b with [] => True | y :: _ => N.eqb y BACKTICK = false end ->
  drop_backtick (q ++ b) = b.
Proof.
  intros [->| ->] Hb.
  - destruct b as [|y b]; [reflexivity|]. simpl. now rewrite Hb.
  - reflexivity.
Qed.

Lemma columns_at_shape (cols rest : str) :
  cols <> [] -> forallb (not_char RPAREN) cols = true ->
  columns_at (LPAREN :: cols ++ RPAREN :: rest) = Some (cols, rest).
Proof.
  intros Hne Hc. cbn [columns_at]. rewrite N.eqb_refl.
  destruct (@span_app (not_char RPAREN) cols (RPAREN :: rest) Hc eq_refl) as [-> ->].
  destruct cols; [congruence | reflexivity].
Qed.

Lemma columns_at_inv (s cols rest : str) :
  columns_at s = Some (cols, rest) ->
  s = LPAREN :: cols ++ RPAREN :: rest /\ cols <> [] /\
  forallb (not_char RPAREN) cols = true.
Proof.
  destruct s as [|x s1]; [discriminate|]. cbn [columns_at].
  destruct (N.eqb_spec x LPAREN) as [->|]; [|discriminate].
  pose proof (take_lstrip (not_char RPAREN) s1) as Hs.
  pose proof (take_by_forallb (not_char RPAREN) s1) as Hf.
  pose proof (lstrip_by_head (not_char RPAREN) s1) as Hh.
  destruct (take_by (not_char RPAREN) s1) as [|c0 cs]; [discriminate|].
  destruct (lstrip_by (not_char RPAREN) s1) as [|z r]; [discriminate|].
  intros [= <- <-]. cbn [head_not] in Hh. unfold not_char in Hh.
  rewrite negb_involutive in Hh. apply N.eqb_eq in Hh; subst z.
  repeat split; [now rewrite Hs | discriminate | exact Hf].
Qed.

Lemma space_not_word (x : char) :
  is_space x = true -> N.eqb x BACKTICK = false /\ is_word x = false.
Proof.
  intros H. split.
  - apply is_space_spec in H. unfold BACKTICK. apply N.eqb_neq. lia.
  - destruct (is_word x) eqn:E; [|reflexivity].
    destruct (is_word_cases x E) as [Ha|[_ Hs]]; [|congruence].
    apply is_space_spec in H. lia.
Qed.

Lemma insert_at_statement (s name cols : str) :
  insert_at s name cols ->
  exists rest, insert_statement s = Some (name, cols, rest).
Proof.
  intros (kw & q1 & q2 & ws & rest & -> & Hkw & Hq1 & Hq2 & Hn & Hw & Hs
          & Hc & Hp).
  exists rest. unfold insert_statement.
  rewrite (@lit_prefix_ci (u "INSERT INTO ") kw _ Hkw).
  set (tail := ws ++ LPAREN :: cols ++ RPAREN :: rest).
  assert (Htl : match tail with
                | [] => True
                | y :: _ => N.eqb y BACKTICK = false /\ is_word y = false
                end).
  { subst tail. destruct ws as [|w0 ws]; [now split|].
    cbn [forallb] in Hs. apply andb_true_iff in Hs as [Hw0 _].
    simpl. now apply space_not_word. }
  assert (Hb : head_not is_word (q2 ++ tail) = true).
  { destruct Hq2 as [->| ->]; [|reflexivity].
    destruct tail as [|y tl]; [reflexivity|].
    simpl. destruct Htl as [_ ->]. reflexivity. }
  destruct name as [|n0 nm] eqn:En; [congruence|]. rewrite <- En in *.
  assert (Hn0 : match name ++ q2 ++ tail with
                | [] => True
                | y :: _ => N.eqb y BACKTICK = false
                end).
  { subst name. simpl. cbn [forallb] in Hw.
    apply andb_true_iff in Hw as [Hw0 _]. apply (word_is_plain n0 Hw0). }
  rewrite (@drop_backtick_app q1 _ Hq1 Hn0).
  destruct (@span_app is_word name (q2 ++ tail) Hw Hb) as [-> ->].
  rewrite En at 1. cbv iota. rewrite <- En.
  rewrite (@drop_backtick_app q2 tail Hq2)
    by (destruct tail; [exact I | apply Htl]).
  subst tail.
  destruct (@span_app is_space ws (LPAREN :: cols ++ RPAREN :: rest) Hs eq_refl)
    as [_ ->].
  rewrite (@columns_at_shape cols rest Hc Hp).
  reflexivity.
Qed.

Lemma insert_statement_at (s name cols rest : str) :
  insert_statement s = Some (name, cols, rest) -> insert_at s name cols.
Proof.
  unfold insert_statement.
  destruct (lit_prefix insert_flags (u "INSERT INTO ") s) as [s1|] eqn:Hk;
    [|discriminate].
  destruct (lit_prefix_ci_inv _ _ Hk) as [kw [-> Hkw]].
  destruct (drop_backtick_split s1) as [q1 [Hq1 Hs1]].
  set (s2 := drop_backtick s1) in *.
  pose proof (take_lstrip is_word s2) as Hs2.
  pose proof (take_by_forallb is_word s2) as Hw.
  destruct (take_by is_word s2) as [|n0 nm] eqn:En; [discriminate|].
  destruct (drop_backtick_split (lstrip_by is_word s2)) as [q2 [Hq2 Hs3]].
  set (s4 := drop_backtick (lstrip_by is_word s2)) in *.
  pose proof (take_lstrip is_space s4) as Hs4.
  pose proof (take_by_forallb is_space s4) as Hsp.
  destruct (columns_at (lstrip_by is_space s4)) as [[cols' rest']|] eqn:Hc;
    [|discriminate].
  intros [= <- <- <-].
  destruct (columns_at_inv _ Hc) as [Hs5 [Hne Hp]].
  exists kw, q1, q2, (take_by is_space s4), rest'.
  repeat split; try assumption; try discriminate.
  rewrite Hs1, Hs2, Hs3, Hs4, Hs5 at 1. reflexivity.
Qed.
(** ** The table and column detector *)

Lemma search_insert (s : str) : forall pos,
  match search_from insert_flags insert_re pos s with
  | Some (_, g, _) => Some (group 1 g, group 2 g)
  | None => None
  end
  = find_insert s.
Proof.
  induction s as [|x t IH]; intros pos.
  - cbn [search_from find_insert]. rewrite match_here_insert.
    now destruct (insert_statement []) as [[[n c] r]|].
  - cbn [search_from find_insert]. rewrite match_here_insert.
    destruct (insert_statement (x :: t)) as [[[n c] r]|];
      [reflexivity | apply IH].
Qed.

Lemma detect_is_find_insert (table_name content : str) :
  detect_table_and_columns table_name content
  = match find_insert content with
    | Some (name, cols) => (pascal_case name, column_names cols)
    | None => (table_name, [])
    end.
Proof.
  unfold detect_table_and_columns, re_search.
  rewrite <- (search_insert content 0).
  now destruct (search_from insert_flags insert_re 0 content)
    as [[[p g] r]|].
Qed.

Lemma find_insert_first (pre : str) : forall s name cols,
  insert_at s name cols ->
  (forall p1 p2 n c,
     pre = p1 ++ p2 -> p2 <> [] -> ~ insert_at (p2 ++ s) n c) ->
  find_insert (pre ++ s) = Some (name, cols).
Proof.
  induction pre as [|x pre IH]; intros s name cols Hat Hfirst.
  - destruct (insert_at_statement Hat) as [rest Hr].
    destruct s; cbn [app find_insert]; now rewrite Hr.
  - change ((x :: pre) ++ s) with (x :: (pre ++ s)). cbn [find_insert].
    destruct (insert_statement (x :: pre ++ s)) as [[[n c] r]|] eqn:Hi.
    + exfalso. apply insert_statement_at in Hi.
      apply (Hfirst [] (x :: pre) n c); [reflexivity | discriminate | exact Hi].
    + apply IH; [exact Hat|].
      intros p1 p2 n c -> Hne. now apply (Hfirst (x :: p1) p2 n c).
Qed.

Lemma find_insert_none (content : str) :
  (forall p s n c, content = p ++ s -> ~ insert_at s n c) ->
  find_insert content = None.
Proof.
  induction content as [|x t IH]; intros Hno.
  - cbn [find_insert].
    destruct (insert_statement []) as [[[n c] r]|] eqn:Hi; [|reflexivity].
    exfalso. apply insert_statement_at in Hi. now apply (Hno [] [] n c).
  - cbn [find_insert].
    destruct (insert_statement (x :: t)) as [[[n c] r]|] eqn:Hi.
    + exfalso. apply insert_statement_at in Hi.
      now apply (Hno [] (x :: t) n c).
    + apply IH. intros p s n c -> Hat.
      now apply (Hno (x :: p) s n c).
Qed.

(** C5: at the first place where the text reads INSERT INTO, a name and
    a column list, the detector returns the name in PascalCase and the
    columns, split at the commas and stripped of white space and of
    backticks; when the text reads so nowhere, it returns the default
    table name and no column. *)
Theorem detect_table_and_columns_spec (table_name content : str) :
  (forall pre s name cols,
     content = pre ++ s ->
     insert_at s name cols ->
     (forall p1 p2 n c,
        pre = p1 ++ p2 -> p2 <> [] -> ~ insert_at (p2 ++ s) n c) ->
     detect_table_and_columns table_name content
       = (concat (map capitalize (split_on UNDERSCORE name)),
          map (fun col => strip_chars [BACKTICK] (strip col))
              (split_on COMMA cols))) /\
  ((forall p s n c, content = p ++ s -> ~ insert_at s n c) ->
     detect_table_and_columns table_name content = (table_name, [])).
Proof.
  split.
  - intros pre s name cols -> Hat Hfirst.
    rewrite detect_is_find_insert, (find_insert_first Hat Hfirst).
    reflexivity.
  - intros Hno. rewrite detect_is_find_insert, (find_insert_none Hno).
    reflexivity.
Qed.

Lemma detect_table_and_columns_spec_witness :
  detect_table_and_columns (u "Fallback")
    (u "insert into `combined_addons` (`id`, name , ` c `) VALUES (1)")
  = (u "CombinedAddons", [u "id"; u "name"; u " c "]).
Proof.
  refine (proj1 (detect_table_and_columns_spec (u "Fallback") _)
            [] _ (u "combined_addons") (u "`id`, name , ` c `")
            eq_refl _ _).
  - exists (u "insert into "), [BACKTICK], [BACKTICK], [SPACE],
      (u " VALUES (1)").
    repeat split; try reflexivity; try discriminate;
      solve [now right].
  - intros p1 p2 n c Hp Hne. destruct p1; destruct p2; try discriminate.
    now elim Hne.
Defined.
(** ** The apostrophe fixer, quote by quote *)

Lemma str_eqb_eq (a b : str) : str_eqb a b = true <-> a = b.
Proof.
  revert b; induction a as [|x a IH]; intros [|y b]; simpl;
    try (split; [discriminate | discriminate]); [now split|].
  rewrite andb_true_iff, N.eqb_eq, IH.
  split; [intros [-> ->]; reflexivity | intros [= -> ->]; now split].
Qed.

Lemma str_eqb_refl (a : str) : str_eqb a a = true.
Proof. now apply str_eqb_eq. Qed.

Lemma contractions_in_halves :
  apostrophe_fixes
  = map (fun ab => (with_quote ab, with_quotes ab)) contraction_halves.
Proof. vm_compute; reflexivity. Qed.

Lemma contraction_halves_good :
  forallb good_halves contraction_halves = true.
Proof. vm_compute; reflexivity. Qed.

Lemma join_cons (sep w w1 : str) (r : list str) :
  join sep (w :: w1 :: r) = w ++ sep ++ join sep (w1 :: r).
Proof. reflexivity. Qed.

Lemma join_cons_ne (sep w : str) (ws : list str) :
  ws <> [] -> join sep (w :: ws) = w ++ sep ++ join sep ws.
Proof. destruct ws; [congruence | reflexivity]. Qed.

Lemma join_app_head (sep p w : str) (r : list str) :
  join sep ((p ++ w) :: r) = p ++ join sep (w :: r).
Proof.
  destruct r as [|w1 r]; [reflexivity|].
  rewrite !join_cons. now rewrite <- app_assoc.
Qed.

Lemma mark_head P (w : str) (r : list str) :
  mark P (w :: r) = w :: tl (mark P (w :: r)).
Proof.
  destruct r as [|w1 r]; [reflexivity|].
  cbn [mark]. now destruct (P w w1).
Qed.

Lemma mark_not_nil P (w : str) (r : list str) : mark P (w :: r) <> [].
Proof. rewrite mark_head. discriminate. Qed.

Lemma skipn_prefix (p t : str) : skipn (length p) (p ++ t) = t.
Proof. now rewrite skipn_app, skipn_all, Nat.sub_diag. Qed.

Section OneContraction.
Variables a b : str.
Hypothesis a_not_empty : a <> [].
Hypothesis b_not_empty : b <> [].
Hypothesis a_quote_free : quote_free a = true.
Hypothesis b_quote_free : quote_free b = true.
Hypothesis a_b_no_overlap : no_overlap a b = true.

Let X := a ++ QUOTE :: b.
Let X' := a ++ QUOTE :: QUOTE :: b.

Lemma quote_free_cons (c : char) (v : str) :
  quote_free (c :: v) = true -> N.eqb c QUOTE = false /\ quote_free v = true.
Proof.
  unfold quote_free; cbn [forallb]. intros H.
  apply andb_true_iff in H as [Hc Hv]. split; [|exact Hv].
  unfold not_char in Hc. now apply negb_true_iff in Hc.
Qed.

Lemma prefixb_contraction (T : str) : forall a0 v,
  quote_free a0 = true -> quote_free v = true ->
  prefixb (a0 ++ QUOTE :: b) (v ++ QUOTE :: T) = str_eqb a0 v && prefixb b T.
Proof.
  induction a0 as [|x a0 IH]; intros [|c v] Ha Hv.
  - cbn [app prefixb str_eqb]. now rewrite N.eqb_refl.
  - apply quote_free_cons in Hv as [Hc _].
    cbn [app prefixb str_eqb]. now rewrite N.eqb_sym, Hc.
  - apply quote_free_cons in Ha as [Hx _].
    cbn [app prefixb str_eqb]. now rewrite Hx.
  - apply quote_free_cons in Ha as [_ Ha].
    apply quote_free_cons in Hv as [_ Hv].
    cbn [app prefixb str_eqb].
    rewrite (IH v Ha Hv). now rewrite andb_assoc.
Qed.

Lemma prefixb_contraction_none : forall a0 v,
  quote_free v = true -> prefixb (a0 ++ QUOTE :: b) v = false.
Proof.
  induction a0 as [|x a0 IH]; intros [|c v] Hv; try reflexivity.
  - apply quote_free_cons in Hv as [Hc _].
    cbn [app prefixb]. now rewrite N.eqb_sym, Hc.
  - apply quote_free_cons in Hv as [_ Hv].
    cbn [app prefixb]. rewrite (IH v Hv). apply andb_false_r.
Qed.

Lemma replace_quote_free (v : str) :
  quote_free v = true -> replace_aux X X' 0 v = v.
Proof.
  induction v as [|c v IH]; intros Hv; [reflexivity|].
  rewrite replace_aux_step by (now apply prefixb_contraction_none).
  apply quote_free_cons in Hv as [_ Hv]. now rewrite IH.
Qed.

Lemma suffixb_nil : suffixb a [] = false.
Proof. destruct a; [now elim a_not_empty | reflexivity]. Qed.

(** The scan of one piece and of the quote after it. *)
Lemma replace_first_piece (T : str) : forall v,
  quote_free v = true ->
  replace_aux X X' 0 (v ++ QUOTE :: T)
  = if suffixb a v && prefixb b T
    then v ++ QUOTE :: QUOTE :: b ++ replace_aux X X' 0 (skipn (length b) T)
    else v ++ QUOTE :: replace_aux X X' 0 T.
Proof.
  induction v as [|c v IH]; intros Hv.
  - rewrite suffixb_nil. cbn [andb app].
    rewrite replace_aux_step; [reflexivity|].
    subst X. destruct a as [|x a0]; [now elim a_not_empty|].
    apply quote_free_cons in a_quote_free as [Hx _].
    cbn [app prefixb]. now rewrite Hx.
  - destruct (prefixb X ((c :: v) ++ QUOTE :: T)) eqn:Hp.
    + pose proof Hp as Hp'. unfold X in Hp'.
      rewrite prefixb_contraction in Hp' by assumption.
      apply andb_true_iff in Hp' as [Heq Hb].
      assert (Hs : suffixb a (c :: v) = true)
        by (cbn [suffixb]; now rewrite Heq).
      rewrite Hs, Hb. cbn [andb].
      apply str_eqb_eq in Heq. rewrite <- Heq.
      apply prefixb_spec in Hb as [T' ->].
      rewrite skipn_prefix.
      replace (a ++ QUOTE :: b ++ T') with (X ++ T')
        by (unfold X; now rewrite <- app_assoc).
      rewrite replace_aux_head
        by (unfold X; destruct a; [now elim a_not_empty | discriminate]).
      unfold X'. now rewrite <- app_assoc.
    + change ((c :: v) ++ QUOTE :: T) with (c :: (v ++ QUOTE :: T)) in *.
      rewrite replace_aux_step by exact Hp.
      pose proof Hv as Hcv.
      apply quote_free_cons in Hv as [Hc Hv].
      rewrite (IH Hv).
      assert (Hsame : suffixb a (c :: v) && prefixb b T
                      = suffixb a v && prefixb b T).
      { cbn [suffixb].
        change (c :: v ++ QUOTE :: T) with ((c :: v) ++ QUOTE :: T) in Hp.
        unfold X in Hp. rewrite prefixb_contraction in Hp by assumption.
        destruct (str_eqb a (c :: v)); [|reflexivity].
        cbn [andb orb] in *. rewrite Hp. now rewrite andb_false_r. }
      rewrite Hsame.
      now destruct (suffixb a v && prefixb b T).
Qed.

Lemma prefixb_piece : forall b0 w T,
  quote_free b0 = true -> quote_free w = true ->
  prefixb b0 (w ++ QUOTE :: T) = prefixb b0 w.
Proof.
  induction b0 as [|x b0 IH]; intros [|c w] T Hb Hw; try reflexivity.
  - apply quote_free_cons in Hb as [Hx _].
    cbn [app prefixb]. now rewrite Hx.
  - apply quote_free_cons in Hb as [_ Hb].
    apply quote_free_cons in Hw as [_ Hw].
    cbn [app prefixb]. now rewrite (IH w T Hb Hw).
Qed.

Lemma prefixb_join (w1 : str) (r : list str) :
  quote_free w1 = true ->
  prefixb b (join [QUOTE] (w1 :: r)) = prefixb b w1.
Proof.
  intros Hw. destruct r as [|w2 r]; [reflexivity|].
  rewrite join_cons. now apply prefixb_piece.
Qed.

Lemma str_eqb_app_prefix (p w : str) :
  str_eqb a (p ++ w) = true -> prefixb p a = true.
Proof.
  intros H. apply str_eqb_eq in H. rewrite H. apply prefixb_app.
Qed.

Lemma suffixb_no_overlap (w : str) : forall b0,
  no_overlap a b0 = true -> suffixb a (b0 ++ w) = suffixb a w.
Proof.
  induction b0 as [|c b0 IH]; intros Hn; [reflexivity|].
  cbn [no_overlap] in Hn. apply andb_true_iff in Hn as [Hp Hn].
  apply negb_true_iff in Hp.
  change ((c :: b0) ++ w) with (c :: (b0 ++ w)). cbn [suffixb].
  rewrite (IH Hn).
  destruct (str_eqb a (c :: b0 ++ w)) eqn:He; [|reflexivity].
  apply (str_eqb_app_prefix (c :: b0) w) in He. congruence.
Qed.

Lemma mark_between_app (w : str) (r : list str) :
  mark (between (a, b)) ((b ++ w) :: r)
  = (b ++ w) :: tl (mark (between (a, b)) (w :: r)).
Proof.
  destruct r as [|w2 r]; [reflexivity|].
  cbn [mark].
  assert (HP : between (a, b) (b ++ w) w2 = between (a, b) w w2)
    by (unfold between; cbn [fst snd];
        now rewrite (suffixb_no_overlap w b a_b_no_overlap)).
  rewrite HP. now destruct (between (a, b) w w2).
Qed.

(** [replace] on a text cut at its quotes. *)
Lemma replace_join : forall (r : list str) (w : str),
  forallb quote_free (w :: r) = true ->
  replace_aux X X' 0 (join [QUOTE] (w :: r))
  = join [QUOTE] (mark (between (a, b)) (w :: r)).
Proof.
  induction r as [|w1 r IH]; intros w Hq.
  - cbn [forallb] in Hq. apply andb_true_iff in Hq as [Hw _].
    cbn [join mark]. now apply replace_quote_free.
  - cbn [forallb] in Hq. apply andb_true_iff in Hq as [Hw Hq].
    pose proof Hq as Hq1. cbn [forallb] in Hq1.
    apply andb_true_iff in Hq1 as [Hw1 Hr].
    rewrite join_cons. change ([QUOTE] ++ join [QUOTE] (w1 :: r))
      with (QUOTE :: join [QUOTE] (w1 :: r)).
    rewrite (@replace_first_piece _ w Hw), (@prefixb_join w1 r Hw1).
    assert (Hm : mark (between (a, b)) (w :: w1 :: r)
                 = if suffixb a w && prefixb b w1
                   then w :: [] :: mark (between (a, b)) (w1 :: r)
                   else w :: mark (between (a, b)) (w1 :: r))
      by reflexivity.
    rewrite Hm; clear Hm.
    destruct (suffixb a w && prefixb b w1) eqn:HP.
    + apply andb_true_iff in HP as [_ Hb].
      apply prefixb_spec in Hb as [w1' ->].
      rewrite join_app_head, skipn_prefix, IH.
      * rewrite mark_between_app.
        rewrite (@join_cons_ne [QUOTE] w ([] :: _)) by discriminate.
        rewrite (@join_cons_ne [QUOTE] [] (_ :: _)) by discriminate.
        rewrite join_app_head, <- mark_head. reflexivity.
      * cbn [forallb]. rewrite Hr, andb_true_r.
        unfold quote_free in *. rewrite forallb_app in Hw1.
        now apply andb_true_iff in Hw1 as [_ ?].
    + rewrite (IH w1 Hq).
      now rewrite (@join_cons_ne [QUOTE] w _ (@mark_not_nil _ w1 r)).
Qed.
End OneContraction.
Lemma replace_not_empty (old new s : str) :
  old <> [] -> replace old new s = replace_aux old new 0 s.
Proof. destruct old; [congruence | reflexivity]. Qed.

Lemma good_halves_inv (ab : str * str) :
  good_halves ab = true ->
  fst ab <> [] /\ snd ab <> [] /\ quote_free (fst ab) = true /\
  quote_free (snd ab) = true /\ no_overlap (fst ab) (snd ab) = true.
Proof.
  unfold good_halves. rewrite !andb_true_iff, !negb_true_iff.
  intros [[[[Ha Hb] Hqa] Hqb] Hn]. repeat split; try assumption.
  - intros E; rewrite E in Ha; discriminate.
  - intros E; rewrite E in Hb; discriminate.
Qed.

Lemma between_nil_r (ab : str * str) (w : str) :
  good_halves ab = true -> between ab w [] = false.
Proof.
  intros H. apply good_halves_inv in H as (_ & Hb & _).
  unfold between. destruct (snd ab); [congruence|]. apply andb_false_r.
Qed.

Lemma between_nil_l (ab : str * str) (w : str) :
  good_halves ab = true -> between ab [] w = false.
Proof.
  intros H. apply good_halves_inv in H as (Ha & _).
  unfold between. destruct (fst ab); [congruence|]. reflexivity.
Qed.

Lemma mark_quote_free P (segs : list str) :
  forallb quote_free segs = true -> forallb quote_free (mark P segs) = true.
Proof.
  induction segs as [|w0 r IH]; intros H; [reflexivity|].
  destruct r as [|w1 r]; [exact H|].
  cbn [forallb] in H. apply andb_true_iff in H as [H0 H1].
  specialize (IH H1).
  cbn [mark]. destruct (P w0 w1); cbn [forallb]; rewrite H0; exact IH.
Qed.

(** Two passes of [mark] are one pass with either relation, when the
    second relation holds of no empty piece. *)
Lemma mark_mark (P1 P2 : str -> str -> bool) :
  (forall w, P2 w [] = false) -> (forall w, P2 [] w = false) ->
  forall segs,
    mark P2 (mark P1 segs) = mark (fun w0 w1 => P1 w0 w1 || P2 w0 w1) segs.
Proof.
  intros Hr Hl. induction segs as [|w0 r IH]; [reflexivity|].
  destruct r as [|w1 r]; [reflexivity|].
  assert (Hm : forall P, mark P (w0 :: w1 :: r)
                 = if P w0 w1 then w0 :: [] :: mark P (w1 :: r)
                   else w0 :: mark P (w1 :: r)) by reflexivity.
  rewrite !Hm. rewrite <- IH. clear Hm.
  rewrite (mark_head P1 w1 r).
  destruct (P1 w0 w1); cbn [orb mark].
  - rewrite Hr, Hl. reflexivity.
  - reflexivity.
Qed.

Lemma mark_never (segs : list str) : mark (fun _ _ => false) segs = segs.
Proof.
  induction segs as [|w0 r IH]; [reflexivity|].
  destruct r as [|w1 r]; [reflexivity|].
  change (mark (fun _ _ => false) (w0 :: w1 :: r))
    with (w0 :: mark (fun _ _ => false) (w1 :: r)).
  now rewrite IH.
Qed.

Lemma fold_mark (parts : list (str * str)) :
  forallb good_halves parts = true ->
  forall segs,
    fold_left (fun sg ab => mark (between ab) sg) parts segs
    = mark (fun w0 w1 => existsb (fun ab => between ab w0 w1) parts) segs.
Proof.
  induction parts as [|ab parts IH]; intros Hg segs.
  - cbn [fold_left existsb]. symmetry; apply mark_never.
  - cbn [forallb] in Hg. apply andb_true_iff in Hg as [Hab Hg].
    cbn [fold_left]. rewrite (IH Hg), mark_mark; [reflexivity| |].
    + intros w. apply not_true_is_false. intros He.
      apply existsb_exists in He as [ab' [Hin Hb]].
      rewrite forallb_forall in Hg.
      now rewrite (@between_nil_r ab' w (Hg _ Hin)) in Hb.
    + intros w. apply not_true_is_false. intros He.
      apply existsb_exists in He as [ab' [Hin Hb]].
      rewrite forallb_forall in Hg.
      now rewrite (@between_nil_l ab' w (Hg _ Hin)) in Hb.
Qed.

Lemma fold_replace_join (parts : list (str * str)) :
  forallb good_halves parts = true ->
  forall (w : str) (r : list str),
    forallb quote_free (w :: r) = true ->
    fold_left (fun text ab => replace (with_quote ab) (with_quotes ab) text)
      parts (join [QUOTE] (w :: r))
    = join [QUOTE]
        (fold_left (fun sg ab => mark (between ab) sg) parts (w :: r)).
Proof.
  induction parts as [|ab parts IH]; intros Hg w r Hq; [reflexivity|].
  cbn [forallb] in Hg. apply andb_true_iff in Hg as [Hab Hg].
  cbn [fold_left].
  destruct (@good_halves_inv ab Hab) as (Ha & Hb & Hqa & Hqb & Hn).
  rewrite replace_not_empty
    by (unfold with_quote; destruct (fst ab); discriminate).
  unfold with_quote, with_quotes.
  rewrite (@replace_join (fst ab) (snd ab) Ha Hqa Hqb Hn r w Hq).
  replace (fst ab, snd ab) with ab by (now destruct ab).
  rewrite (mark_head (between ab) w r).
  apply IH; [exact Hg|].
  rewrite <- mark_head. now apply mark_quote_free.
Qed.

Lemma fold_left_map {A B C} (f : A -> B -> A) (g : C -> B) (l : list C) :
  forall x, fold_left f (map g l) x = fold_left (fun y c => f y (g c)) l x.
Proof. induction l as [|c l IH]; intros x; [reflexivity | apply IH]. Qed.

(** Cutting a text at its quotes and joining the pieces again. *)
Lemma split_on_head (sep : char) (s : str) :
  split_on sep s = hd [] (split_on sep s) :: tl (split_on sep s).
Proof.
  induction s as [|c t IH]; [reflexivity|].
  cbn [split_on]. destruct (N.eqb c sep); [reflexivity|].
  now destruct (split_on sep t).
Qed.

Lemma join_split (sep : char) (s : str) :
  join [sep] (split_on sep s) = s.
Proof.
  induction s as [|c t IH]; [reflexivity|].
  cbn [split_on].
  destruct (split_on sep t) as [|w ws] eqn:E;
    [rewrite split_on_head in E; discriminate|].
  destruct (N.eqb_spec c sep) as [->|Hc].
  - rewrite join_cons_ne by discriminate. now rewrite IH.
  - change (c :: w) with ([c] ++ w). now rewrite join_app_head, IH.
Qed.

Lemma split_quote_free (s : str) :
  forallb quote_free (split_on QUOTE s) = true.
Proof.
  induction s as [|c t IH]; [reflexivity|].
  cbn [split_on].
  destruct (split_on QUOTE t) as [|w ws] eqn:E;
    [rewrite split_on_head in E; discriminate|].
  destruct (N.eqb c QUOTE) eqn:Hc.
  - change (quote_free [] && forallb quote_free (w :: ws) = true).
    now rewrite IH.
  - cbn [forallb] in *. apply andb_true_iff in IH as [H0 H1].
    rewrite H1, andb_true_r.
    unfold quote_free in *. cbn [forallb]. rewrite H0, andb_true_r.
    unfold not_char. now rewrite Hc.
Qed.

(** The apostrophe fixer doubles the quotes that stand in an enumerated
    contraction, and nothing else. *)
Lemma fix_apostrophes_by_quote (s : str) :
  fix_apostrophes s = double_contraction_quotes s.
Proof.
  unfold fix_apostrophes, double_contraction_quotes, in_contraction.
  rewrite contractions_in_halves, fold_left_map. cbn [fst snd].
  rewrite <- (join_split QUOTE s) at 1.
  rewrite (split_on_head QUOTE s).
  rewrite fold_replace_join.
  - now rewrite fold_mark by apply contraction_halves_good.
  - apply contraction_halves_good.
  - rewrite <- split_on_head. apply split_quote_free.
Qed.
Lemma quotes_added_refl (s : str) : quotes_added s s.
Proof. induction s; constructor; assumption. Qed.

Lemma quotes_added_app (p s s' : str) :
  quotes_added s s' -> quotes_added (p ++ s) (p ++ s').
Proof. intros H; induction p; [exact H | now constructor]. Qed.

Lemma split_on_app_sep (sep : char) (v : str) : forall w,
  split_on sep (w ++ sep :: v) = split_on sep w ++ split_on sep v.
Proof.
  induction w as [|c w IH].
  - cbn [app split_on]. now rewrite N.eqb_refl.
  - cbn [app split_on]. rewrite IH.
    destruct (N.eqb c sep); [reflexivity|].
    destruct (split_on sep w) as [|x xs] eqn:E;
      [rewrite split_on_head in E; discriminate | reflexivity].
Qed.

Lemma split_on_free_l (p s : str) :
  quote_free p = true ->
  split_on QUOTE (p ++ s)
  = (p ++ hd [] (split_on QUOTE s)) :: tl (split_on QUOTE s).
Proof.
  induction p as [|c p IH]; intros Hp.
  - apply split_on_head.
  - apply quote_free_cons in Hp as [Hc Hp].
    cbn [app split_on]. rewrite Hc, (IH Hp). reflexivity.
Qed.

Lemma split_on_free (a : str) :
  quote_free a = true -> split_on QUOTE a = [a].
Proof.
  intros Ha. pose proof (@split_on_free_l a [] Ha) as H.
  rewrite app_nil_r in H. rewrite H. cbn [split_on hd tl].
  now rewrite app_nil_r.
Qed.

Lemma split_on_free_r (a : str) :
  quote_free a = true ->
  forall s, split_on QUOTE (s ++ a)
            = removelast (split_on QUOTE s)
              ++ [last (split_on QUOTE s) [] ++ a].
Proof.
  intros Ha. induction s as [|c s IH].
  - cbn [app split_on removelast last]. now apply split_on_free.
  - cbn [app split_on]. rewrite IH.
    destruct (split_on QUOTE s) as [|w ws] eqn:E;
      [rewrite split_on_head in E; discriminate|].
    destruct (N.eqb c QUOTE).
    + reflexivity.
    + destruct ws as [|w2 ws]; reflexivity.
Qed.

Lemma suffixb_app (a x : str) : suffixb a (x ++ a) = true.
Proof.
  induction x as [|c x IH].
  - destruct a; cbn [app suffixb]; now rewrite str_eqb_refl.
  - cbn [app suffixb]. rewrite IH. apply orb_true_r.
Qed.

(** [mark] on the pieces after an occurrence, and before it. *)
Lemma mark_after P (R : list str) : forall y y2 : str,
  quotes_added (join [QUOTE] (y :: R))
    (join [QUOTE] (y :: tl (mark P (y2 :: R)))).
Proof.
  induction R as [|w R IH]; intros y y2.
  - apply quotes_added_refl.
  - assert (Hm : mark P (y2 :: w :: R)
                 = if P y2 w then y2 :: [] :: mark P (w :: R)
                   else y2 :: mark P (w :: R)) by reflexivity.
    rewrite Hm, (mark_head P w R), join_cons.
    destruct (P y2 w); cbn [tl].
    + rewrite !join_cons. apply quotes_added_app.
      apply qa_double, IH.
    + rewrite join_cons. apply quotes_added_app.
      apply qa_keep, IH.
Qed.

Lemma mark_before P (a : str) : forall (L : list str) (x : str),
  exists pre',
    join [QUOTE] (mark P (L ++ [x ++ a])) = pre' ++ a /\
    quotes_added (join [QUOTE] (L ++ [x])) pre'.
Proof.
  induction L as [|w L IH]; intros x.
  - exists x. split; [reflexivity | apply quotes_added_refl].
  - destruct (IH x) as [pre' [Hj Hq]].
    assert (HL : exists w1 L1, L ++ [x ++ a] = w1 :: L1)
      by (destruct L; eexists; eexists; reflexivity).
    assert (HL' : exists w1 L1, L ++ [x] = w1 :: L1)
      by (destruct L; eexists; eexists; reflexivity).
    destruct HL as [w1 [L1 HL]]. destruct HL' as [w1' [L1' HL']].
    change ((w :: L) ++ [x ++ a]) with (w :: (L ++ [x ++ a])).
    change ((w :: L) ++ [x]) with (w :: (L ++ [x])).
    rewrite HL in *. rewrite HL' in *.
    assert (Hm : mark P (w :: w1 :: L1)
                 = if P w w1 then w :: [] :: mark P (w1 :: L1)
                   else w :: mark P (w1 :: L1)) by reflexivity.
    rewrite Hm.
    destruct (P w w1).
    + exists (w ++ QUOTE :: QUOTE :: pre'). split.
      * rewrite join_cons_ne by discriminate.
        rewrite join_cons_ne by apply mark_not_nil.
        rewrite Hj. now rewrite <- app_assoc.
      * rewrite join_cons. apply quotes_added_app. now apply qa_double.
    + exists (w ++ QUOTE :: pre'). split.
      * rewrite join_cons_ne by apply mark_not_nil.
        rewrite Hj. now rewrite <- app_assoc.
      * rewrite join_cons. apply quotes_added_app. now apply qa_keep.
Qed.

Lemma mark_cons P (w : str) (M : list str) :
  M <> [] ->
  mark P (w :: M)
  = if P w (hd [] M) then w :: [] :: mark P M else w :: mark P M.
Proof. destruct M; [congruence | reflexivity]. Qed.

(** [mark] works piece by piece: across two pieces that [P] relates
    it puts one empty piece, and each side is marked on its own. *)
Lemma mark_at P (x y : str) (R : list str) : forall L : list str,
  P x y = true ->
  mark P (L ++ x :: y :: R) = mark P (L ++ [x]) ++ [] :: mark P (y :: R).
Proof.
  intros L HP. induction L as [|w L IH].
  - cbn [app]. rewrite mark_cons by discriminate. cbn [hd]. now rewrite HP.
  - change ((w :: L) ++ x :: y :: R) with (w :: (L ++ x :: y :: R)).
    change ((w :: L) ++ [x]) with (w :: (L ++ [x])).
    rewrite !mark_cons by (destruct L; discriminate).
    rewrite IH.
    replace (hd [] (L ++ x :: y :: R)) with (hd [] (L ++ [x]))
      by (destruct L; reflexivity).
    now destruct (P w (hd [] (L ++ [x]))).
Qed.
Lemma join_app_ne (sep : str) (A B : list str) :
  A <> [] -> B <> [] ->
  join sep (A ++ B) = join sep A ++ sep ++ join sep B.
Proof.
  intros HA HB. induction A as [|w A IH]; [congruence|].
  destruct A as [|w1 A].
  - cbn [app]. now rewrite join_cons_ne.
  - change ((w :: w1 :: A) ++ B) with (w :: ((w1 :: A) ++ B)).
    rewrite join_cons_ne by discriminate.
    rewrite IH by discriminate. rewrite join_cons.
    now rewrite <- !app_assoc.
Qed.

Lemma split_on_last (sep : char) (s : str) :
  split_on sep s
  = removelast (split_on sep s) ++ [last (split_on sep s) []].
Proof.
  apply app_removelast_last. rewrite split_on_head. discriminate.
Qed.

(** C6: wherever an entry of the table occurs in a text, the fixer
    puts its replacement, the entry with its quote doubled, at that
    place, and the text before and after differs from the input only by
    doubled quotes. *)
Theorem fix_apostrophes_doubles_every_occurrence
    (original replacement pre post : str) :
  In (original, replacement) apostrophe_fixes ->
  exists pre' post',
    fix_apostrophes (pre ++ original ++ post)
      = pre' ++ replacement ++ post' /\
    quotes_added pre pre' /\ quotes_added post post'.
Proof.
  intros Hin. rewrite contractions_in_halves in Hin.
  apply in_map_iff in Hin as [ab [Heq Hin]].
  injection Heq as <- <-.
  pose proof contraction_halves_good as Hgood.
  rewrite forallb_forall in Hgood. specialize (Hgood ab Hin).
  destruct (@good_halves_inv ab Hgood) as (Ha & Hb & Hqa & Hqb & Hn).
  rewrite fix_apostrophes_by_quote. unfold double_contraction_quotes.
  unfold with_quote, with_quotes.
  set (a := fst ab) in *. set (b := snd ab) in *.
  replace (pre ++ (a ++ QUOTE :: b) ++ post)
    with ((pre ++ a) ++ QUOTE :: (b ++ post))
    by (now rewrite <- !app_assoc).
  rewrite split_on_app_sep, (@split_on_free_r a Hqa pre),
    (@split_on_free_l b post Hqb).
  set (L := removelast (split_on QUOTE pre)).
  set (x := last (split_on QUOTE pre) []).
  set (y := hd [] (split_on QUOTE post)).
  set (R := tl (split_on QUOTE post)).
  rewrite <- app_assoc. cbn [app].
  assert (HP : in_contraction (x ++ a) (b ++ y) = true).
  { unfold in_contraction. apply existsb_exists. exists ab; split; [exact Hin|].
    unfold between. fold a b. now rewrite suffixb_app, prefixb_app. }
  rewrite (@mark_at in_contraction (x ++ a) (b ++ y) R L HP).
  destruct (@mark_before in_contraction a L x) as [pre' [Hj Hq]].
  exists pre', (join [QUOTE] (y :: tl (mark in_contraction ((b ++ y) :: R)))).
  split; [|split].
  - rewrite join_app_ne;
      [| destruct L; [apply mark_not_nil | cbn [app]; apply mark_not_nil]
       | discriminate].
    rewrite join_cons_ne by apply mark_not_nil.
    rewrite Hj, (mark_head in_contraction (b ++ y) R), join_app_head.
    cbn [tl]. now rewrite <- !app_assoc.
  - subst L x. rewrite <- split_on_last, join_split in Hq. exact Hq.
  - pose proof (@mark_after in_contraction R y (b ++ y)) as Hq'.
    subst y R. rewrite <- split_on_head, join_split in Hq'. exact Hq'.
Qed.

Lemma fix_apostrophes_doubles_every_occurrence_witness :
  exists pre' post',
    fix_apostrophes (u "I " ++ u "don't" ++ u " know if she'll come")
      = pre' ++ u "don''t" ++ post' /\
    quotes_added (u "I ") pre' /\
    quotes_added (u " know if she'll come") post'.
Proof.
  apply (@fix_apostrophes_doubles_every_occurrence
           (u "don't") (u "don''t") (u "I ") (u " know if she'll come")).
  vm_compute. left. reflexivity.
Defined.
(** ** The table of contractions is matched exactly *)

(** Across two pieces that [P] does not relate, [mark] puts nothing. *)
Lemma mark_not_at P (x y : str) (R : list str) : forall L : list str,
  P x y = false ->
  mark P (L ++ x :: y :: R) = mark P (L ++ [x]) ++ mark P (y :: R).
Proof.
  intros L HP. induction L as [|w L IH].
  - cbn [app]. rewrite mark_cons by discriminate. cbn [hd]. now rewrite HP.
  - change ((w :: L) ++ x :: y :: R) with (w :: (L ++ x :: y :: R)).
    change ((w :: L) ++ [x]) with (w :: (L ++ [x])).
    rewrite !mark_cons by (destruct L; discriminate).
    rewrite IH.
    replace (hd [] (L ++ x :: y :: R)) with (hd [] (L ++ [x]))
      by (destruct L; reflexivity).
    now destruct (P w (hd [] (L ++ [x]))).
Qed.

Lemma join_ends_with_last (sep x : str) : forall L : list str,
  exists p, join sep (L ++ [x]) = p ++ x.
Proof.
  induction L as [|w L [p Hp]].
  - exists []. reflexivity.
  - exists (w ++ sep ++ p).
    change ((w :: L) ++ [x]) with (w :: (L ++ [x])).
    rewrite join_cons_ne by (destruct L; discriminate).
    rewrite Hp. now rewrite <- !app_assoc.
Qed.

Lemma join_begins_with_head (sep y : str) (R : list str) :
  exists q, join sep (y :: R) = y ++ q.
Proof.
  destruct R as [|w R].
  - exists []. cbn [join]. now rewrite app_nil_r.
  - eexists. apply join_cons.
Qed.

Lemma suffixb_behind (a x : str) : forall p,
  suffixb a x = true -> suffixb a (p ++ x) = true.
Proof.
  induction p as [|c p IH]; intros H; [exact H|].
  cbn [app suffixb]. rewrite (IH H). apply orb_true_r.
Qed.

(** The quote of a contraction stays one when text is put before the
    contraction and after it. *)
Lemma in_contraction_ends (p x y q : str) :
  in_contraction x y = true -> in_contraction (p ++ x) (y ++ q) = true.
Proof.
  unfold in_contraction. intros H.
  apply existsb_exists in H as [ab [Hin Hb]].
  apply existsb_exists. exists ab. split; [exact Hin|].
  unfold between in *. apply andb_true_iff in Hb as [Ha Hb].
  rewrite (@suffixb_behind (fst ab) x p Ha).
  apply prefixb_spec in Hb as [t ->].
  rewrite <- app_assoc. apply prefixb_app.
Qed.

(** C10, as stated, fails: [She'll] is no entry of the table, its lower
    case form [she'll] is one, and yet its quote is doubled, because the
    quote of the entry [he'll] stands at the same place. *)
Lemma capitalised_contraction_changed :
  listed_contraction (u "She'll") = false /\
  listed_contraction (map to_lower (u "She'll")) = true /\
  in_contraction (u "She") (u "ll") = true /\
  fix_apostrophes (u "She'll") = u "She''ll" /\
  fix_apostrophes (u "She'll") <> u "She'll".
Proof.
  repeat split; try (vm_compute; reflexivity).
  vm_compute; discriminate.
Qed.

(** C10, amended: the entries are matched as exact substrings, case
    included.  A quote at which no entry has its own quote, the text
    before it ending with no first half of an entry or the text after
    it beginning with no second half, is left single: the result is the
    text before, that quote, and the text after, and either side differs
    from the input only by doubled quotes. *)
Theorem fix_apostrophes_exact_forms_only (before after : str) :
  in_contraction before after = false ->
  exists before' after',
    fix_apostrophes (before ++ QUOTE :: after) = before' ++ QUOTE :: after' /\
    quotes_added before before' /\ quotes_added after after'.
Proof.
  intros H. rewrite fix_apostrophes_by_quote. unfold double_contraction_quotes.
  pose proof (split_on_last QUOTE before) as EL.
  pose proof (split_on_head QUOTE after) as ER.
  set (L := removelast (split_on QUOTE before)) in EL.
  set (x := last (split_on QUOTE before) []) in EL.
  set (y := hd [] (split_on QUOTE after)) in ER.
  set (R := tl (split_on QUOTE after)) in ER.
  assert (Eb : join [QUOTE] (L ++ [x]) = before)
    by (rewrite <- EL; apply join_split).
  assert (Ea : join [QUOTE] (y :: R) = after)
    by (rewrite <- ER; apply join_split).
  rewrite split_on_app_sep, EL, ER, <- app_assoc. cbn [app].
  assert (HP : in_contraction x y = false).
  { destruct (in_contraction x y) eqn:E; [|reflexivity].
    destruct (@join_ends_with_last [QUOTE] x L) as [p Hp].
    destruct (@join_begins_with_head [QUOTE] y R) as [q Hq].
    rewrite <- H, <- Eb, <- Ea, Hp, Hq. symmetry.
    now apply in_contraction_ends. }
  rewrite (@mark_not_at in_contraction x y R L HP).
  destruct (@mark_before in_contraction [] L x) as [before' [Hj Hb]].
  rewrite !app_nil_r in Hj.
  exists before', (join [QUOTE] (y :: tl (mark in_contraction (y :: R)))).
  split; [|split].
  - rewrite join_app_ne;
      [| destruct L; [apply mark_not_nil | cbn [app]; apply mark_not_nil]
       | apply mark_not_nil].
    rewrite Hj, <- (mark_head in_contraction y R). reflexivity.
  - rewrite Eb in Hb. exact Hb.
  - pose proof (@mark_after in_contraction R y y) as Hq'.
    rewrite Ea in Hq'. exact Hq'.
Qed.

Lemma fix_apostrophes_exact_forms_only_witness :
  exists before' after',
    fix_apostrophes (u "Don" ++ QUOTE :: u "t do what's right")
      = before' ++ QUOTE :: after' /\
    quotes_added (u "Don") before' /\
    quotes_added (u "t do what's right") after'.
Proof.
  apply (@fix_apostrophes_exact_forms_only (u "Don") (u "t do what's right")).
  vm_compute. reflexivity.
Defined.
(** ** Occurrences in a text made of parts *)

Lemma prefixb_length (p s : str) :
  prefixb p s = true -> length p <= length s.
Proof.
  intros H; apply prefixb_spec in H as [t ->].
  rewrite length_app; lia.
Qed.

Lemma prefixb_app_long : forall (p w b : str),
  length p <= length w -> prefixb p (w ++ b) = prefixb p w.
Proof.
  induction p as [|x p IH]; intros [|c w] b Hl; try reflexivity.
  - simpl in Hl; lia.
  - cbn [app prefixb]. rewrite IH by (simpl in Hl; lia). reflexivity.
Qed.

Lemma prefixb_app_short : forall (w p b : str),
  length w < length p ->
  prefixb p (w ++ b)
  = str_eqb (firstn (length w) p) w && prefixb (skipn (length w) p) b.
Proof.
  induction w as [|c w IH]; intros p b Hl.
  - reflexivity.
  - destruct p as [|x p]; [simpl in Hl; lia|].
    cbn [app prefixb length firstn skipn str_eqb].
    rewrite IH by (simpl in Hl; lia). now rewrite andb_assoc.
Qed.

Lemma suffixb_cons (x : str) (c : char) (w : str) :
  suffixb x w = true -> suffixb x (c :: w) = true.
Proof. intros H. cbn [suffixb]. rewrite H. apply orb_true_r. Qed.

Lemma straddle_free_tail (p : str) (c : char) (a b : str) :
  straddle_free p (c :: a) b = true -> straddle_free p a b = true.
Proof.
  unfold straddle_free. rewrite !forallb_forall. intros H k Hk.
  specialize (H k Hk). apply negb_true_iff in H. apply negb_true_iff.
  destruct (suffixb (firstn k p) a) eqn:Hs; [|reflexivity].
  now rewrite (@suffixb_cons _ c _ Hs) in H.
Qed.

Lemma straddle_free_head (p a b : str) :
  straddle_free p a b = true -> a <> [] ->
  prefixb p (a ++ b) = prefixb p a.
Proof.
  intros H Ha.
  destruct (Nat.le_gt_cases (length p) (length a)) as [Hl|Hl];
    [now apply prefixb_app_long|].
  rewrite prefixb_app_short by exact Hl.
  assert (Hk : In (length a) (seq 1 (length p - 1))).
  { apply in_seq. destruct a; [congruence | simpl in *; lia]. }
  unfold straddle_free in H. rewrite forallb_forall in H.
  specialize (H _ Hk). apply negb_true_iff in H.
  assert (Hp : prefixb p a = false).
  { destruct (prefixb p a) eqn:E; [|reflexivity].
    apply prefixb_length in E. lia. }
  rewrite Hp.
  destruct (str_eqb (firstn (length a) p) a) eqn:He; [|reflexivity].
  assert (Hs : suffixb (firstn (length a) p) a = true)
    by (destruct a; cbn [suffixb]; now rewrite He).
  now rewrite Hs in H.
Qed.

(** Without an occurrence across the joint, the occurrences add up. *)
Lemma occurrences_app (p a b : str) :
  p <> [] -> straddle_free p a b = true ->
  occurrences p (a ++ b) = occurrences p a + occurrences p b.
Proof.
  intros Hp. induction a as [|c a IH]; intros H.
  - cbn [app occurrences]. destruct p; [congruence | reflexivity].
  - change ((c :: a) ++ b) with (c :: (a ++ b)).
    cbn [occurrences].
    change (c :: a ++ b) with ((c :: a) ++ b).
    rewrite (@straddle_free_head p (c :: a) b H) by discriminate.
    rewrite IH by (now apply straddle_free_tail in H). lia.
Qed.

(** A character that is not in [p] cuts the text in two. *)
Lemma prefixb_not_mem : forall (p w : str) (c : char) (b : str),
  mem_char p c = false -> prefixb p (w ++ c :: b) = prefixb p w.
Proof.
  induction p as [|x p IH]; intros [|y w] c b Hc; try reflexivity.
  - unfold mem_char in Hc. cbn [existsb] in Hc.
    apply orb_false_iff in Hc as [Hx _].
    cbn [app prefixb]. now rewrite N.eqb_sym, Hx.
  - unfold mem_char in Hc. cbn [existsb] in Hc.
    apply orb_false_iff in Hc as [_ Hc].
    cbn [app prefixb]. now rewrite (IH w c b Hc).
Qed.

Lemma occurrences_cut (p : str) (c : char) (b : str) :
  p <> [] -> mem_char p c = false ->
  forall a, occurrences p (a ++ c :: b) = occurrences p a + occurrences p b.
Proof.
  intros Hp Hc. induction a as [|y a IH].
  - cbn [app occurrences].
    replace (prefixb p (c :: b)) with false.
    + destruct p; [congruence | reflexivity].
    + symmetry. change (prefixb p ([] ++ c :: b) = false).
      rewrite prefixb_not_mem by exact Hc.
      destruct p; [congruence | reflexivity].
  - change ((y :: a) ++ c :: b) with (y :: (a ++ c :: b)).
    cbn [occurrences].
    change (y :: a ++ c :: b) with ((y :: a) ++ c :: b).
    rewrite prefixb_not_mem by exact Hc. rewrite IH. lia.
Qed.

Lemma occurrences_unlines (p : str) (ls : list str) :
  p <> [] -> mem_char p NL = false ->
  occurrences p (unlines ls) = list_sum (map (occurrences p) ls).
Proof.
  intros Hp Hc. induction ls as [|l ls IH].
  - cbn. destruct p; [congruence | reflexivity].
  - unfold unlines in *. cbn [flat_map map list_sum].
    rewrite <- app_assoc. cbn [app].
    rewrite occurrences_cut by assumption. now rewrite IH.
Qed.

(** A text without some character of [p] holds no occurrence of [p]
    and ends with no beginning of [p] in which that character is. *)
Lemma prefixb_missing_char (c : char) : forall (p t : str),
  mem_char p c = true -> mem_char t c = false -> prefixb p t = false.
Proof.
  induction p as [|x p IH]; intros [|y t] Hp Ht; try discriminate;
    try reflexivity.
  unfold mem_char in *. cbn [existsb prefixb] in *.
  apply orb_false_iff in Ht as [Hy Ht].
  destruct (N.eqb_spec x y) as [->|]; [|reflexivity].
  rewrite Hy in Hp. cbn [orb andb] in *. now apply IH.
Qed.

Lemma occurrences_missing_char (c : char) (p t : str) :
  mem_char p c = true -> mem_char t c = false -> occurrences p t = 0.
Proof.
  intros Hp. induction t as [|y t IH]; intros Ht.
  - cbn. now rewrite (@prefixb_missing_char c p [] Hp Ht).
  - cbn [occurrences]. rewrite (@prefixb_missing_char c p _ Hp Ht).
    unfold mem_char in Ht. cbn [existsb] in Ht.
    apply orb_false_iff in Ht as [_ Ht]. now rewrite IH.
Qed.

Lemma str_eqb_missing_char (c : char) (x t : str) :
  mem_char x c = true -> mem_char t c = false -> str_eqb x t = false.
Proof.
  intros Hx Ht. destruct (str_eqb x t) eqn:E; [|reflexivity].
  apply str_eqb_eq in E; subst. congruence.
Qed.

Lemma suffixb_missing_char (c : char) (x t : str) :
  mem_char x c = true -> mem_char t c = false -> suffixb x t = false.
Proof.
  intros Hx. induction t as [|y t IH]; intros Ht.
  - cbn [suffixb]. rewrite (@str_eqb_missing_char c x [] Hx Ht). reflexivity.
  - cbn [suffixb]. rewrite (@str_eqb_missing_char c x _ Hx Ht).
    unfold mem_char in Ht. cbn [existsb] in Ht.
    apply orb_false_iff in Ht as [_ Ht]. now rewrite IH.
Qed.
(** ** The occurrences of INSERT INTO in the script *)

Lemma INSERT_INTO_chars :
  INSERT_INTO = [73; 78; 83; 69; 82; 84; 32; 73; 78; 84; 79]%N.
Proof. reflexivity. Qed.

Lemma straddle_free_intro (p a b : str) :
  (forall k, 1 <= k < length p ->
     suffixb (firstn k p) a = false \/ prefixb (skipn k p) b = false) ->
  straddle_free p a b = true.
Proof.
  intros H. unfold straddle_free. apply forallb_forall. intros k Hk.
  apply in_seq in Hk. apply negb_true_iff, andb_false_iff, H. lia.
Qed.

(** After a word, that is a text without a space, an occurrence of
    INSERT INTO can only go on with its space. *)
Lemma straddle_free_word (t b : str) :
  mem_char t SPACE = false ->
  forallb (fun k => negb (prefixb (skipn k INSERT_INTO) b)) (seq 1 6) = true ->
  straddle_free INSERT_INTO t b = true.
Proof.
  intros Ht Hb. apply straddle_free_intro. intros k Hk.
  change (length INSERT_INTO) with 11 in Hk.
  destruct (le_lt_dec k 6) as [Hle|Hgt].
  - right. rewrite forallb_forall in Hb.
    apply negb_true_iff, Hb, in_seq. lia.
  - left. apply (@suffixb_missing_char SPACE); [|exact Ht].
    assert (Hc : k = 7 \/ k = 8 \/ k = 9 \/ k = 10) by lia.
    destruct Hc as [->|[->|[->| ->]]]; reflexivity.
Qed.

(** Before a text that does not begin with INTO, an occurrence can
    only be cut after its first word and space. *)
Lemma straddle_free_before (a b : str) :
  forallb (fun k => negb (suffixb (firstn k INSERT_INTO) a) || Nat.eqb k 7)
          (seq 1 10) = true ->
  prefixb (u "INTO") b = false ->
  straddle_free INSERT_INTO a b = true.
Proof.
  intros Ha Hb. apply straddle_free_intro. intros k Hk.
  change (length INSERT_INTO) with 11 in Hk.
  rewrite forallb_forall in Ha.
  assert (Hin : In k (seq 1 10)) by (apply in_seq; lia).
  specialize (Ha k Hin). apply orb_true_iff in Ha as [Ha|Ha].
  - left. now apply negb_true_iff in Ha.
  - right. apply Nat.eqb_eq in Ha; subst k. exact Hb.
Qed.

Lemma straddle_free_cut (a : str) (c : char) (b : str) :
  mem_char INSERT_INTO c = false ->
  straddle_free INSERT_INTO a (c :: b) = true.
Proof.
  intros Hc. apply straddle_free_intro. intros k Hk. right.
  change (length INSERT_INTO) with 11 in Hk.
  assert (Hm : mem_char (skipn k INSERT_INTO) c = false).
  { assert (Hk' : k = 1 \/ k = 2 \/ k = 3 \/ k = 4 \/ k = 5 \/ k = 6 \/
                  k = 7 \/ k = 8 \/ k = 9 \/ k = 10) by lia.
    revert Hc. rewrite INSERT_INTO_chars. unfold mem_char. cbn [existsb].
    rewrite !orb_false_iff. intros Hc.
    repeat (destruct Hk' as [->|Hk']); try subst k;
      cbn [skipn existsb]; rewrite ?orb_false_iff; tauto. }
  change (c :: b) with ([] ++ c :: b).
  rewrite prefixb_not_mem by exact Hm.
  assert (Hk' : k = 1 \/ k = 2 \/ k = 3 \/ k = 4 \/ k = 5 \/ k = 6 \/
                k = 7 \/ k = 8 \/ k = 9 \/ k = 10) by lia.
  repeat (destruct Hk' as [->|Hk']); try subst k; reflexivity.
Qed.

Lemma straddle_free_nil_r (a : str) : straddle_free INSERT_INTO a [] = true.
Proof.
  apply straddle_free_intro. intros k Hk. right.
  change (length INSERT_INTO) with 11 in Hk.
  assert (Hk' : k = 1 \/ k = 2 \/ k = 3 \/ k = 4 \/ k = 5 \/ k = 6 \/
                k = 7 \/ k = 8 \/ k = 9 \/ k = 10) by lia.
  repeat (destruct Hk' as [->|Hk']); try subst k; reflexivity.
Qed.

Lemma word_has_no_insert_into (t : str) :
  mem_char t SPACE = false -> occurrences INSERT_INTO t = 0.
Proof. apply occurrences_missing_char. reflexivity. Qed.

Lemma word_then_space (b : str) :
  prefixb (u "INTO") b = false ->
  forallb (fun k => negb (prefixb (skipn k INSERT_INTO) (SPACE :: b)))
          (seq 1 6) = true.
Proof.
  intros Hb. cbn [seq forallb]. rewrite !andb_true_iff.
  repeat split; try reflexivity.
  change (negb (prefixb (u "INTO") b) = true). now rewrite Hb.
Qed.

Section Script.
Variable t : str.
Hypothesis t_word : mem_char t SPACE = false.
Hypothesis t_not_into : prefixb (u "INTO") t = false.

(** A line [c ++ t ++ d] of the script, where [c] and [d] are texts of
    the template. *)
Lemma occurrences_line (c d : str) :
  forallb (fun k => negb (suffixb (firstn k INSERT_INTO) c) || Nat.eqb k 7)
          (seq 1 10) = true ->
  match d with
  | [] => True
  | x :: _ => mem_char (u "INTO") x = false
  end ->
  forallb (fun k => negb (prefixb (skipn k INSERT_INTO) d)) (seq 1 6) = true ->
  occurrences INSERT_INTO (c ++ t ++ d)
  = occurrences INSERT_INTO c + occurrences INSERT_INTO d.
Proof.
  intros Hc Hd Hd6.
  rewrite occurrences_app; [|discriminate|].
  - rewrite occurrences_app; [|discriminate|].
    + rewrite (@word_has_no_insert_into t t_word). reflexivity.
    + now apply straddle_free_word.
  - apply straddle_free_before; [exact Hc|].
    destruct d as [|x d]; [now rewrite app_nil_r|].
    now rewrite prefixb_not_mem.
Qed.

Ltac template_text :=
  vm_compute; first [exact I | reflexivity].

Ltac count_template :=
  repeat match goal with
         | |- context [occurrences INSERT_INTO (u ?s)] =>
             let v := eval vm_compute in (occurrences INSERT_INTO (u s)) in
             change (occurrences INSERT_INTO (u s)) with v
         end.

Lemma occurrences_script_head :
  list_sum (map (occurrences INSERT_INTO) (script_head t)) = 0.
Proof.
  unfold script_head. cbn [map list_sum].
  rewrite <- (app_nil_r t) at 1.
  rewrite !occurrences_line by template_text.
  count_template. reflexivity.
Qed.

Lemma occurrences_script_tail :
  list_sum (map (occurrences INSERT_INTO) (script_tail t)) = 0.
Proof.
  unfold script_tail. cbn [map list_sum].
  rewrite !occurrences_line by template_text.
  count_template. reflexivity.
Qed.

Lemma occurrences_script_insert (cl v : str) :
  prefixb (u "INTO") (cl ++ u " VALUES") = false ->
  list_sum (map (occurrences INSERT_INTO) (script_insert t cl v))
  = 1 + occurrences INSERT_INTO cl
    + occurrences INSERT_INTO (rstrip_chars [COMMA] v).
Proof.
  intros Hcl. unfold script_insert. cbn [map list_sum].
  (* the statement line *)
  rewrite (@occurrences_app INSERT_INTO (u "    INSERT INTO "));
    [|discriminate|].
  2:{ apply straddle_free_before; [template_text|].
      change (u " ") with [SPACE]. cbn [app].
      now rewrite prefixb_not_mem. }
  rewrite (@occurrences_app INSERT_INTO t); [|discriminate|].
  2:{ apply straddle_free_word; [exact t_word|].
      change (u " ") with [SPACE]. cbn [app].
      now apply word_then_space. }
  rewrite (@occurrences_app INSERT_INTO (u " ")); [|discriminate|].
  2:{ apply straddle_free_before; [template_text | exact Hcl]. }
  rewrite (@occurrences_app INSERT_INTO cl); [|discriminate|].
  2:{ apply straddle_free_intro. intros k Hk. right.
      change (length INSERT_INTO) with 11 in Hk.
      assert (Hk' : k = 1 \/ k = 2 \/ k = 3 \/ k = 4 \/ k = 5 \/ k = 6 \/
                    k = 7 \/ k = 8 \/ k = 9 \/ k = 10) by lia.
      repeat (destruct Hk' as [->|Hk']); try subst k; reflexivity. }
  (* the line of the values *)
  rewrite (@occurrences_app INSERT_INTO (u "    ")); [|discriminate|].
  2:{ apply straddle_free_intro. intros k Hk. left.
      change (length INSERT_INTO) with 11 in Hk.
      assert (Hk' : k = 1 \/ k = 2 \/ k = 3 \/ k = 4 \/ k = 5 \/ k = 6 \/
                    k = 7 \/ k = 8 \/ k = 9 \/ k = 10) by lia.
      repeat (destruct Hk' as [->|Hk']); try subst k; reflexivity. }
  rewrite (@occurrences_app INSERT_INTO (rstrip_chars [COMMA] v));
    [|discriminate|].
  2:{ change (u ";") with [SEMI]. now apply straddle_free_cut. }
  rewrite (@word_has_no_insert_into t t_word).
  count_template. unfold list_sum; cbn [fold_right]. lia.
Qed.
End Script.
Lemma column_list_not_into (t : str) (columns : list str) :
  prefixb (u "INTO") (column_list_of t columns ++ u " VALUES") = false.
Proof.
  unfold column_list_of. destruct columns as [|c cs].
  - destruct (contains (u "Addons") t); [reflexivity|].
    destruct (contains (u "Bio") t); reflexivity.
  - reflexivity.
Qed.

Lemma unlines_app (a b : list str) : unlines (a ++ b) = unlines a ++ unlines b.
Proof. unfold unlines. apply flat_map_app. Qed.

(** C7, as stated, fails: two statements without semicolons give a
    values block that holds the second statement, and the script holds
    INSERT INTO Bio twice. *)
Lemma script_with_two_inserts :
  occurrences (u "INSERT INTO Bio")
    (output_script (u "CombinedAddons")
       (u "INSERT INTO bio (id) VALUES (1) INSERT INTO Bio (id) VALUES (2)"))
  = 2 /\
  occurrences (u "INSERT INTO CombinedBio")
    (sql_server_content (u "CombinedBio") bio_columns
       (u "(1, 'a'), (2, 'see INSERT INTO CombinedBio')"))
  = 2.
Proof. split; vm_compute; reflexivity. Qed.

(** C7, amended: for a table name that is one word and does not begin
    with INTO, the script is the head of the template, one INSERT INTO
    statement with the values block stripped of its trailing commas,
    and the tail of the template; IDENTITY_INSERT is set ON in the head
    and OFF in the tail, whose last line is the SELECT TOP 5 query; the
    template brings one INSERT INTO, the others come from the column
    list and the values block. *)
Theorem script_has_one_insert_statement
    (t : str) (columns : list str) (v : str) :
  mem_char t SPACE = false ->
  prefixb (u "INTO") t = false ->
  let cl := column_list_of t columns in
  let script := sql_server_content t cl v in
  script
  = unlines (script_head t)
    ++ unlines [ u "    INSERT INTO " ++ t ++ u " " ++ cl ++ u " VALUES";
                 u "    " ++ rstrip_chars [COMMA] v ++ u ";" ]
    ++ unlines (script_tail t) /\
  In (u "SET IDENTITY_INSERT " ++ t ++ u " ON;") (script_head t) /\
  In (u "SET IDENTITY_INSERT " ++ t ++ u " OFF;") (script_tail t) /\
  last (script_tail t) []
  = u "SELECT TOP 5 * FROM " ++ t ++ u " ORDER BY internal_id DESC;" /\
  occurrences INSERT_INTO script
  = 1 + occurrences INSERT_INTO cl
    + occurrences INSERT_INTO (rstrip_chars [COMMA] v).
Proof.
  intros Hw Hi cl script. subst script.
  split; [|split; [|split; [|split]]].
  - unfold sql_server_content. now rewrite !unlines_app.
  - unfold script_head. cbn [In]. tauto.
  - unfold script_tail. cbn [In]. tauto.
  - reflexivity.
  - unfold sql_server_content.
    rewrite occurrences_unlines by (discriminate || reflexivity).
    rewrite !map_app, !list_sum_app.
    rewrite (@occurrences_script_head t Hw Hi),
      (@occurrences_script_tail t Hw Hi),
      (@occurrences_script_insert t Hw Hi cl v
         (column_list_not_into t columns)).
    lia.
Qed.

Lemma script_has_one_insert_statement_witness :
  occurrences INSERT_INTO
    (sql_server_content (u "CombinedBio")
       (column_list_of (u "CombinedBio") [])
       (u "(1, 'a', 'first'), (2, 'b', 'second'),"))
  = 1.
Proof.
  refine (proj2 (proj2 (proj2 (proj2
    (@script_has_one_insert_statement (u "CombinedBio") []
       (u "(1, 'a', 'first'), (2, 'b', 'second'),") _ _))))).
  - vm_compute; reflexivity.
  - vm_compute; reflexivity.
Defined.

(** ** What a replacement keeps *)

Lemma replace_aux_Forall (P : char -> Prop) (old new : str) :
  Forall P new ->
  forall s skip, Forall P s -> Forall P (replace_aux old new skip s).
Proof.
  intros Hn s. induction s as [|c t IH]; intros skip Hs; [constructor|].
  inversion Hs as [|? ? Hc Ht]; subst. cbn [replace_aux].
  destruct skip as [|k]; [|apply IH; exact Ht].
  destruct (prefixb old (c :: t)).
  - apply Forall_app. split; [exact Hn | apply IH; exact Ht].
  - constructor; [exact Hc | apply IH; exact Ht].
Qed.

Lemma replace_Forall (P : char -> Prop) (old new s : str) :
  old <> [] -> Forall P new -> Forall P s -> Forall P (replace old new s).
Proof.
  intros Ho Hn Hs. rewrite (@replace_not_empty old new s Ho).
  apply replace_aux_Forall; assumption.
Qed.

Lemma sub_aux_Forall (P : char -> Prop) fl r (repl : caps -> str) :
  (forall t c rest,
     Forall P t -> match_here fl r t = Some (c, rest) -> Forall P (repl c)) ->
  forall s skip, Forall P s -> Forall P (sub_aux fl r repl skip s).
Proof.
  intros Hr s. induction s as [|x t IH]; intros skip Hs; [constructor|].
  assert (Ht : Forall P t) by (inversion Hs; assumption).
  assert (Hx : P x) by (inversion Hs; assumption).
  cbn [sub_aux]. destruct skip as [|k]; [|apply IH; exact Ht].
  destruct (match_here fl r (x :: t)) as [[c rest]|] eqn:E.
  - destruct (length (x :: t) - length rest) as [|k].
    + constructor; [exact Hx | apply IH; exact Ht].
    + apply Forall_app. split; [exact (Hr _ _ _ Hs E) | apply IH; exact Ht].
  - constructor; [exact Hx | apply IH; exact Ht].
Qed.

(** A match that reads [pre] is replaced and the pass goes on after
    it; where nothing matches the character is kept. *)
Lemma sub_aux_match fl r (repl : caps -> str) (c : caps) (pre rest : str) :
  pre <> [] ->
  match_here fl r (pre ++ rest) = Some (c, rest) ->
  sub_aux fl r repl 0 (pre ++ rest) = repl c ++ sub_aux fl r repl 0 rest.
Proof.
  intros Hp E. destruct pre as [|x pre]; [contradiction|].
  cbn [app sub_aux]. cbn [app] in E. rewrite E.
  replace (length (x :: pre ++ rest) - length rest) with (S (length pre))
    by (cbn [length]; rewrite length_app; lia).
  rewrite sub_aux_skip. reflexivity.
Qed.

Lemma sub_aux_no_match fl r (repl : caps -> str) (x : char) (t : str) :
  match_here fl r (x :: t) = None ->
  sub_aux fl r repl 0 (x :: t) = x :: sub_aux fl r repl 0 t.
Proof. intros E. cbn [sub_aux]. rewrite E. reflexivity. Qed.

Lemma mem_char_Forall (c : char) (s : str) :
  mem_char s c = false <-> Forall (fun x => x <> c) s.
Proof.
  unfold mem_char. induction s as [|x t IH]; cbn [existsb].
  - split; [constructor | reflexivity].
  - rewrite orb_false_iff, IH. split.
    + intros [H1 H2]. constructor; [|exact H2].
      intros ->. rewrite N.eqb_refl in H1. discriminate.
    + intros H. inversion H as [|? ? Hx Ht]; subst. split; [|exact Ht].
      apply N.eqb_neq. congruence.
Qed.

(** A pattern that holds [c] does not occur in a text without [c]. *)
Lemma contains_missing_char (c : char) (p t : str) :
  mem_char p c = true -> mem_char t c = false -> contains p t = false.
Proof.
  intros Hp. induction t as [|x t IH]; intros Ht.
  - cbn [contains]. rewrite (@prefixb_missing_char c p [] Hp Ht). reflexivity.
  - cbn [contains]. rewrite (@prefixb_missing_char c p (x :: t) Hp Ht).
    cbn [orb]. apply IH. unfold mem_char in *. cbn [existsb] in Ht.
    apply orb_false_iff in Ht. apply Ht.
Qed.

(** ** Occurrences that a replacement removes, and those it cannot make *)

(** The characters of [new] are not characters of [p]. *)
Lemma prefixb_foreign_head (p new t : str) :
  p <> [] -> new <> [] ->
  Forall (fun c => mem_char p c = false) new ->
  prefixb p (new ++ t) = false.
Proof.
  intros Hp Hn Hf. destruct p as [|a p]; [contradiction|].
  destruct new as [|b new]; [contradiction|].
  inversion Hf as [|? ? Hb _]; subst. cbn [app prefixb].
  unfold mem_char in Hb. cbn [existsb] in Hb. apply orb_false_iff in Hb.
  destruct Hb as [Hb _]. rewrite N.eqb_sym, Hb. reflexivity.
Qed.

Lemma foreign_tail (a : char) (p new : str) :
  Forall (fun c => mem_char (a :: p) c = false) new ->
  Forall (fun c => mem_char p c = false) new.
Proof.
  apply Forall_impl. intros c H. unfold mem_char in *. cbn [existsb] in H.
  apply orb_false_iff in H. apply H.
Qed.

Section Foreign.
Variables old new : str.
Hypothesis old_not_empty : old <> [].
Hypothesis new_not_empty : new <> [].

Lemma prefixb_replace_inv : forall (p s : str),
  Forall (fun c => mem_char p c = false) new ->
  prefixb p (replace_aux old new 0 s) = true -> prefixb p s = true.
Proof.
  induction p as [|a p IH]; intros s Hf H; [reflexivity|].
  destruct s as [|c t]; [cbn in H; discriminate|].
  destruct (prefixb old (c :: t)) eqn:E.
  - apply prefixb_spec in E. destruct E as [t' E]. rewrite E in H.
    rewrite (@replace_aux_head old new t' old_not_empty) in H.
    rewrite prefixb_foreign_head in H; [discriminate| discriminate | exact new_not_empty | exact Hf].
  - rewrite (@replace_aux_step old new c t E) in H. cbn [prefixb] in H |- *.
    apply andb_true_iff in H. destruct H as [H1 H2]. rewrite H1. cbn [andb].
    apply IH; [exact (@foreign_tail a p new Hf) | exact H2].
Qed.

Lemma contains_foreign_head (p t : str) :
  p <> [] -> Forall (fun c => mem_char p c = false) new ->
  contains p t = false -> forall w, Forall (fun c => mem_char p c = false) w ->
  contains p (w ++ t) = false.
Proof.
  intros Hp _ Ht w. induction w as [|b w IH]; intros Hw; [exact Ht|].
  change ((b :: w) ++ t) with (b :: (w ++ t)). cbn [contains].
  change (b :: (w ++ t)) with ((b :: w) ++ t).
  rewrite (@prefixb_foreign_head p (b :: w) t Hp); [|discriminate|exact Hw].
  cbn [orb]. apply IH. inversion Hw; assumption.
Qed.

(** No occurrence of [p] is made by the replacement. *)
Lemma contains_replace_aux (p : str) :
  Forall (fun c => mem_char p c = false) new ->
  forall n s, length s <= n ->
  contains p s = false -> contains p (replace_aux old new 0 s) = false.
Proof.
  intros Hf. induction n as [|n IH]; intros s Hn Hs.
  - destruct s; [exact Hs | cbn in Hn; lia].
  - destruct s as [|c t]; [exact Hs|].
    assert (Hpne : p <> []).
    { intros ->. cbn in Hs. discriminate. }
    destruct (prefixb old (c :: t)) eqn:E.
    + apply prefixb_spec in E. destruct E as [t' E]. rewrite E.
      rewrite (@replace_aux_head old new t' old_not_empty).
      apply contains_foreign_head; [exact Hpne | exact Hf | | exact Hf].
      apply IH.
      * assert (L : length (c :: t) = length old + length t')
          by (rewrite E, length_app; reflexivity).
        destruct old; [contradiction|]. cbn [length] in *. lia.
      * rewrite E in Hs. exact (@contains_app_false_r p old t' Hs).
    + rewrite (@replace_aux_step old new c t E).
      destruct (@contains_cons_false p c t Hs) as [H1 H2].
      cbn [contains]. apply orb_false_iff. split.
      * destruct (prefixb p (c :: replace_aux old new 0 t)) eqn:F; [|reflexivity].
        rewrite <- (@replace_aux_step old new c t E) in F.
        apply prefixb_replace_inv in F; [congruence | exact Hf].
      * apply IH; [cbn in Hn; lia | exact H2].
Qed.

(** Every occurrence of [old] is gone after the replacement. *)
Lemma replace_aux_removes :
  Forall (fun c => mem_char old c = false) new ->
  forall n s, length s <= n -> contains old (replace_aux old new 0 s) = false.
Proof.
  intros Hf. induction n as [|n IH]; intros s Hn.
  - destruct s; [|cbn in Hn; lia]. cbn. destruct old; [contradiction|reflexivity].
  - destruct s as [|c t].
    + cbn. destruct old; [contradiction|reflexivity].
    + destruct (prefixb old (c :: t)) eqn:E.
      * apply prefixb_spec in E. destruct E as [t' E]. rewrite E.
        rewrite (@replace_aux_head old new t' old_not_empty).
        apply contains_foreign_head; [exact old_not_empty | exact Hf | | exact Hf].
        apply IH.
        assert (L : length (c :: t) = length old + length t')
          by (rewrite E, length_app; reflexivity).
        destruct old; [contradiction|]. cbn [length] in *. lia.
      * rewrite (@replace_aux_step old new c t E).
        cbn [contains]. apply orb_false_iff. split.
        -- destruct (prefixb old (c :: replace_aux old new 0 t)) eqn:F; [|reflexivity].
           rewrite <- (@replace_aux_step old new c t E) in F.
           apply prefixb_replace_inv in F; [congruence | exact Hf].
        -- apply IH. cbn in Hn. lia.
Qed.

End Foreign.

Lemma contains_replace (p old new s : str) :
  old <> [] -> new <> [] ->
  Forall (fun c => mem_char p c = false) new ->
  contains p s = false -> contains p (replace old new s) = false.
Proof.
  intros Ho Hn Hf Hs. rewrite (@replace_not_empty old new s Ho).
  exact (@contains_replace_aux old new Ho Hn p Hf (length s) s (le_n _) Hs).
Qed.

Lemma replace_removes (old new s : str) :
  old <> [] -> new <> [] ->
  Forall (fun c => mem_char old c = false) new ->
  contains old (replace old new s) = false.
Proof.
  intros Ho Hn Hf. rewrite (@replace_not_empty old new s Ho).
  exact (@replace_aux_removes old new Ho Hn Hf (length s) s (le_n _)).
Qed.

(** ** The text normalizer *)

Lemma match_here_spaces (s : str) :
  match_here no_flags spaces_re s
  = match s with
    | x :: t => if is_space x then Some ([], lstrip_by is_space t) else None
    | [] => None
    end.
Proof.
  unfold match_here, spaces_re. rewrite rmatch_plus_cls.
  destruct s as [|x t]; [reflexivity|]. destruct (is_space x); [|reflexivity].
  apply greedy_run_total. intros c s0. discriminate.
Qed.

Lemma collapse_space (x : char) (t : str) :
  is_space x = true ->
  collapse (x :: t) = SPACE :: collapse (lstrip_by is_space t).
Proof.
  intros Hx. destruct (lstrip_by_split is_space t) as [pre [E _]].
  unfold collapse, re_sub.
  transitivity (sub_aux no_flags spaces_re (fun _ => [SPACE]) 0
                  ((x :: pre) ++ lstrip_by is_space t)).
  { cbn [app]. rewrite <- E. reflexivity. }
  rewrite (@sub_aux_match no_flags spaces_re (fun _ => [SPACE]) []
             (x :: pre) (lstrip_by is_space t)); [reflexivity | discriminate |].
  rewrite match_here_spaces. cbn [app]. rewrite <- E, Hx. reflexivity.
Qed.

Lemma collapse_other (x : char) (t : str) :
  is_space x = false -> collapse (x :: t) = x :: collapse t.
Proof.
  intros Hx. unfold collapse, re_sub. apply sub_aux_no_match.
  rewrite match_here_spaces, Hx. reflexivity.
Qed.

Lemma lstrip_by_length p (s : str) : length (lstrip_by p s) <= length s.
Proof.
  induction s as [|x t IH]; [apply le_n|]. cbn [lstrip_by].
  destruct (p x); cbn [length]; lia.
Qed.

Lemma collapse_single_spaced (n : nat) : forall (s : str) (prev : bool),
  length s <= n ->
  (prev = true -> head_not is_space s = true) ->
  single_spaced prev (collapse s) = true.
Proof.
  induction n as [|n IH]; intros s prev Hn Hp.
  - destruct s; [reflexivity | cbn in Hn; lia].
  - destruct s as [|x t]; [reflexivity|]. destruct (is_space x) eqn:Hx.
    + rewrite (@collapse_space x t Hx). cbn [single_spaced].
      change (is_space SPACE) with true. cbn match. rewrite N.eqb_refl.
      destruct prev.
      * specialize (Hp eq_refl). cbn [head_not] in Hp. rewrite Hx in Hp.
        discriminate.
      * cbn [negb andb]. apply IH.
        -- pose proof (lstrip_by_length is_space t). cbn in Hn. lia.
        -- intros _. apply lstrip_by_head.
    + rewrite (@collapse_other x t Hx). cbn [single_spaced]. rewrite Hx.
      apply IH; [cbn in Hn; lia | discriminate].
Qed.

(** A text that is single-spaced is left as it is. *)
Lemma collapse_fixed (n : nat) : forall (s : str) (prev : bool),
  length s <= n -> single_spaced prev s = true -> collapse s = s.
Proof.
  induction n as [|n IH]; intros s prev Hn Hs.
  - destruct s; [reflexivity | cbn in Hn; lia].
  - destruct s as [|x t]; [reflexivity|]. cbn [single_spaced] in Hs.
    destruct (is_space x) eqn:Hx.
    + apply andb_true_iff in Hs. destruct Hs as [Hs Ht].
      apply andb_true_iff in Hs. destruct Hs as [Hs _].
      apply N.eqb_eq in Hs. subst x.
      rewrite (@collapse_space SPACE t Hx).
      assert (F : lstrip_by is_space t = t).
      { apply lstrip_by_fixed. destruct t as [|y t']; [reflexivity|].
        cbn [single_spaced] in Ht. cbn [head_not].
        destruct (is_space y); [|reflexivity].
        rewrite andb_false_r in Ht. discriminate. }
      rewrite F. f_equal. apply (IH t true); [cbn in Hn; lia | exact Ht].
    + rewrite (@collapse_other x t Hx). f_equal.
      apply (IH t false); [cbn in Hn; lia | exact Hs].
Qed.

Lemma single_spaced_word (w : str) : forall (t : str) (prev : bool),
  w <> [] -> forallb (fun c => negb (is_space c)) w = true ->
  single_spaced prev (w ++ t) = single_spaced false t.
Proof.
  induction w as [|c w IH]; intros t prev Hw Hf; [contradiction|].
  cbn [forallb] in Hf. apply andb_true_iff in Hf. destruct Hf as [Hc Hf].
  apply negb_true_iff in Hc. cbn [app single_spaced]. rewrite Hc.
  destruct w as [|d w]; [reflexivity|].
  apply IH; [discriminate | exact Hf].
Qed.

Lemma replace_single_spaced (old new : str) :
  old <> [] -> new <> [] ->
  forallb (fun c => negb (is_space c)) old = true ->
  forallb (fun c => negb (is_space c)) new = true ->
  forall n (s : str) (prev : bool), length s <= n ->
  single_spaced prev s = true ->
  single_spaced prev (replace_aux old new 0 s) = true.
Proof.
  intros Ho Hn Fo Fn. induction n as [|n IH]; intros s prev Hl Hs.
  - destruct s; [reflexivity | cbn in Hl; lia].
  - destruct s as [|c t]; [reflexivity|].
    destruct (prefixb old (c :: t)) eqn:E.
    + apply prefixb_spec in E. destruct E as [t' E]. rewrite E in Hs |- *.
      rewrite (@replace_aux_head old new t' Ho).
      rewrite (@single_spaced_word old t' prev Ho Fo) in Hs.
      rewrite (@single_spaced_word new _ prev Hn Fn).
      apply IH; [|exact Hs].
      assert (L : length (c :: t) = length old + length t')
        by (rewrite E, length_app; reflexivity).
      destruct old; [contradiction|]. cbn [length] in *. lia.
    + rewrite (@replace_aux_step old new c t E). cbn [single_spaced] in Hs |- *.
      destruct (is_space c).
      * apply andb_true_iff in Hs. destruct Hs as [Hs Ht]. rewrite Hs.
        cbn [andb]. apply IH; [cbn in Hl; lia | exact Ht].
      * apply IH; [cbn in Hl; lia | exact Hs].
Qed.

Lemma single_spaced_no_line_break (s : str) : forall prev,
  single_spaced prev s = true -> mem_char s NL = false.
Proof.
  unfold mem_char. induction s as [|c t IH]; intros prev Hs; [reflexivity|].
  cbn [single_spaced] in Hs. cbn [existsb]. apply orb_false_iff.
  destruct (is_space c) eqn:Hc.
  - apply andb_true_iff in Hs. destruct Hs as [Hs Ht].
    apply andb_true_iff in Hs. destruct Hs as [Hs _].
    apply N.eqb_eq in Hs. subst c. split; [reflexivity | exact (IH _ Ht)].
  - split; [|exact (IH _ Hs)].
    destruct (N.eqb_spec NL c) as [<-|]; [|reflexivity]. discriminate.
Qed.

Lemma prefixb_collapse_inv : forall (p s : str),
  mem_char p SPACE = false ->
  prefixb p (collapse s) = true -> prefixb p s = true.
Proof.
  induction p as [|a p IH]; intros s Hp H; [reflexivity|].
  unfold mem_char in Hp. cbn [existsb] in Hp. apply orb_false_iff in Hp.
  destruct Hp as [Ha Hp].
  destruct s as [|x t]; [cbn in H; discriminate|].
  destruct (is_space x) eqn:Hx.
  - rewrite (@collapse_space x t Hx) in H. cbn [prefixb] in H.
    rewrite N.eqb_sym, Ha in H. discriminate.
  - rewrite (@collapse_other x t Hx) in H. cbn [prefixb] in H |- *.
    apply andb_true_iff in H. destruct H as [H1 H2]. rewrite H1.
    cbn [andb]. exact (IH t Hp H2).
Qed.

Lemma contains_collapse (p : str) :
  mem_char p SPACE = false ->
  forall n (s : str), length s <= n ->
  contains p s = false -> contains p (collapse s) = false.
Proof.
  intros Hp. induction n as [|n IH]; intros s Hn Hs.
  - destruct s; [exact Hs | cbn in Hn; lia].
  - destruct s as [|x t]; [exact Hs|].
    destruct (@contains_cons_false p x t Hs) as [H1 H2].
    destruct (prefixb p (collapse (x :: t))) eqn:F.
    { apply prefixb_collapse_inv in F; [congruence | exact Hp]. }
    destruct (is_space x) eqn:Hx.
    + rewrite (@collapse_space x t Hx) in F |- *. cbn [contains].
      rewrite F. cbn [orb]. apply IH.
      * pose proof (lstrip_by_length is_space t). cbn in Hn. lia.
      * destruct (lstrip_by_split is_space t) as [pre [E _]].
        rewrite E in H2. exact (@contains_app_false_r p pre _ H2).
    + rewrite (@collapse_other x t Hx) in F |- *. cbn [contains].
      rewrite F. cbn [orb]. apply IH; [cbn in Hn; lia | exact H2].
Qed.

Lemma single_spaced_replace (old new s : str) :
  old <> [] -> new <> [] ->
  forallb (fun c => negb (is_space c)) old = true ->
  forallb (fun c => negb (is_space c)) new = true ->
  single_spaced false s = true ->
  single_spaced false (replace old new s) = true.
Proof.
  intros Ho Hn Fo Fn Hs. rewrite (@replace_not_empty old new s Ho).
  exact (@replace_single_spaced old new Ho Hn Fo Fn (length s) s false
           (le_n _) Hs).
Qed.

Ltac text_fact := first [discriminate | reflexivity | repeat constructor].

Lemma fix_newlines_single_spaced (text : str) :
  single_spaced false (fix_newlines_and_formatting text) = true /\
  mem_char (fix_newlines_and_formatting text) NL = false.
Proof.
  assert (H : single_spaced false (fix_newlines_and_formatting text) = true).
  { unfold fix_newlines_and_formatting.
    do 3 (apply single_spaced_replace;
          [text_fact|text_fact|text_fact|text_fact|]).
    apply (@collapse_single_spaced
             (length (replace [NL] [SPACE]
                        (replace [BACKSLASH; 110%N] [NL] text))));
      [apply le_n|discriminate]. }
  split; [exact H | exact (@single_spaced_no_line_break _ false H)].
Qed.

Lemma fix_newlines_no_sequence (text p : str) :
  In p rewritten_sequences ->
  contains p (fix_newlines_and_formatting text) = false.
Proof.
  intros Hp. unfold rewritten_sequences in Hp. cbn [In] in Hp.
  destruct Hp as [<-|[<-|[<-|[<-|[<-|[]]]]]].
  - unfold fix_newlines_and_formatting.
    do 3 (apply contains_replace; [text_fact|text_fact|text_fact|]).
    apply (@contains_collapse [BACKSLASH; 110%N] eq_refl
             (length (replace [NL] [SPACE]
                        (replace [BACKSLASH; 110%N] [NL] text))));
      [apply le_n|].
    apply contains_replace; [text_fact|text_fact|text_fact|].
    apply replace_removes; text_fact.
  - apply (@contains_missing_char NL); [reflexivity|].
    apply fix_newlines_single_spaced.
  - unfold fix_newlines_and_formatting.
    do 2 (apply contains_replace; [text_fact|text_fact|text_fact|]).
    apply replace_removes; text_fact.
  - unfold fix_newlines_and_formatting.
    apply contains_replace; [text_fact|text_fact|text_fact|].
    apply replace_removes; text_fact.
  - unfold fix_newlines_and_formatting.
    apply replace_removes; text_fact.
Qed.

(** ** Passes that only double quotes *)

Lemma quotes_added_apps (a a' : str) :
  quotes_added a a' ->
  forall b b', quotes_added b b' -> quotes_added (a ++ b) (a' ++ b').
Proof.
  induction 1 as [|c s s' _ IH|s s' _ IH]; intros b b' Hb; cbn [app].
  - exact Hb.
  - apply qa_keep. exact (IH b b' Hb).
  - apply qa_double. exact (IH b b' Hb).
Qed.

Lemma quotes_added_repeated (s s' : str) :
  quotes_added s s' -> quotes_repeated s s'.
Proof.
  induction 1 as [|c s s' _ IH|s s' _ IH].
  - apply qr_nil.
  - apply qr_keep. exact IH.
  - apply qr_again, qr_keep. exact IH.
Qed.

Lemma quotes_repeated_trans (s2 s3 : str) :
  quotes_repeated s2 s3 ->
  forall s1, quotes_repeated s1 s2 -> quotes_repeated s1 s3.
Proof.
  induction 1 as [|c s2 s3 _ IH|s2 s3 _ IH]; intros s1 H1.
  - exact H1.
  - inversion H1 as [|c' t1 t2 Ht|t1 t2 Ht]; subst.
    + apply qr_keep. exact (IH _ Ht).
    + apply qr_again. exact (IH _ Ht).
  - pose proof (IH _ H1) as H3.
    inversion H1 as [|c' t1 t2 Ht|t1 t2 Ht]; subst;
      apply qr_again; exact H3.
Qed.

Lemma replace_quote_doubles (body : str) :
  quotes_added body (replace [QUOTE] [QUOTE; QUOTE] body).
Proof.
  rewrite replace_not_empty by discriminate.
  induction body as [|c t IH]; [constructor|].
  destruct (N.eqb_spec QUOTE c) as [<-|Hc].
  - change (QUOTE :: t) with ([QUOTE] ++ t).
    rewrite replace_aux_head by discriminate. cbn [app].
    apply qa_double. exact IH.
  - rewrite replace_aux_step.
    + apply qa_keep. exact IH.
    + cbn [prefixb]. apply N.eqb_neq in Hc. rewrite Hc. reflexivity.
Qed.

Lemma fix_quotes_adds_quotes (n : nat) : forall s, length s <= n ->
  quotes_added s (sub_aux no_flags literal_re replace_quotes_in_string 0 s).
Proof.
  induction n as [|n IH]; intros s Hn.
  - destruct s; [constructor | cbn in Hn; lia].
  - destruct s as [|x t]; [constructor|].
    destruct (match_here no_flags literal_re (x :: t)) as [[c rest]|] eqn:E.
    + rewrite match_here_literal in E.
      destruct (N.eqb_spec x QUOTE) as [->|]; [|discriminate].
      destruct (scan_literal t) as [[body rest0]|] eqn:Es; [|discriminate].
      injection E as <- <-.
      pose proof (@scan_literal_split (length t) t body rest0 (le_n _) Es) as Et.
      assert (Em : match_here no_flags literal_re
                     ((QUOTE :: body ++ [QUOTE]) ++ rest0)
                   = Some ([(1, body)], rest0)).
      { cbn [app]. rewrite <- app_assoc. cbn [app]. rewrite <- Et.
        rewrite match_here_literal, N.eqb_refl, Es. reflexivity. }
      replace (QUOTE :: t) with ((QUOTE :: body ++ [QUOTE]) ++ rest0)
        by (cbn [app]; rewrite <- app_assoc; cbn [app]; rewrite <- Et;
            reflexivity).
      rewrite (@sub_aux_match no_flags literal_re replace_quotes_in_string
                 [(1, body)] (QUOTE :: body ++ [QUOTE]) rest0);
        [|discriminate|exact Em].
      unfold replace_quotes_in_string. cbn [group Nat.eqb app].
      apply qa_keep. rewrite <- !app_assoc. apply quotes_added_apps.
      * apply replace_quote_doubles.
      * cbn [app]. apply qa_keep. apply IH.
        assert (L : length t = length body + S (length rest0))
          by (rewrite Et, length_app; reflexivity).
        cbn [length] in Hn. lia.
    + rewrite (@sub_aux_no_match no_flags literal_re replace_quotes_in_string
                 x t E).
      apply qa_keep. apply IH. cbn in Hn. lia.
Qed.

Lemma fix_apostrophes_adds_quotes (s : str) :
  quotes_added s (fix_apostrophes s).
Proof.
  rewrite fix_apostrophes_by_quote. unfold double_contraction_quotes.
  rewrite <- (join_split QUOTE s) at 1.
  rewrite (split_on_head QUOTE s). rewrite mark_head. apply mark_after.
Qed.

(** ** The apostrophe fixer, applied twice *)

Lemma split_join (M : list str) : forall w : str,
  forallb quote_free (w :: M) = true ->
  split_on QUOTE (join [QUOTE] (w :: M)) = w :: M.
Proof.
  induction M as [|w1 M IH]; intros w H.
  - cbn [forallb] in H. apply andb_true_iff in H. destruct H as [H _].
    cbn [join]. exact (@split_on_free w H).
  - cbn [forallb] in H. apply andb_true_iff in H. destruct H as [Hw H].
    rewrite join_cons. cbn [app]. rewrite split_on_app_sep.
    rewrite (@split_on_free w Hw). rewrite (IH w1 H). reflexivity.
Qed.

Lemma mark_ext (P1 P2 : str -> str -> bool) :
  (forall a b, P1 a b = P2 a b) -> forall segs, mark P1 segs = mark P2 segs.
Proof.
  intros H segs. induction segs as [|w0 rest IH]; [reflexivity|].
  destruct rest as [|w1 rest]; [reflexivity|].
  cbn [mark] in *. rewrite H, IH. reflexivity.
Qed.

Lemma in_contraction_nil_r (w : str) : in_contraction w [] = false.
Proof.
  unfold in_contraction. pose proof contraction_halves_good as G.
  induction contraction_halves as [|ab l IH]; [reflexivity|].
  cbn [forallb] in G. apply andb_true_iff in G. destruct G as [G1 G2].
  cbn [existsb]. rewrite (@between_nil_r ab w G1). exact (IH G2).
Qed.

Lemma in_contraction_nil_l (w : str) : in_contraction [] w = false.
Proof.
  unfold in_contraction. pose proof contraction_halves_good as G.
  induction contraction_halves as [|ab l IH]; [reflexivity|].
  cbn [forallb] in G. apply andb_true_iff in G. destruct G as [G1 G2].
  cbn [existsb]. rewrite (@between_nil_l ab w G1). exact (IH G2).
Qed.

(** ** What [tcode_re] matches *)

Lemma lit_eq_no_flags (a x : char) : lit_eq no_flags a x = N.eqb a x.
Proof. reflexivity. Qed.

Lemma digit_is_plain (x : char) :
  is_digit x = true -> N.eqb QUOTE x = false.
Proof.
  unfold is_digit, in_range, QUOTE.
  rewrite orb_true_iff, !andb_true_iff, !N.leb_le, N.eqb_neq. lia.
Qed.

Lemma match_here_tcode (s : str) :
  match_here no_flags tcode_re s
  = match tcode_at s with
    | Some (ds, rest) => Some ([(1, ds)], rest)
    | None => None
    end.
Proof.
  unfold match_here, tcode_re, tcode_at. cbn [seqs].
  rewrite rmatch_seq, rmatch_lit.
  destruct s as [|q s0]; [reflexivity|].
  rewrite lit_eq_no_flags, (N.eqb_sym QUOTE q).
  destruct (N.eqb q QUOTE); [|destruct s0; reflexivity].
  rewrite rmatch_seq, rmatch_lit.
  destruct s0 as [|l s1]; [reflexivity|].
  rewrite lit_eq_no_flags, (N.eqb_sym 84%N l). cbn [andb].
  destruct (N.eqb l 84); [|reflexivity].
  rewrite rmatch_seq, rmatch_grp, rmatch_plus_cls.
  destruct s1 as [|y s2]; [reflexivity|].
  cbn [take_by lstrip_by]. destruct (is_digit y) eqn:Hy; [|reflexivity].
  rewrite greedy_run_longest.
  - rewrite rmatch_lit.
    pose proof (firstn_take_by is_digit (y :: s2)) as Hf.
    cbn [take_by lstrip_by] in Hf. rewrite Hy in Hf. rewrite Hf.
    destruct (lstrip_by is_digit s2) as [|z rest]; [reflexivity|].
    rewrite lit_eq_no_flags, (N.eqb_sym QUOTE z).
    destruct (N.eqb z QUOTE); reflexivity.
  - intros c0 z t0 Hz. rewrite rmatch_lit, lit_eq_no_flags.
    rewrite (@digit_is_plain z Hz). reflexivity.
Qed.

Lemma tcode_at_split (s ds rest : str) :
  tcode_at s = Some (ds, rest) ->
  s = QUOTE :: 84%N :: ds ++ QUOTE :: rest /\
  forallb is_digit ds = true /\ ds <> [].
Proof.
  unfold tcode_at. destruct s as [|q [|l s1]]; try discriminate.
  destruct (N.eqb_spec q QUOTE) as [->|]; [|discriminate].
  destruct (N.eqb_spec l 84) as [->|]; [|discriminate]. cbn [andb].
  pose proof (take_lstrip is_digit s1) as E.
  pose proof (take_by_forallb is_digit s1) as F.
  destruct (take_by is_digit s1) as [|d ds0]; [discriminate|].
  destruct (lstrip_by is_digit s1) as [|y rest0]; [discriminate|].
  destruct (N.eqb_spec y QUOTE) as [->|]; [|discriminate].
  intros H. injection H as <- <-. rewrite E.
  split; [reflexivity|]. split; [exact F | discriminate].
Qed.

(** ** The business terms *)

Lemma tcode_adds_quotes (n : nat) : forall s, length s <= n ->
  quotes_added s
    (sub_aux no_flags tcode_re (fun g => u "''T" ++ group 1 g ++ u "''") 0 s).
Proof.
  induction n as [|n IH]; intros s Hn.
  - destruct s; [constructor | cbn in Hn; lia].
  - destruct s as [|x t]; [constructor|].
    destruct (match_here no_flags tcode_re (x :: t)) as [[c rest]|] eqn:E.
    + pose proof E as E'. rewrite match_here_tcode in E'.
      destruct (tcode_at (x :: t)) as [[ds rest0]|] eqn:Et; [|discriminate].
      injection E' as <- <-.
      destruct (@tcode_at_split (x :: t) ds rest0 Et) as [Es _].
      assert (Ea : x :: t = (QUOTE :: 84%N :: ds ++ [QUOTE]) ++ rest0).
      { rewrite Es. cbn [app]. rewrite <- app_assoc. reflexivity. }
      rewrite Ea in E |- *.
      rewrite (@sub_aux_match no_flags tcode_re _ [(1, ds)]
                 (QUOTE :: 84%N :: ds ++ [QUOTE]) rest0);
        [|discriminate|exact E].
      cbn [group Nat.eqb]. change (u "''T") with [QUOTE; QUOTE; 84%N].
      change (u "''") with [QUOTE; QUOTE]. cbn [app].
      apply qa_double. apply qa_keep. rewrite <- !app_assoc.
      apply quotes_added_app. cbn [app]. apply qa_double. apply IH.
      assert (L : length (x :: t) = S (S (length ds + S (length rest0))))
        by (rewrite Es; cbn [length]; rewrite length_app; reflexivity).
      cbn [length] in L, Hn. lia.
    + rewrite (@sub_aux_no_match no_flags tcode_re _ x t E).
      apply qa_keep. apply IH. cbn in Hn. lia.
Qed.

(** A replacement that puts a second quote after the quote of [old]. *)
Lemma replace_adds_quote (a b : str) (n : nat) : forall s, length s <= n ->
  quotes_added s
    (replace_aux (a ++ QUOTE :: b) (a ++ QUOTE :: QUOTE :: b) 0 s).
Proof.
  assert (Ho : a ++ QUOTE :: b <> []) by (destruct a; discriminate).
  induction n as [|n IH]; intros s Hn.
  - destruct s; [constructor | cbn in Hn; lia].
  - destruct s as [|c t]; [constructor|].
    destruct (prefixb (a ++ QUOTE :: b) (c :: t)) eqn:E.
    + apply prefixb_spec in E. destruct E as [t' E]. rewrite E.
      rewrite (@replace_aux_head _ _ t' Ho). rewrite <- !app_assoc.
      apply quotes_added_app. cbn [app]. apply qa_double.
      apply quotes_added_app. apply IH.
      assert (L : length (c :: t) = length (a ++ QUOTE :: b) + length t')
        by (rewrite E, length_app; reflexivity).
      rewrite length_app in L. cbn [length] in L, Hn. lia.
    + rewrite (@replace_aux_step _ _ c t E). apply qa_keep. apply IH.
      cbn in Hn. lia.
Qed.

(** A replacement of a text by itself. *)
Lemma replace_same (old : str) (n : nat) : forall s, length s <= n ->
  replace old old s = s.
Proof.
  destruct old as [|o old].
  - intros s _. unfold replace. cbn [app].
    induction s as [|c t IH]; [reflexivity|]. cbn [flat_map app].
    rewrite IH. reflexivity.
  - unfold replace. induction n as [|n IH]; intros s Hn.
    + destruct s; [reflexivity | cbn in Hn; lia].
    + destruct s as [|c t]; [reflexivity|].
      destruct (prefixb (o :: old) (c :: t)) eqn:E.
      * apply prefixb_spec in E. destruct E as [t' E]. rewrite E.
        rewrite replace_aux_head by discriminate. f_equal. apply IH.
        assert (L : length (c :: t) = length (o :: old) + length t')
          by (rewrite E, length_app; reflexivity).
        cbn [length] in L, Hn. lia.
      * rewrite (@replace_aux_step _ _ c t E). f_equal. apply IH.
        cbn in Hn. lia.
Qed.

Lemma quotes_added_lacks (c : char) (s s' : str) :
  quotes_added s s' -> c <> QUOTE ->
  mem_char s c = false -> mem_char s' c = false.
Proof.
  unfold mem_char. intros H Hc. apply N.eqb_neq in Hc.
  induction H as [|x s s' _ IH|s s' _ IH]; cbn [existsb]; intros Hs.
  - reflexivity.
  - apply orb_false_iff in Hs. destruct Hs as [H1 H2].
    rewrite H1, (IH H2). reflexivity.
  - apply orb_false_iff in Hs. destruct Hs as [H1 H2].
    rewrite Hc, (IH H2). reflexivity.
Qed.

Lemma quotes_added_quote_free (s s' : str) :
  quotes_added s s' -> mem_char s QUOTE = false -> s' = s.
Proof.
  unfold mem_char.
  induction 1 as [|x s s' _ IH|s s' _ IH]; cbn [existsb]; intros Hs.
  - reflexivity.
  - apply orb_false_iff in Hs. destruct Hs as [_ H2]. rewrite (IH H2).
    reflexivity.
  - rewrite N.eqb_refl in Hs. discriminate.
Qed.

Lemma replace_lacks (c : char) (old new s : str) :
  old <> [] -> mem_char new c = false -> mem_char s c = false ->
  mem_char (replace old new s) c = false.
Proof.
  rewrite !mem_char_Forall. apply replace_Forall.
Qed.

Lemma collapse_lacks (c : char) (s : str) :
  c <> SPACE -> mem_char s c = false -> mem_char (collapse s) c = false.
Proof.
  intros Hc. rewrite !mem_char_Forall. unfold collapse, re_sub.
  apply sub_aux_Forall. intros _ _ _ _ _. constructor; [congruence|constructor].
Qed.

Lemma mem_char_incl (c : char) (small big : str) :
  incl small big -> mem_char big c = false -> mem_char small c = false.
Proof.
  intros Hi Hb. unfold mem_char in *.
  destruct (existsb (N.eqb c) small) eqn:E; [|reflexivity].
  apply existsb_exists in E. destruct E as [x [Hx E]].
  rewrite <- Hb. symmetry. apply existsb_exists. exists x.
  split; [exact (Hi x Hx) | exact E].
Qed.

Ltac among := intros ? ?; cbn in *; tauto.

Lemma fix_business_terms_steps (s : str) :
  exists t2 t3,
    quotes_added s t2 /\ quotes_added t2 t3 /\
    fix_business_terms s
    = replace (u "\'") (u "''") (replace (u "kids\'") (u "kids''") t3).
Proof.
  exists (replace (u "UAE's") (u "UAE''s") s).
  exists (re_sub no_flags tcode_re (fun g => u "''T" ++ group 1 g ++ u "''")
            (replace (u "UAE's") (u "UAE''s") s)).
  split; [|split].
  - rewrite replace_not_empty by discriminate.
    exact (@replace_adds_quote (u "UAE") (u "s") (length s) s (le_n _)).
  - apply (@tcode_adds_quotes (length (replace (u "UAE's") (u "UAE''s") s))).
    apply le_n.
  - unfold fix_business_terms.
    rewrite (@replace_same (u "e&") (length s) s (le_n _)). reflexivity.
Qed.

Lemma fix_business_terms_lacks (c : char) (s : str) :
  mem_char (u "kids''") c = false ->
  mem_char s c = false -> mem_char (fix_business_terms s) c = false.
Proof.
  intros Hc Hs. destruct (fix_business_terms_steps s) as [t2 [t3 [H2 [H3 ->]]]].
  assert (Hq : c <> QUOTE).
  { intros ->. discriminate Hc. }
  apply replace_lacks; [discriminate| |].
  { apply (@mem_char_incl c _ (u "kids''")); [among | exact Hc]. }
  apply replace_lacks; [discriminate|exact Hc|].
  apply (@quotes_added_lacks c t2 t3 H3 Hq).
  exact (@quotes_added_lacks c s t2 H2 Hq Hs).
Qed.

Lemma fix_business_terms_without_backslash (s : str) :
  mem_char s BACKSLASH = false ->
  quotes_repeated s (fix_business_terms s) /\
  mem_char (fix_business_terms s) BACKSLASH = false.
Proof.
  intros Hs. split; [|apply fix_business_terms_lacks; [reflexivity|exact Hs]].
  destruct (fix_business_terms_steps s) as [t2 [t3 [H2 [H3 ->]]]].
  assert (Hb : mem_char t3 BACKSLASH = false).
  { apply (@quotes_added_lacks BACKSLASH t2 t3 H3); [discriminate|].
    apply (@quotes_added_lacks BACKSLASH s t2 H2); [discriminate|exact Hs]. }
  rewrite (@replace_absent (u "kids\'") (u "kids''") t3)
    by (apply (@contains_missing_char BACKSLASH); [reflexivity|exact Hb]).
  rewrite (@replace_absent (u "\'") (u "''") t3)
    by (apply (@contains_missing_char BACKSLASH); [reflexivity|exact Hb]).
  apply (@quotes_repeated_trans t2 t3 (@quotes_added_repeated t2 t3 H3)).
  exact (@quotes_added_repeated s t2 H2).
Qed.

Lemma fix_business_terms_quote_free (s : str) :
  mem_char s QUOTE = false -> fix_business_terms s = s.
Proof.
  intros Hs. destruct (fix_business_terms_steps s) as [t2 [t3 [H2 [H3 ->]]]].
  pose proof (@quotes_added_quote_free s t2 H2 Hs) as ->.
  pose proof (@quotes_added_quote_free s t3 H3 Hs) as ->.
  rewrite (@replace_absent (u "kids\'") (u "kids''") s)
    by (apply (@contains_missing_char QUOTE); [reflexivity|exact Hs]).
  apply replace_absent.
  apply (@contains_missing_char QUOTE); [reflexivity|exact Hs].
Qed.

(** ** The cleaning chain *)

Lemma fix_newlines_lacks (c : char) (s : str) :
  mem_char (NL :: SPACE :: u "(c)(R)(TM)") c = false ->
  mem_char s c = false ->
  mem_char (fix_newlines_and_formatting s) c = false.
Proof.
  intros Hc Hs. unfold fix_newlines_and_formatting.
  do 3 (apply replace_lacks;
        [discriminate
        | apply mem_char_incl with (big := NL :: SPACE :: u "(c)(R)(TM)");
          [among | exact Hc]
        |]).
  change (re_sub no_flags spaces_re (fun _ => [SPACE])
            (replace [NL] [SPACE] (replace [BACKSLASH; 110%N] [NL] s)))
    with (collapse (replace [NL] [SPACE] (replace [BACKSLASH; 110%N] [NL] s))).
  apply collapse_lacks.
  { intros ->. discriminate Hc. }
  do 2 (apply replace_lacks;
        [discriminate
        | apply mem_char_incl with (big := NL :: SPACE :: u "(c)(R)(TM)");
          [among | exact Hc]
        |]).
  exact Hs.
Qed.

Lemma fix_quotes_lacks_backslash (s : str) :
  mem_char s BACKSLASH = false -> fix_quotes_and_special_chars s = s.
Proof.
  intros Hs. apply (@fix_quotes_unchanged (length s) s (le_n _)).
  apply (@contains_missing_char BACKSLASH); [reflexivity|exact Hs].
Qed.

Lemma clean_values_quote_free (s : str) :
  mem_char s QUOTE = false -> clean_values s = fix_newlines_and_formatting s.
Proof.
  intros Hs. unfold clean_values.
  pose proof (@fix_newlines_lacks QUOTE s eq_refl Hs) as Hn.
  set (o := fix_newlines_and_formatting s) in *.
  rewrite (@quotes_added_quote_free o _ (fix_apostrophes_adds_quotes o) Hn).
  rewrite (@fix_business_terms_quote_free o Hn).
  exact (@quotes_added_quote_free o _
           (@fix_quotes_adds_quotes (length o) o (le_n _)) Hn).
Qed.

Lemma clean_values_without_backslash (s : str) :
  mem_char s BACKSLASH = false ->
  clean_values s
  = fix_business_terms (fix_apostrophes (fix_newlines_and_formatting s)) /\
  quotes_repeated (fix_newlines_and_formatting s) (clean_values s).
Proof.
  intros Hs. unfold clean_values.
  pose proof (@fix_newlines_lacks BACKSLASH s eq_refl Hs) as Hn.
  set (o := fix_newlines_and_formatting s) in *.
  pose proof (fix_apostrophes_adds_quotes o) as Ha.
  assert (Hb : mem_char (fix_apostrophes o) BACKSLASH = false).
  { apply (@quotes_added_lacks BACKSLASH o _ Ha); [discriminate|exact Hn]. }
  destruct (@fix_business_terms_without_backslash _ Hb) as [Hw Hc].
  rewrite (@fix_quotes_lacks_backslash _ Hc).
  split; [reflexivity|].
  apply (@quotes_repeated_trans _ _ Hw).
  exact (@quotes_added_repeated o _ Ha).
Qed.

Lemma clean_values_no_line_break (s : str) :
  mem_char (clean_values s) NL = false.
Proof.
  unfold clean_values.
  assert (Hn : mem_char (fix_newlines_and_formatting s) NL = false)
    by apply fix_newlines_single_spaced.
  set (o := fix_newlines_and_formatting s) in *.
  pose proof (fix_apostrophes_adds_quotes o) as Ha.
  assert (Hb : mem_char (fix_apostrophes o) NL = false).
  { apply (@quotes_added_lacks NL o _ Ha); [discriminate|exact Hn]. }
  pose proof (@fix_business_terms_lacks NL _ eq_refl Hb) as Hc.
  set (b := fix_business_terms (fix_apostrophes o)) in *.
  apply (@quotes_added_lacks NL b _
           (@fix_quotes_adds_quotes (length b) b (le_n _)));
    [discriminate|exact Hc].
Qed.

Lemma count_bol_inside_line fl r (s : str) :
  mem_char s NL = false ->
  forall skip, count_bol_aux fl r false skip s = 0.
Proof.
  unfold mem_char. induction s as [|x t IH]; intros Hs skip; [reflexivity|].
  cbn [existsb] in Hs. apply orb_false_iff in Hs. destruct Hs as [Hx Ht].
  rewrite N.eqb_sym in Hx. cbn [count_bol_aux]. rewrite Hx.
  destruct skip; apply IH; exact Ht.
Qed.

Lemma count_bol_one_line fl r (s : str) :
  mem_char s NL = false -> findall_bol_count fl r s <= 1.
Proof.
  unfold findall_bol_count. destruct s as [|x t]; [intros _; apply le_0_n|].
  intros Hs. assert (Ht : mem_char t NL = false).
  { unfold mem_char in *. cbn [existsb] in Hs. apply orb_false_iff in Hs.
    apply Hs. }
  assert (Hx : N.eqb x NL = false).
  { unfold mem_char in Hs. cbn [existsb] in Hs. apply orb_false_iff in Hs.
    rewrite N.eqb_sym. apply Hs. }
  cbn [count_bol_aux]. rewrite Hx.
  destruct (match_here fl r (x :: t)) as [[c rest]|].
  - destruct (length (x :: t) - length rest);
      rewrite (@count_bol_inside_line fl r t Ht); lia.
  - rewrite (@count_bol_inside_line fl r t Ht). lia.
Qed.

(** ** The values block is a piece of the input *)

Lemma lit_prefix_split fl (w : str) : forall s t,
  lit_prefix fl w s = Some t -> exists kw, s = kw ++ t.
Proof.
  induction w as [|a w IH]; intros s t H.
  - cbn in H. injection H as ->. exists []. reflexivity.
  - cbn [lit_prefix] in H. destruct s as [|x s]; [discriminate|].
    destruct (lit_eq fl a x); [|discriminate].
    destruct (IH s t H) as [kw ->]. exists (x :: kw). reflexivity.
Qed.

Lemma after_values_keyword_split (s r : str) :
  after_values_keyword s = Some r -> exists pre, s = pre ++ r.
Proof.
  unfold after_values_keyword. intros H.
  destruct (lit_prefix values_flags (u "VALUES") s) as [[|x t]|] eqn:E;
    try discriminate.
  destruct (is_space x); [|discriminate]. injection H as <-.
  destruct (@lit_prefix_split values_flags (u "VALUES") s (x :: t) E)
    as [kw ->].
  destruct (lstrip_by_split is_space t) as [ws [Et _]].
  exists (kw ++ x :: ws). rewrite <- app_assoc. cbn [app]. rewrite <- Et.
  reflexivity.
Qed.

Lemma find_values_split (s : str) : forall r,
  find_values s = Some r -> exists pre, s = pre ++ r.
Proof.
  induction s as [|x t IH]; intros r H; cbn [find_values] in H.
  - destruct (after_values_keyword []) eqn:E; [|discriminate].
    injection H as ->. exact (@after_values_keyword_split [] r E).
  - destruct (after_values_keyword (x :: t)) eqn:E.
    + injection H as ->. exact (@after_values_keyword_split (x :: t) r E).
    + destruct (IH r H) as [pre ->]. exists (x :: pre). reflexivity.
Qed.

Lemma values_span_split (s : str) : exists post, s = values_span s ++ post.
Proof.
  induction s as [|x t [post IH]]; [exists []; reflexivity|].
  cbn [values_span]. destruct (values_end (x :: t)).
  - exists (x :: t). reflexivity.
  - exists post. cbn [app]. rewrite <- IH. reflexivity.
Qed.

Lemma strip_by_split p (x : str) :
  exists pre post, x = pre ++ strip_by p x ++ post.
Proof.
  unfold strip_by. destruct (lstrip_by_split p x) as [pre [E _]].
  destruct (rstrip_by_split p (lstrip_by p x)) as [post [F _]].
  exists pre, post. rewrite <- F. exact E.
Qed.

Lemma values_block_split (content : str) :
  exists pre post, content = pre ++ values_block content ++ post.
Proof.
  unfold values_block.
  destruct (find_values content) as [s1|] eqn:E;
    [|apply strip_by_split].
  destruct (@find_values_split content s1 E) as [p1 ->].
  destruct (values_span_split s1) as [q1 Hs].
  destruct (strip_by_split is_space (values_span s1)) as [p2 [q2 Hv]].
  exists (p1 ++ p2), (q2 ++ q1). unfold strip.
  rewrite <- !app_assoc. f_equal. rewrite Hs at 1. rewrite Hv at 1.
  rewrite <- !app_assoc. reflexivity.
Qed.

Lemma values_block_stripped (content : str) :
  strip (values_block content) = values_block content.
Proof.
  unfold values_block, strip.
  destruct (find_values content); apply strip_by_idem.
Qed.

Lemma search_values_found (content : str) :
  re_search values_flags values_re content <> None ->
  exists s1, find_values content = Some s1.
Proof.
  unfold re_search. intros H. pose proof (search_values content 0) as E.
  destruct (search_from values_flags values_re 0 content) as [[[p g] r]|];
    [|contradiction].
  destruct (find_values content) as [s1|]; [|discriminate].
  exists s1. reflexivity.
Qed.

Lemma values_block_no_semicolon (content s1 : str) :
  find_values content = Some s1 ->
  mem_char (values_block content) SEMI = false.
Proof.
  intros E. unfold values_block. rewrite E. apply mem_char_Forall.
  unfold strip. apply strip_by_Forall.
  pose proof (values_span_no_semicolon s1) as H.
  revert H. apply Forall_impl. intros c Hc ->. discriminate Hc.
Qed.

(** ** The detected table and columns *)

Lemma find_insert_statement (s : str) : forall name cols,
  find_insert s = Some (name, cols) ->
  exists t rest, insert_statement t = Some (name, cols, rest).
Proof.
  induction s as [|x t IH]; intros name cols H; cbn [find_insert] in H.
  - destruct (insert_statement []) as [[[n c] r]|] eqn:E; [|discriminate].
    injection H as -> ->. exists [], r. exact E.
  - destruct (insert_statement (x :: t)) as [[[n c] r]|] eqn:E.
    + injection H as -> ->. exists (x :: t), r. exact E.
    + exact (IH name cols H).
Qed.

Lemma search_insert_found (content : str) :
  re_search insert_flags insert_re content <> None ->
  exists name cols, find_insert content = Some (name, cols).
Proof.
  unfold re_search. intros H. pose proof (search_insert content 0) as E.
  destruct (search_from insert_flags insert_re 0 content) as [[[p g] r]|];
    [|contradiction].
  exists (group 1 g), (group 2 g). symmetry. exact E.
Qed.

Lemma split_on_Forall (P : char -> Prop) (sep : char) (s : str) :
  Forall P s ->
  Forall (Forall (fun c => P c /\ c <> sep)) (split_on sep s).
Proof.
  induction s as [|c t IH]; intros H.
  - repeat constructor.
  - inversion H as [|? ? Hc Ht]; subst. specialize (IH Ht).
    cbn [split_on]. destruct (N.eqb_spec c sep) as [->|Hn].
    + constructor; [constructor | exact IH].
    + destruct (split_on sep t) as [|w ws].
      * repeat constructor; assumption.
      * inversion IH as [|? ? Hw Hws]; subst.
        constructor; [|exact Hws]. constructor; [split; assumption|exact Hw].
Qed.

Lemma assoc_In (c : char) (m : list (N * list N)) (v : str) :
  assoc c m = Some v -> In (c, v) m.
Proof.
  induction m as [|[k w] m IH]; [discriminate|]. cbn [assoc].
  destruct (N.eqb_spec c k) as [->|_].
  - intros H. injection H as ->. left. reflexivity.
  - intros H. right. exact (IH H).
Qed.

(** No case mapping gives an underscore. *)
Lemma image_no_underscore (m : list (N * list N)) (c : char) :
  forallb (fun kv => negb (mem_char (snd kv) UNDERSCORE)) m = true ->
  c <> UNDERSCORE ->
  Forall (fun d => d <> UNDERSCORE)
         match assoc c m with
         | Some v => v
         | None => [c]
         end.
Proof.
  intros Hm Hc. destruct (assoc c m) as [v|] eqn:E.
  - apply assoc_In in E. rewrite forallb_forall in Hm.
    specialize (Hm _ E). cbn [snd] in Hm. apply negb_true_iff in Hm.
    apply mem_char_Forall. exact Hm.
  - constructor; [exact Hc | constructor].
Qed.

Lemma lower_from_no_underscore (s : str) : forall before,
  Forall (fun d => d <> UNDERSCORE) s ->
  Forall (fun d => d <> UNDERSCORE) (lower_from before s).
Proof.
  induction s as [|c t IH]; intros before H; [constructor|].
  inversion H as [|? ? Hc Ht]; subst. cbn [lower_from].
  apply Forall_app. split; [|exact (IH _ Ht)].
  destruct (N.eqb c 931).
  - constructor; [|constructor].
    destruct (final_sigma before t); discriminate.
  - apply image_no_underscore; [vm_compute; reflexivity | exact Hc].
Qed.

Lemma capitalize_no_underscore (w : str) :
  Forall (fun d => d <> UNDERSCORE) w ->
  Forall (fun d => d <> UNDERSCORE) (capitalize w).
Proof.
  intros H. destruct w as [|c t]; [constructor|].
  inversion H as [|? ? Hc Ht]; subst. cbn [capitalize].
  apply Forall_app. split.
  - apply image_no_underscore; [vm_compute; reflexivity | exact Hc].
  - exact (@lower_from_no_underscore t [c] Ht).
Qed.

Lemma pascal_case_no_underscore (name : str) :
  mem_char (pascal_case name) UNDERSCORE = false.
Proof.
  apply mem_char_Forall. unfold pascal_case.
  apply Forall_concat. apply Forall_map.
  assert (Hw : Forall (fun _ : char => True) name)
    by (apply Forall_forall; intros; exact I).
  pose proof (@split_on_Forall _ UNDERSCORE name Hw) as Hs.
  revert Hs. apply Forall_impl. intros w Hw'. apply capitalize_no_underscore.
  revert Hw'. apply Forall_impl. intros c [_ H]. exact H.
Qed.

Lemma column_names_not_nil (cols : str) : column_names cols <> [].
Proof.
  unfold column_names. rewrite (split_on_head COMMA cols). discriminate.
Qed.

(** ** The choices of [main] *)

Lemma rfind_skipn (c : char) (s : str) : forall i,
  rfind c s = Some i -> exists t, skipn i s = c :: t.
Proof.
  induction s as [|x t IH]; intros i H; [discriminate|].
  cbn [rfind] in H. destruct (rfind c t) as [j|].
  - injection H as <-. cbn [skipn]. exact (IH j eq_refl).
  - destruct (N.eqb_spec x c) as [->|]; [|discriminate].
    injection H as <-. exists t. reflexivity.
Qed.

Lemma splitext_split (p : str) :
  p = fst (splitext p) ++ snd (splitext p) /\
  (snd (splitext p) = [] \/ exists t, snd (splitext p) = 46%N :: t).
Proof.
  unfold splitext. destruct (rfind 46 p) as [d|] eqn:E.
  - destruct (_ && _).
    + cbn [fst snd]. split; [symmetry; apply firstn_skipn|].
      right. exact (@rfind_skipn 46%N p d E).
    + cbn [fst snd]. split; [symmetry; apply app_nil_r | left; reflexivity].
  - cbn [fst snd]. split; [symmetry; apply app_nil_r | left; reflexivity].
Qed.

Lemma suffixb_app_l (a w : str) : forall x,
  suffixb a w = true -> suffixb a (x ++ w) = true.
Proof.
  induction x as [|c x IH]; intros H; [exact H|].
  cbn [app]. apply suffixb_cons. exact (IH H).
Qed.

Lemma output_file_of_differs (input_file : str) :
  output_file_of input_file <> input_file.
Proof.
  unfold output_file_of. destruct (splitext_split input_file) as [E H].
  intros F. rewrite E in F at 2. apply app_inv_head in F.
  destruct H as [H|[t H]]; rewrite H in F; discriminate F.
Qed.

Lemma output_file_of_is_sql (input_file : str) :
  suffixb (u ".sql") (output_file_of input_file) = true.
Proof. unfold output_file_of. apply suffixb_app_l. reflexivity. Qed.

Lemma index_In (files : list str) (i : Z) (f : str) :
  index files i = Some f -> In f files.
Proof.
  unfold index. destruct (_ && _).
  - apply nth_error_In.
  - destruct (_ && _); [apply nth_error_In | discriminate].
Qed.

Lemma chosen_file_In (first : str) (rest : list str) (answer : str) :
  In (fst (chosen_file (first :: rest) first answer)) (first :: rest).
Proof.
  unfold chosen_file. destruct (int_of_str answer) as [v|]; [|left; reflexivity].
  destruct (index (first :: rest) (v - 1)) as [f|] eqn:E; [|left; reflexivity].
  exact (@index_In _ _ f E).
Qed.

Lemma nth_error_last (d : str) (rest : list str) : forall first,
  nth_error (first :: rest) (length rest) = Some (last (first :: rest) d).
Proof.
  induction rest as [|x rest IH]; intros first; [reflexivity|].
  cbn [length nth_error]. rewrite (IH x). reflexivity.
Qed.

Lemma index_last (first : str) (rest : list str) :
  index (first :: rest) (-1) = Some (last (first :: rest) first).
Proof.
  unfold index.
  replace ((0 <=? -1)%Z) with false by reflexivity. cbn [andb].
  replace ((- Z.of_nat (length (first :: rest)) <=? -1)%Z) with true
    by (symmetry; apply Z.leb_le; cbn [length]; lia).
  replace ((-1 <? 0)%Z) with true by reflexivity. cbn [andb].
  replace (Z.to_nat (Z.of_nat (length (first :: rest)) + -1))
    with (length rest) by (cbn [length]; lia).
  apply nth_error_last.
Qed.

Lemma index_in_range (files : list str) (d : str) (i : Z) :
  (0 <= i < Z.of_nat (length files))%Z ->
  index files i = Some (nth (Z.to_nat i) files d).
Proof.
  intros H. unfold index.
  replace ((0 <=? i)%Z) with true by (symmetry; apply Z.leb_le; lia).
  replace ((i <? Z.of_nat (length files))%Z) with true
    by (symmetry; apply Z.ltb_lt; lia).
  cbn [andb]. apply nth_error_nth'. lia.
Qed.

Lemma index_out_of_range (files : list str) (i : Z) :
  (Z.of_nat (length files) <= i \/ i < - Z.of_nat (length files))%Z ->
  index files i = None.
Proof.
  intros H. unfold index.
  destruct (Z.leb_spec 0 i), (Z.ltb_spec i (Z.of_nat (length files)));
    cbn [andb]; try lia;
  destruct (Z.leb_spec (- Z.of_nat (length files)) i), (Z.ltb_spec i 0);
    cbn [andb]; try lia; reflexivity.
Qed.

Lemma output_script_fallback (table_name content : str) :
  re_search insert_flags insert_re content = None ->
  output_script table_name content
  = sql_server_content table_name (column_list_of table_name [])
      (clean_values (extract_and_clean_values content)).
Proof.
  intros H. unfold output_script, detect_table_and_columns. rewrite H.
  reflexivity.
Qed.

Lemma clean_sql_data_written (fs : filesystem)
    (input_file output_file table_name f text : str) :
  written (clean_sql_data fs input_file output_file table_name)
    = Some (f, text) ->
  f = output_file /\
  outcome_of (clean_sql_data fs input_file output_file table_name)
    = Returned true /\
  exists content,
    fs_read fs input_file = inr content /\
    fs_write fs output_file (output_script table_name content) = None /\
    text = output_script table_name content /\
    last (console (clean_sql_data fs input_file output_file table_name)) []
    = check_mark ++ u " Total records: "
      ++ decimal (findall_bol_count no_flags record_re
                    (clean_values (extract_and_clean_values content))).
Proof.
  unfold clean_sql_data.
  destruct (fs_read fs input_file) as [e|content].
  - destruct (is_FileNotFoundError e); [discriminate|].
    destruct (is_Exception e); discriminate.
  - assert (Eo : output_script table_name content
                 = let '(t, cols) :=
                     detect_table_and_columns table_name content in
                   sql_server_content t (column_list_of t cols)
                     (clean_values (extract_and_clean_values content)))
      by reflexivity.
    destruct (detect_table_and_columns table_name content) as [t cols].
    destruct (fs_write fs output_file _) as [e|] eqn:W.
    + destruct (is_Exception e); discriminate.
    + cbn [written outcome_of console]. intros H. injection H as <- <-.
      split; [reflexivity|]. split; [reflexivity|].
      exists content. rewrite Eo. split; [reflexivity|]. split; [exact W|].
      split; [reflexivity|].
      reflexivity.
Qed.

Lemma main_files_written (fs : filesystem) (listing : list str)
    (answer f text : str) :
  input_files listing <> [] ->
  In (f, text) (files_written (main fs listing answer)) ->
  exists input_file content,
    In input_file (input_files listing) /\
    fs_read fs input_file = inr content /\
    f = output_file_of input_file /\
    text = output_script (u "CombinedAddons") content.
Proof.
  intros Hne. unfold main.
  destruct (input_files listing) as [|first rest]; [contradiction|].
  pose proof (@chosen_file_In first rest answer) as Hin.
  destruct (chosen_file (first :: rest) first answer) as [input_file refused].
  cbn [fst] in Hin.
  set (r := clean_sql_data fs input_file (output_file_of input_file)
              (u "CombinedAddons")).
  assert (Hw : In (f, text) match written r with Some g => [g] | None => [] end ->
               exists input_file0 content,
                 In input_file0 (first :: rest) /\
                 fs_read fs input_file0 = inr content /\
                 f = output_file_of input_file0 /\
                 text = output_script (u "CombinedAddons") content).
  { destruct (written r) as [[g gt]|] eqn:W; [|intros []].
    intros [H|[]]. injection H as -> ->.
    destruct (@clean_sql_data_written fs input_file
                (output_file_of input_file) (u "CombinedAddons") f text W)
      as [-> [_ [content [R [_ [-> _]]]]]].
    exists input_file, content. repeat split; assumption. }
  destruct (outcome_of r) as [[|]|e]; cbn [files_written]; exact Hw.
Qed.

(** ** Columns written and read again *)

Lemma split_on_absent (sep : char) (a : str) :
  mem_char a sep = false -> split_on sep a = [a].
Proof.
  unfold mem_char. induction a as [|c t IH]; intros H; [reflexivity|].
  cbn [existsb] in H. apply orb_false_iff in H. destruct H as [Hc Ht].
  cbn [split_on]. rewrite N.eqb_sym, Hc, (IH Ht). reflexivity.
Qed.

Lemma column_names_after_space (J : str) :
  column_names (SPACE :: J) = column_names J.
Proof.
  unfold column_names. cbn [split_on].
  change (N.eqb SPACE COMMA) with false. cbn match.
  rewrite (split_on_head COMMA J). cbn [map]. reflexivity.
Qed.

Lemma column_names_join (cols : list str) :
  Forall plain_column cols -> cols <> [] ->
  column_names (join (u ", ") cols) = cols.
Proof.
  induction cols as [|c r IH]; intros H Hne; [contradiction|].
  inversion H as [|? ? [Hc [_ [Hs Hb]]] Hr]; subst.
  destruct r as [|c1 r].
  - cbn [join]. unfold column_names.
    rewrite (@split_on_absent COMMA c Hc). cbn [map]. rewrite Hs, Hb.
    reflexivity.
  - rewrite join_cons. change (u ", ") with [COMMA; SPACE]. cbn [app].
    unfold column_names. rewrite split_on_app_sep.
    rewrite (@split_on_absent COMMA c Hc). cbn [app map]. rewrite Hs, Hb.
    f_equal. fold (column_names (SPACE :: join [COMMA; SPACE] (c1 :: r))).
    rewrite column_names_after_space. apply IH; [exact Hr|discriminate].
Qed.

Lemma join_plain_columns (cols : list str) :
  Forall plain_column cols ->
  forallb (not_char RPAREN) (join (u ", ") cols) = true.
Proof.
  assert (P : forall c, mem_char c RPAREN = false ->
                        forallb (not_char RPAREN) c = true).
  { intros c. unfold mem_char. induction c as [|x t IHc]; [reflexivity|].
    cbn [existsb forallb]. intros H. apply orb_false_iff in H.
    destruct H as [H1 H2]. unfold not_char at 1. rewrite N.eqb_sym, H1.
    exact (IHc H2). }
  induction cols as [|c r IH]; intros H; [reflexivity|].
  inversion H as [|? ? [_ [Hp _]] Hr]; subst.
  destruct r as [|c1 r]; [exact (P c Hp)|].
  rewrite join_cons, !forallb_app, (P c Hp), (IH Hr). reflexivity.
Qed.

Lemma find_insert_here (s name cols : str) :
  insert_at s name cols -> find_insert s = Some (name, cols).
Proof.
  intros H. destruct (@insert_at_statement s name cols H) as [rest E].
  destruct s; cbn [find_insert]; rewrite E; reflexivity.
Qed.

(** ** The name of the output file *)

Lemma rfind_none (c : char) (s : str) :
  mem_char s c = false -> rfind c s = None.
Proof.
  unfold mem_char. induction s as [|x t IH]; intros H; [reflexivity|].
  cbn [existsb] in H. apply orb_false_iff in H. destruct H as [Hx Ht].
  cbn [rfind]. rewrite (IH Ht), N.eqb_sym, Hx. reflexivity.
Qed.

Lemma rfind_last (c : char) (b : str) : forall a,
  mem_char b c = false -> rfind c (a ++ c :: b) = Some (length a).
Proof.
  intros a Hb. induction a as [|x a IH].
  - cbn [app rfind length]. rewrite (@rfind_none c b Hb), N.eqb_refl.
    reflexivity.
  - cbn [app rfind length]. rewrite IH. reflexivity.
Qed.

Lemma splitext_named (base e : str) :
  mem_char (base ++ 46%N :: e) 47 = false ->
  mem_char e 46 = false ->
  splitext (base ++ 46%N :: e)
  = if existsb (fun c => negb (N.eqb c 46)) base
    then (base, 46%N :: e)
    else (base ++ 46%N :: e, []).
Proof.
  intros Hs He. unfold splitext.
  rewrite (@rfind_none 47%N _ Hs), (@rfind_last 46%N e base He).
  rewrite Nat.sub_0_r. cbn [skipn Nat.leb andb].
  rewrite firstn_app, Nat.sub_diag, firstn_all. cbn [firstn].
  rewrite app_nil_r, skipn_prefix. reflexivity.
Qed.

(** ** Properties of the passes, one by one *)

(** X1 ([fix_newlines_and_formatting]).  The normalised text is on one
    line and single-spaced: it holds no line break, every white-space
    character of it is a space, and no two spaces stand side by side. *)
Theorem normalised_text_is_single_spaced (text : str) :
  single_spaced false (fix_newlines_and_formatting text) = true /\
  mem_char (fix_newlines_and_formatting text) NL = false.
Proof. exact (fix_newlines_single_spaced text). Qed.

(** X2 ([fix_newlines_and_formatting]).  None of the sequences that the
    normalizer rewrites is left in its result: no backslash followed by
    n, no line break, none of the three mis-encoded symbols. *)
Theorem normalised_text_has_no_rewritten_sequence (text : str) :
  Forall (fun p => contains p (fix_newlines_and_formatting text) = false)
         rewritten_sequences.
Proof.
  apply Forall_forall. intros p Hp. exact (@fix_newlines_no_sequence text p Hp).
Qed.

(** X3 ([fix_newlines_and_formatting]).  The normalizer is idempotent:
    applied to its own result it changes nothing. *)
Theorem fix_newlines_and_formatting_idempotent (text : str) :
  fix_newlines_and_formatting (fix_newlines_and_formatting text)
  = fix_newlines_and_formatting text.
Proof.
  pose proof (@fix_newlines_no_sequence text) as H.
  destruct (fix_newlines_single_spaced text) as [Hs _].
  set (o := fix_newlines_and_formatting text) in *.
  unfold fix_newlines_and_formatting at 1.
  rewrite (@replace_absent [BACKSLASH; 110%N] [NL] o)
    by (apply H; cbn; tauto).
  rewrite (@replace_absent [NL] [SPACE] o) by (apply H; cbn; tauto).
  change (re_sub no_flags spaces_re (fun _ => [SPACE]) o) with (collapse o).
  rewrite (@collapse_fixed (length o) o false (le_n _) Hs).
  rewrite (@replace_absent [172; 169]%N (u "(c)") o) by (apply H; cbn; tauto).
  rewrite (@replace_absent [172; 198]%N (u "(R)") o) by (apply H; cbn; tauto).
  apply replace_absent. apply H. cbn; tauto.
Qed.

(** X4 ([fix_apostrophes]).  The apostrophe fixer only doubles quotes:
    its result is the text with some of its quotes written twice, every
    other character in place. *)
Theorem fix_apostrophes_only_doubles_quotes (text : str) :
  quotes_added text (fix_apostrophes text).
Proof. exact (fix_apostrophes_adds_quotes text). Qed.

(** X5 ([fix_apostrophes]).  The apostrophe fixer is idempotent: a
    contraction whose quote is doubled is not touched again. *)
Theorem fix_apostrophes_idempotent (text : str) :
  fix_apostrophes (fix_apostrophes text) = fix_apostrophes text.
Proof.
  rewrite !fix_apostrophes_by_quote. unfold double_contraction_quotes.
  pose proof (split_quote_free text) as Hq.
  rewrite (split_on_head QUOTE text) in Hq |- *.
  set (w := hd [] (split_on QUOTE text)) in *.
  set (R := tl (split_on QUOTE text)) in *.
  pose proof (@mark_quote_free in_contraction (w :: R) Hq) as Hm.
  rewrite (mark_head in_contraction w R) in Hm |- *.
  rewrite (@split_join _ w Hm).
  rewrite <- (mark_head in_contraction w R).
  rewrite (@mark_mark in_contraction in_contraction
             in_contraction_nil_r in_contraction_nil_l).
  f_equal. apply mark_ext. intros a b. apply orb_diag.
Qed.

(** X6 ([fix_quotes_and_special_chars]).  The generic quote fixer only
    doubles quotes: it removes no character and changes none, whatever
    the text. *)
Theorem fix_quotes_only_doubles_quotes (text : str) :
  quotes_added text (fix_quotes_and_special_chars text).
Proof. exact (@fix_quotes_adds_quotes (length text) text (le_n _)). Qed.

(** X7 ([fix_business_terms]).  On a text without backslash the
    business-term fixer only repeats quotes of the text: every
    character is kept, in order, nothing but quotes is put in, each
    next to a quote that was there, and no backslash appears. *)
Theorem fix_business_terms_only_repeats_quotes (text : str) :
  mem_char text BACKSLASH = false ->
  quotes_repeated text (fix_business_terms text) /\
  mem_char (fix_business_terms text) BACKSLASH = false.
Proof. exact (@fix_business_terms_without_backslash text). Qed.

Lemma fix_business_terms_only_repeats_quotes_witness :
  quotes_repeated (u "text 'T100' to reach e& in UAE's north")
    (fix_business_terms (u "text 'T100' to reach e& in UAE's north")) /\
  mem_char (fix_business_terms (u "text 'T100' to reach e& in UAE's north"))
    BACKSLASH = false.
Proof.
  exact (@fix_business_terms_only_repeats_quotes
           (u "text 'T100' to reach e& in UAE's north") eq_refl).
Defined.

(** ** Properties of the cleaning chain *)

(** X8 (the cleaning steps of [clean_sql_data]).  On a values block
    without quotes the chain is the normalizer alone: the three passes
    after it change nothing. *)
Theorem clean_values_of_quote_free_text (values_content : str) :
  mem_char values_content QUOTE = false ->
  clean_values values_content = fix_newlines_and_formatting values_content.
Proof. exact (@clean_values_quote_free values_content). Qed.

Lemma clean_values_of_quote_free_text_witness :
  clean_values (u "(1,   2, NULL),\n(3, 4,  NULL)")
  = fix_newlines_and_formatting (u "(1,   2, NULL),\n(3, 4,  NULL)").
Proof.
  exact (@clean_values_of_quote_free_text
           (u "(1,   2, NULL),\n(3, 4,  NULL)") eq_refl).
Defined.

(** X9 (the cleaning steps of [clean_sql_data]).  On a values block
    without backslash the generic quote fixer, the last pass, changes
    nothing, and the chain only repeats quotes of the normalised text:
    every character of it is kept, in order, and nothing but quotes is
    put in, each next to a quote that was there. *)
Theorem clean_values_of_backslash_free_text (values_content : str) :
  mem_char values_content BACKSLASH = false ->
  clean_values values_content
  = fix_business_terms
      (fix_apostrophes (fix_newlines_and_formatting values_content)) /\
  quotes_repeated (fix_newlines_and_formatting values_content)
    (clean_values values_content).
Proof. exact (@clean_values_without_backslash values_content). Qed.

Lemma clean_values_of_backslash_free_text_witness :
  clean_values (u "(1, 'don't text 'T100'')")
  = fix_business_terms
      (fix_apostrophes
         (fix_newlines_and_formatting (u "(1, 'don't text 'T100'')"))) /\
  quotes_repeated (fix_newlines_and_formatting (u "(1, 'don't text 'T100'')"))
    (clean_values (u "(1, 'don't text 'T100'')")).
Proof.
  exact (@clean_values_of_backslash_free_text
           (u "(1, 'don't text 'T100'')") eq_refl).
Defined.

(** X10 (the cleaning steps and the count of records).  The cleaned
    content holds no line break, so the pattern of a record, which is
    tried at the start of a line, is found at most once: the count of
    records is 0 or 1 whatever the number of rows. *)
Theorem cleaned_content_counts_one_record_at_most (values_content : str) :
  mem_char (clean_values values_content) NL = false /\
  findall_bol_count no_flags record_re (clean_values values_content) <= 1.
Proof.
  split; [apply clean_values_no_line_break|].
  apply count_bol_one_line. apply clean_values_no_line_break.
Qed.

(** ** Properties of [clean_sql_data] *)

(** X11 ([clean_sql_data]).  The call returns True exactly when the
    input was read and the script was written; the file it reports as
    written is then the script of the content read, and the last line
    it prints counts 0 or 1 record. *)
Theorem clean_sql_data_true_when_written
    (fs : filesystem) (input_file output_file table_name : str) :
  let r := clean_sql_data fs input_file output_file table_name in
  (outcome_of r = Returned true <-> written r <> None) /\
  (forall content,
     fs_read fs input_file = inr content ->
     fs_write fs output_file (output_script table_name content) = None ->
     outcome_of r = Returned true /\
     written r = Some (output_file, output_script table_name content) /\
     exists n, n <= 1 /\
       last (console r) [] = check_mark ++ u " Total records: " ++ decimal n).
Proof.
  intros r. subst r. unfold clean_sql_data.
  destruct (fs_read fs input_file) as [e|content].
  - split.
    + destruct (is_FileNotFoundError e); [|destruct (is_Exception e)];
        cbn [outcome_of written]; split; intros H; try discriminate H;
        contradiction.
    + intros content H. discriminate H.
  - assert (Eo : output_script table_name content
                 = let '(t, cols) :=
                     detect_table_and_columns table_name content in
                   sql_server_content t (column_list_of t cols)
                     (clean_values (extract_and_clean_values content)))
      by reflexivity.
    destruct (detect_table_and_columns table_name content) as [t cols].
    destruct (fs_write fs output_file _) as [e|] eqn:W.
    + split.
      * destruct (is_Exception e); cbn [outcome_of written]; split;
          intros H; try discriminate H; contradiction.
      * intros c H. injection H as <-. rewrite Eo, W. discriminate.
    + cbn [outcome_of written console]. split.
      * split; [discriminate | reflexivity].
      * intros c H _. injection H as <-. rewrite Eo.
        split; [reflexivity|]. split; [reflexivity|].
        exists (findall_bol_count no_flags record_re
                  (clean_values (extract_and_clean_values content))).
        split; [|reflexivity].
        apply count_bol_one_line. apply clean_values_no_line_break.
Qed.

Lemma clean_sql_data_true_when_written_witness :
  outcome_of (clean_sql_data (plain_fs (u "(1, 'a'), (2, 'b')"))
                (u "in.txt") (u "out.sql") (u "CombinedBio"))
  = Returned true /\
  written (clean_sql_data (plain_fs (u "(1, 'a'), (2, 'b')"))
             (u "in.txt") (u "out.sql") (u "CombinedBio"))
  = Some (u "out.sql", output_script (u "CombinedBio") (u "(1, 'a'), (2, 'b')"))
  /\
  exists n, n <= 1 /\
    last (console (clean_sql_data (plain_fs (u "(1, 'a'), (2, 'b')"))
                     (u "in.txt") (u "out.sql") (u "CombinedBio"))) []
    = check_mark ++ u " Total records: " ++ decimal n.
Proof.
  exact (proj2 (@clean_sql_data_true_when_written
                  (plain_fs (u "(1, 'a'), (2, 'b')"))
                  (u "in.txt") (u "out.sql") (u "CombinedBio"))
               (u "(1, 'a'), (2, 'b')") eq_refl eq_refl).
Defined.

(** ** Properties of the values extractor *)

(** X12 ([extract_and_clean_values]).  The block returned is one piece
    of the input, taken as it stands, and it has no white space at
    either end. *)
Theorem extracted_block_is_a_piece_of_the_input (content : str) :
  (exists pre post,
     content = pre ++ extract_and_clean_values content ++ post) /\
  strip (extract_and_clean_values content) = extract_and_clean_values content.
Proof.
  rewrite extract_is_values_block.
  split; [apply values_block_split | apply values_block_stripped].
Qed.

(** X13 ([extract_and_clean_values]).  When the pattern of the VALUES
    section is found, the block returned holds no semicolon: the block
    ends before the first semicolon, wherever it stands, and the
    removal of a trailing semicolon finds none. *)
Theorem extracted_block_has_no_semicolon (content : str) :
  re_search values_flags values_re content <> None ->
  mem_char (extract_and_clean_values content) SEMI = false.
Proof.
  intros H. destruct (@search_values_found content H) as [s1 E].
  rewrite extract_is_values_block.
  exact (@values_block_no_semicolon content s1 E).
Qed.

Lemma extracted_block_has_no_semicolon_witness :
  mem_char (extract_and_clean_values
              (u "INSERT INTO t (a) VALUES (1, 'a;b'); -- end;"))
    SEMI = false.
Proof.
  apply (@extracted_block_has_no_semicolon
           (u "INSERT INTO t (a) VALUES (1, 'a;b'); -- end;")).
  vm_compute. discriminate.
Defined.

(** ** Properties of the table and column detector *)

(** X14 ([detect_table_and_columns]).  A table name taken from an
    INSERT statement holds no underscore: the name of the statement is
    cut at its underscores, and no case mapping gives one. *)
Theorem detected_table_has_no_underscore (table_name content : str) :
  re_search insert_flags insert_re content <> None ->
  mem_char (fst (detect_table_and_columns table_name content)) UNDERSCORE
  = false.
Proof.
  intros H. destruct (@search_insert_found content H) as [name [cols E]].
  rewrite detect_is_find_insert, E. cbn [fst].
  apply pascal_case_no_underscore.
Qed.

Lemma detected_table_has_no_underscore_witness :
  mem_char
    (fst (detect_table_and_columns (u "Fallback_name")
            (u "insert into `__combined_addons_2` (`id`) VALUES (1)")))
    UNDERSCORE = false.
Proof.
  apply (@detected_table_has_no_underscore (u "Fallback_name")
           (u "insert into `__combined_addons_2` (`id`) VALUES (1)")).
  vm_compute. discriminate.
Defined.

(** X15 ([detect_table_and_columns] and the column list).  An INSERT
    statement that is found always gives one column at least, so the
    column list written is the list of the detected columns: the
    default lists are used only when no statement is found. *)
Theorem detected_columns_are_written (table_name content : str) :
  re_search insert_flags insert_re content <> None ->
  let '(detected_table, columns) :=
    detect_table_and_columns table_name content in
  columns <> [] /\
  column_list_of detected_table columns
  = u "(" ++ join (u ", ") columns ++ u ")".
Proof.
  intros H. destruct (@search_insert_found content H) as [name [cols E]].
  rewrite detect_is_find_insert, E.
  pose proof (column_names_not_nil cols) as Hn.
  split; [exact Hn|]. unfold column_list_of.
  destruct (column_names cols); [contradiction|reflexivity].
Qed.

Lemma detected_columns_are_written_witness :
  let '(detected_table, columns) :=
    detect_table_and_columns (u "CombinedAddons")
      (u "INSERT INTO CombinedAddons ( ) VALUES (1)") in
  columns <> [] /\
  column_list_of detected_table columns
  = u "(" ++ join (u ", ") columns ++ u ")".
Proof.
  apply (@detected_columns_are_written (u "CombinedAddons")
           (u "INSERT INTO CombinedAddons ( ) VALUES (1)")).
  vm_compute. discriminate.
Defined.

(** X16 ([detect_table_and_columns] after the column list of the
    script).  Round trip: the statement that the script holds for a
    table and plain columns is read by the detector as the same
    columns, and as the table name in PascalCase. *)
Theorem detector_reads_back_written_columns
    (table_name name : str) (columns : list str) (rest : str) :
  name <> [] -> forallb is_word name = true ->
  Forall plain_column columns -> hd [] columns <> [] ->
  detect_table_and_columns table_name
    (u "INSERT INTO " ++ name ++ u " " ++ column_list_of name columns ++ rest)
  = (pascal_case name, columns).
Proof.
  intros Hn Hw Hc Hh.
  assert (Hne : columns <> []).
  { intros ->. apply Hh. reflexivity. }
  assert (Hj : join (u ", ") columns <> []).
  { destruct columns as [|c [|c1 r]]; [contradiction|exact Hh|].
    rewrite join_cons. cbn [hd] in Hh. destruct c; [contradiction|discriminate]. }
  assert (Hl : column_list_of name columns
               = LPAREN :: join (u ", ") columns ++ [RPAREN]).
  { unfold column_list_of. destruct columns; [contradiction|reflexivity]. }
  rewrite detect_is_find_insert.
  rewrite (@find_insert_here _ name (join (u ", ") columns)).
  - rewrite (@column_names_join columns Hc Hne). reflexivity.
  - exists (u "INSERT INTO "), [], [], (u " "), rest.
    split.
    { rewrite Hl. cbn [app]. rewrite <- app_assoc. reflexivity. }
    split; [reflexivity|]. split; [left; reflexivity|].
    split; [left; reflexivity|]. split; [exact Hn|]. split; [exact Hw|].
    split; [reflexivity|]. split; [exact Hj|].
    exact (@join_plain_columns columns Hc).
Qed.

Lemma detector_reads_back_written_columns_witness :
  detect_table_and_columns (u "Fallback")
    (u "INSERT INTO " ++ u "combined_bio" ++ u " "
       ++ column_list_of (u "combined_bio") [u "internal_id"; u "Biography"]
       ++ u " VALUES (1, 'x');")
  = (pascal_case (u "combined_bio"), [u "internal_id"; u "Biography"]).
Proof.
  apply (@detector_reads_back_written_columns (u "Fallback")
           (u "combined_bio") [u "internal_id"; u "Biography"]
           (u " VALUES (1, 'x');")).
  - discriminate.
  - reflexivity.
  - repeat constructor.
  - discriminate.
Defined.

(** ** Properties of [main] *)

(** X17 ([main], the choice of the input file).  The file taken is
    always one of the files listed.  A number from 1 to the number of
    files takes the file of that rank; 0 takes the last file, the index
    -1 counting from the end; a number above the number of files, or an
    answer that is no number, takes the first file. *)
Theorem chosen_file_by_answer (first : str) (rest : list str) (answer : str) :
  let files := first :: rest in
  let n := Z.of_nat (length files) in
  let choice := chosen_file files first answer in
  In (fst choice) files /\
  (forall v, int_of_str answer = Some v ->
     ((1 <= v <= n)%Z ->
        choice = (nth (Z.to_nat (v - 1)) files first, false)) /\
     (v = 0%Z -> choice = (last files first, false)) /\
     ((n < v \/ v <= - n)%Z -> choice = (first, true))) /\
  (int_of_str answer = None -> choice = (first, true)).
Proof.
  intros files n choice. split; [apply chosen_file_In|]. split.
  - intros v Hv. unfold choice, chosen_file. rewrite Hv.
    split; [|split].
    + intros H. rewrite (@index_in_range files first (v - 1)); [reflexivity|].
      unfold n in H. lia.
    + intros ->. change (0 - 1)%Z with (-1)%Z. unfold files.
      rewrite index_last. reflexivity.
    + intros H. rewrite index_out_of_range; [reflexivity|].
      unfold n in H. lia.
  - intros Hv. unfold choice, chosen_file. rewrite Hv. reflexivity.
Qed.

Lemma chosen_file_by_answer_witness :
  chosen_file [u "a.txt"; u "b.sql"; u "c.txt"] (u "a.txt") (u "0")
  = (u "c.txt", false) /\
  chosen_file [u "a.txt"; u "b.sql"; u "c.txt"] (u "a.txt") (u "4")
  = (u "a.txt", true) /\
  chosen_file [u "a.txt"; u "b.sql"; u "c.txt"] (u "a.txt") (u "two")
  = (u "a.txt", true).
Proof.
  split; [|split].
  - exact (proj1 (proj2 (proj1 (proj2
      (@chosen_file_by_answer (u "a.txt") [u "b.sql"; u "c.txt"] (u "0")))
      0%Z eq_refl)) eq_refl).
  - refine (proj2 (proj2 (proj1 (proj2
      (@chosen_file_by_answer (u "a.txt") [u "b.sql"; u "c.txt"] (u "4")))
      4%Z eq_refl)) _).
    left. vm_compute. reflexivity.
  - exact (proj2 (proj2
      (@chosen_file_by_answer (u "a.txt") [u "b.sql"; u "c.txt"] (u "two")))
      eq_refl).
Defined.

(** X18 ([main], the name of the output file).  The name of the output
    file is never the name of the input file, so the input is not
    written over; and it ends in .sql, so the next run of [main] lists
    the output among its input files. *)
Theorem output_file_is_never_the_input (input_file : str) :
  output_file_of input_file <> input_file /\
  input_files [output_file_of input_file] = [output_file_of input_file].
Proof.
  split; [apply output_file_of_differs|].
  unfold input_files. cbn [filter].
  rewrite (output_file_of_is_sql input_file), orb_true_r. reflexivity.
Qed.

(** X19 ([main], the name of the output file).  For a file name
    without directory whose last dot has some other character before
    it, the extension is replaced by _cleaned_sqlserver.sql; a name
    with nothing but dots before its last dot keeps all of its text. *)
Theorem output_file_of_named_file (base e : str) :
  mem_char (base ++ 46%N :: e) 47 = false ->
  mem_char e 46 = false ->
  output_file_of (base ++ 46%N :: e)
  = if existsb (fun c => negb (N.eqb c 46)) base
    then base ++ u "_cleaned_sqlserver.sql"
    else (base ++ 46%N :: e) ++ u "_cleaned_sqlserver.sql".
Proof.
  intros Hs He. unfold output_file_of.
  rewrite (@splitext_named base e Hs He).
  destruct (existsb _ base); reflexivity.
Qed.

Lemma output_file_of_named_file_witness :
  output_file_of (u "mysql_bio.data" ++ 46%N :: u "txt")
  = u "mysql_bio.data_cleaned_sqlserver.sql" /\
  output_file_of (u "." ++ 46%N :: u "txt")
  = u "..txt_cleaned_sqlserver.sql".
Proof.
  split.
  - exact (@output_file_of_named_file (u "mysql_bio.data") (u "txt")
             eq_refl eq_refl).
  - exact (@output_file_of_named_file (u ".") (u "txt") eq_refl eq_refl).
Defined.

(** X20 ([main] and [clean_sql_data]).  Whatever file is taken, [main]
    cleans it for the table CombinedAddons: a file written is the
    script of one of the input files listed, under a name that is not
    the name of that file, and when no INSERT statement is found in the
    content the script names CombinedAddons and its 32 columns. *)
Theorem main_cleans_for_combined_addons
    (fs : filesystem) (listing : list str) (answer f text : str) :
  input_files listing <> [] ->
  In (f, text) (files_written (main fs listing answer)) ->
  exists input_file content,
    In input_file (input_files listing) /\
    fs_read fs input_file = inr content /\
    f = output_file_of input_file /\ f <> input_file /\
    text = output_script (u "CombinedAddons") content /\
    (re_search insert_flags insert_re content = None ->
     text = sql_server_content (u "CombinedAddons") addons_columns
              (clean_values (extract_and_clean_values content))).
Proof.
  intros Hne Hin.
  destruct (@main_files_written fs listing answer f text Hne Hin)
    as [input_file [content [H1 [H2 [H3 H4]]]]].
  exists input_file, content.
  split; [exact H1|]. split; [exact H2|]. split; [exact H3|].
  split; [rewrite H3; apply output_file_of_differs|].
  split; [exact H4|].
  intros Hs. rewrite H4. exact (@output_script_fallback _ content Hs).
Qed.


Lemma main_cleans_for_combined_addons_witness :
  exists input_file content,
    In input_file
       (input_files [u "mysql_addons_data.txt"; u "mysql_bio_data.txt";
                     u "notes.md"]) /\
    fs_read (plain_fs (u "(1, 'bio')")) input_file = inr content /\
    u "mysql_bio_data_cleaned_sqlserver.sql" = output_file_of input_file /\
    u "mysql_bio_data_cleaned_sqlserver.sql" <> input_file /\
    output_script (u "CombinedAddons") (u "(1, 'bio')")
    = output_script (u "CombinedAddons") content /\
    (re_search insert_flags insert_re content = None ->
     output_script (u "CombinedAddons") (u "(1, 'bio')")
     = sql_server_content (u "CombinedAddons") addons_columns
         (clean_values (extract_and_clean_values content))).
Proof.
  apply (@main_cleans_for_combined_addons (plain_fs (u "(1, 'bio')"))
           [u "mysql_addons_data.txt"; u "mysql_bio_data.txt"; u "notes.md"]
           (u "2") (u "mysql_bio_data_cleaned_sqlserver.sql")
           (output_script (u "CombinedAddons") (u "(1, 'bio')"))).
  - vm_compute. discriminate.
  - vm_compute. left. reflexivity.
Defined.

(** X21 ([main] and [create_sample_files]).  When no input file is
    listed, [main] cleans nothing: it writes no file unless the answer
    is y or Y, and then the two sample files only, the first before the
    second; the names of both end in .txt, so the next run lists them. *)
Theorem main_without_input_files
    (fs : filesystem) (listing : list str) (answer : str) :
  input_files listing = [] ->
  let s := main fs listing answer in
  let samples := [ (u "mysql_addons_data.txt", addons_data);
                   (u "mysql_bio_data.txt", bio_data) ] in
  (map to_lower answer <> u "y" -> files_written s = [] /\ raised s = None) /\
  (exists k, files_written s = firstn k samples) /\
  (map to_lower answer = u "y" -> raised s = None ->
   files_written s = samples) /\
  input_files (map fst samples) = map fst samples.
Proof.
  intros H s samples. subst s. unfold main. rewrite H.
  destruct (str_eqb (map to_lower answer) (u "y")) eqn:E.
  - apply str_eqb_eq in E. unfold create_sample_files.
    destruct (fs_write fs (u "mysql_addons_data.txt") addons_data) as [e|].
    + cbn [raised files_written].
      split; [intros N; contradiction|]. split; [exists 0; reflexivity|].
      split; [discriminate | reflexivity].
    + destruct (fs_write fs (u "mysql_bio_data.txt") bio_data) as [e|];
        cbn [raised files_written].
      * split; [intros N; contradiction|]. split; [exists 1; reflexivity|].
        split; [discriminate | reflexivity].
      * split; [intros N; contradiction|]. split; [exists 2; reflexivity|].
        split; reflexivity.
  - cbn [raised files_written].
    split; [split; reflexivity|]. split; [exists 0; reflexivity|].
    split; [|reflexivity].
    intros N. rewrite N in E. discriminate E.
Qed.

Lemma main_without_input_files_witness :
  files_written (main (plain_fs []) [u "README.md"; u "clean_data.py"] (u "Y"))
  = [ (u "mysql_addons_data.txt", addons_data);
      (u "mysql_bio_data.txt", bio_data) ].
Proof.
  exact (proj1 (proj2 (proj2
    (@main_without_input_files (plain_fs [])
       [u "README.md"; u "clean_data.py"] (u "Y") eq_refl)))
    eq_refl eq_refl).
Defined.

(** ** A code cleaned twice *)

Lemma digits_lack (c : char) (d : str) :
  is_digit c = false -> forallb is_digit d = true -> mem_char d c = false.
Proof.
  intros Hc. unfold mem_char. induction d as [|x d IH]; [reflexivity|].
  cbn [forallb existsb]. intros H. apply andb_true_iff in H.
  destruct H as [Hx Hd]. rewrite (IH Hd), orb_false_r.
  destruct (N.eqb_spec c x) as [->|]; [congruence|reflexivity].
Qed.

Lemma mem_char_app (a b : str) (c : char) :
  mem_char (a ++ b) c = mem_char a c || mem_char b c.
Proof. unfold mem_char. apply existsb_app. Qed.

Lemma tcode_at_code (d rest : str) :
  d <> [] -> forallb is_digit d = true ->
  tcode_at (QUOTE :: 84%N :: d ++ QUOTE :: rest) = Some (d, rest).
Proof.
  intros Hd Hf. unfold tcode_at. rewrite !N.eqb_refl. cbn [andb].
  destruct (@span_app is_digit d (QUOTE :: rest) Hf eq_refl) as [E1 E2].
  rewrite E1, E2. destruct d; [contradiction|].
  rewrite N.eqb_refl. reflexivity.
Qed.

Lemma tcode_sub_code (d rest : str) :
  d <> [] -> forallb is_digit d = true ->
  sub_aux no_flags tcode_re (fun g => u "''T" ++ group 1 g ++ u "''") 0
    (QUOTE :: 84%N :: d ++ QUOTE :: rest)
  = u "''T" ++ d ++ u "''"
    ++ sub_aux no_flags tcode_re (fun g => u "''T" ++ group 1 g ++ u "''") 0
         rest.
Proof.
  intros Hd Hf.
  replace (QUOTE :: 84%N :: d ++ QUOTE :: rest)
    with ((QUOTE :: 84%N :: d ++ [QUOTE]) ++ rest)
    by (cbn [app]; rewrite <- app_assoc; reflexivity).
  rewrite (@sub_aux_match no_flags tcode_re _ [(1, d)]
             (QUOTE :: 84%N :: d ++ [QUOTE]) rest); [| discriminate |].
  - cbn [group Nat.eqb]. rewrite <- !app_assoc. reflexivity.
  - rewrite match_here_tcode. cbn [app]. rewrite <- app_assoc. cbn [app].
    rewrite (@tcode_at_code d rest Hd Hf). reflexivity.
Qed.

Lemma code_lacks (c : char) (d pre post : str) :
  is_digit c = false -> forallb is_digit d = true ->
  mem_char (pre ++ post) c = false ->
  mem_char (pre ++ d ++ post) c = false.
Proof.
  intros Hc Hd H. rewrite mem_char_app in H. apply orb_false_iff in H.
  destruct H as [H1 H2].
  rewrite !mem_char_app, H1, H2, (@digits_lack c d Hc Hd). reflexivity.
Qed.

Lemma fix_business_terms_of_code (q d : str) :
  forallb (N.eqb QUOTE) q = true ->
  forallb is_digit d = true ->
  fix_business_terms (q ++ u "T" ++ d ++ q)
  = re_sub no_flags tcode_re (fun g => u "''T" ++ group 1 g ++ u "''")
      (q ++ u "T" ++ d ++ q).
Proof.
  intros Hq Hd.
  assert (L : forall c, is_digit c = false -> N.eqb c QUOTE = false ->
                N.eqb c 84 = false ->
                mem_char (q ++ u "T" ++ d ++ q) c = false).
  { intros c H1 H2 H3.
    assert (Q : mem_char q c = false).
    { unfold mem_char. clear - Hq H2. induction q as [|x q IH]; [reflexivity|].
      cbn [forallb existsb] in *. apply andb_true_iff in Hq.
      destruct Hq as [Hx Hq]. apply N.eqb_eq in Hx. subst x.
      rewrite H2. exact (IH Hq). }
    rewrite !mem_char_app, Q, (@digits_lack c d H1 Hd).
    unfold mem_char at 1. cbn [u list_ascii_of_string map existsb].
    change (N_of_ascii "T") with 84%N. rewrite H3. reflexivity. }
  unfold fix_business_terms.
  rewrite (@replace_same (u "e&") (length (q ++ u "T" ++ d ++ q)) _ (le_n _)).
  rewrite (@replace_absent (u "UAE's") (u "UAE''s") (q ++ u "T" ++ d ++ q))
    by (apply (@contains_missing_char 85%N);
        [reflexivity | apply L; reflexivity]).
  set (t := re_sub no_flags tcode_re _ _).
  assert (B : mem_char t BACKSLASH = false).
  { apply (@quotes_added_lacks BACKSLASH (q ++ u "T" ++ d ++ q) t).
    - apply (@tcode_adds_quotes (length (q ++ u "T" ++ d ++ q))). apply le_n.
    - discriminate.
    - apply L; reflexivity. }
  rewrite (@replace_absent (u "kids\'") (u "kids''") t)
    by (apply (@contains_missing_char BACKSLASH); [reflexivity|exact B]).
  apply replace_absent.
  apply (@contains_missing_char BACKSLASH); [reflexivity|exact B].
Qed.

(** X22 ([fix_business_terms]).  The business-term fixer is not
    idempotent on the codes it rewrites: for every code of digits [d],
    ['T<d>'] becomes [''T<d>''], and the pass applied to that result
    gives ['''T<d>'''], with three quotes on each side. *)
Theorem fix_business_terms_doubles_codes_again (d : str) :
  d <> [] -> forallb is_digit d = true ->
  fix_business_terms (u "'T" ++ d ++ u "'") = u "''T" ++ d ++ u "''" /\
  fix_business_terms (u "''T" ++ d ++ u "''") = u "'''T" ++ d ++ u "'''".
Proof.
  intros Hd Hf. split.
  - change (u "'T" ++ d ++ u "'") with ([QUOTE] ++ u "T" ++ d ++ [QUOTE]).
    rewrite (@fix_business_terms_of_code [QUOTE] d eq_refl Hf).
    unfold re_sub. change ([QUOTE] ++ u "T" ++ d ++ [QUOTE])
      with (QUOTE :: 84%N :: d ++ QUOTE :: []).
    rewrite (@tcode_sub_code d [] Hd Hf). cbn [sub_aux].
    rewrite app_nil_r. reflexivity.
  - change (u "''T" ++ d ++ u "''")
      with ([QUOTE; QUOTE] ++ u "T" ++ d ++ [QUOTE; QUOTE]).
    rewrite (@fix_business_terms_of_code [QUOTE; QUOTE] d eq_refl Hf).
    unfold re_sub. change ([QUOTE; QUOTE] ++ u "T" ++ d ++ [QUOTE; QUOTE])
      with (QUOTE :: QUOTE :: 84%N :: d ++ QUOTE :: [QUOTE]).
    rewrite sub_aux_no_match by (rewrite match_here_tcode; reflexivity).
    rewrite (@tcode_sub_code d [QUOTE] Hd Hf).
    rewrite sub_aux_no_match by (rewrite match_here_tcode; reflexivity).
    reflexivity.
Qed.

Lemma fix_business_terms_doubles_codes_again_witness :
  fix_business_terms (u "'T" ++ u "100" ++ u "'")
  = u "''T" ++ u "100" ++ u "''" /\
  fix_business_terms (u "''T" ++ u "100" ++ u "''")
  = u "'''T" ++ u "100" ++ u "'''".
Proof.
  apply (@fix_business_terms_doubles_codes_again (u "100")).
  - discriminate.
  - reflexivity.
Defined.

(** ** A symbol in its place *)

Lemma straddle_free_drop (p b : str) : forall x a,
  straddle_free p (x ++ a) b = true -> straddle_free p a b = true.
Proof.
  induction x as [|c x IH]; intros a H; [exact H|].
  apply IH. exact (@straddle_free_tail p c (x ++ a) b H).
Qed.

(** Without an occurrence across the joint, the two parts are
    rewritten apart. *)
Lemma replace_aux_app (old new b : str) :
  old <> [] ->
  forall n a, length a <= n -> straddle_free old a b = true ->
  replace_aux old new 0 (a ++ b)
  = replace_aux old new 0 a ++ replace_aux old new 0 b.
Proof.
  intros Ho. induction n as [|n IH]; intros a Hn Hs.
  - destruct a; [reflexivity | cbn in Hn; lia].
  - destruct a as [|c a]; [reflexivity|].
    pose proof (@straddle_free_head old (c :: a) b Hs) as Hp.
    destruct (prefixb old (c :: a)) eqn:E.
    + apply prefixb_spec in E. destruct E as [a' E]. rewrite E in Hs |- *.
      rewrite <- app_assoc.
      rewrite !(@replace_aux_head old new _ Ho), <- app_assoc. f_equal.
      apply IH; [|exact (@straddle_free_drop old b old a' Hs)].
      assert (L : length (c :: a) = length old + length a')
        by (rewrite E, length_app; reflexivity).
      destruct old; [contradiction|]. cbn [length] in *. lia.
    + change ((c :: a) ++ b) with (c :: (a ++ b)).
      rewrite (@replace_aux_step old new c (a ++ b))
        by (apply Hp; discriminate).
      rewrite (@replace_aux_step old new c a E). cbn [app]. f_equal.
      apply IH; [cbn in Hn; lia|].
      exact (@straddle_free_tail old c a b Hs).
Qed.

Lemma skipn_head_in (old : str) : forall k,
  1 <= k < length old ->
  exists y rest, skipn k old = y :: rest /\ mem_char (tl old) y = true.
Proof.
  destruct old as [|o t]; [cbn; lia|]. cbn [tl length].
  intros k Hk. destruct k as [|k]; [lia|]. cbn [skipn].
  assert (Hk' : k < length t) by lia. clear Hk. revert k Hk'.
  induction t as [|x t IH]; intros k Hk; [cbn in Hk; lia|].
  destruct k as [|k].
  - exists x, t. split; [reflexivity|]. unfold mem_char. cbn [existsb].
    rewrite N.eqb_refl. reflexivity.
  - cbn [length] in Hk. destruct (IH k ltac:(lia)) as [y [rest [E M]]].
    exists y, rest. split; [exact E|]. unfold mem_char in *. cbn [existsb].
    rewrite M. apply orb_true_r.
Qed.

(** No occurrence of [old] goes across a joint after which stands a
    character that [old] holds in its first place only, or not at all. *)
Lemma straddle_free_before_char (old a : str) (h : char) (b : str) :
  mem_char (tl old) h = false -> straddle_free old a (h :: b) = true.
Proof.
  intros Hh. apply straddle_free_intro. intros k Hk. right.
  destruct (@skipn_head_in old k Hk) as [y [rest [E M]]]. rewrite E.
  cbn [prefixb]. destruct (N.eqb_spec y h) as [->|]; [|reflexivity].
  congruence.
Qed.

Lemma suffixb_last (x : str) (d : char) : forall w,
  x <> [] -> suffixb x w = true -> last x d = last w d.
Proof.
  intros w Hx. induction w as [|c t IH]; intros H.
  - cbn [suffixb] in H. rewrite orb_false_r in H. apply str_eqb_eq in H.
    contradiction.
  - cbn [suffixb] in H. apply orb_true_iff in H. destruct H as [H|H].
    + apply str_eqb_eq in H. rewrite H. reflexivity.
    + rewrite (IH H). destruct t as [|c1 t]; [|reflexivity].
      cbn [suffixb] in H. rewrite orb_false_r in H. apply str_eqb_eq in H.
      contradiction.
Qed.

Lemma firstn_last_in (d : char) (old : str) : forall k,
  1 <= k < length old ->
  firstn k old <> [] /\
  mem_char (removelast old) (last (firstn k old) d) = true.
Proof.
  induction old as [|o t IH]; intros k Hk; [cbn in Hk; lia|].
  destruct k as [|k]; [lia|]. cbn [firstn]. split; [discriminate|].
  destruct t as [|o1 t]; [cbn in Hk; lia|].
  change (removelast (o :: o1 :: t)) with (o :: removelast (o1 :: t)).
  unfold mem_char. cbn [existsb]. destruct k as [|k].
  - cbn [firstn last]. rewrite N.eqb_refl. reflexivity.
  - destruct (IH (S k) ltac:(cbn [length] in *; lia)) as [Hn Hm].
    change (last (o :: firstn (S k) (o1 :: t)) d)
      with (last (firstn (S k) (o1 :: t)) d).
    unfold mem_char in Hm. rewrite Hm. apply orb_true_r.
Qed.

Lemma straddle_free_after_char (old w b : str) :
  mem_char (removelast old) (last w 0%N) = false ->
  straddle_free old w b = true.
Proof.
  intros Hl. apply straddle_free_intro. intros k Hk. left.
  destruct (@firstn_last_in 0%N old k Hk) as [Hn Hm].
  destruct (suffixb (firstn k old) w) eqn:E; [|reflexivity].
  rewrite (@suffixb_last _ 0%N w Hn E) in Hm. congruence.
Qed.

(** A word between two texts: when no occurrence of [old] can go
    across its ends, the three parts are rewritten apart. *)
Lemma replace_around (old new A w B : str) :
  old <> [] ->
  mem_char (tl old) (hd 0%N w) = false -> w <> [] ->
  mem_char (removelast old) (last w 0%N) = false ->
  replace old new (A ++ w ++ B)
  = replace old new A ++ replace old new w ++ replace old new B.
Proof.
  intros Ho Hh Hw Hl. rewrite !(@replace_not_empty old new _ Ho).
  destruct w as [|h w']; [contradiction|]. cbn [hd] in Hh.
  change ((h :: w') ++ B) with (h :: (w' ++ B)).
  rewrite (@replace_aux_app old new _ Ho (length A) A (le_n _)
             (@straddle_free_before_char old A h (w' ++ B) Hh)).
  f_equal. change (h :: (w' ++ B)) with ((h :: w') ++ B).
  exact (@replace_aux_app old new B Ho (length (h :: w')) (h :: w') (le_n _)
           (@straddle_free_after_char old (h :: w') B Hl)).
Qed.

Lemma lstrip_by_before_word p (w B : str) : forall A,
  head_not p w = true -> w <> [] ->
  lstrip_by p (A ++ w ++ B) = lstrip_by p A ++ w ++ B.
Proof.
  intros A Hw Hne. induction A as [|x A IH].
  - cbn [app lstrip_by]. destruct w as [|h w]; [contradiction|].
    cbn [head_not] in Hw. cbn [app lstrip_by].
    apply negb_true_iff in Hw. rewrite Hw. reflexivity.
  - cbn [app lstrip_by]. destruct (p x); [exact IH | reflexivity].
Qed.

Lemma collapse_word (w : str) : forall B,
  forallb (fun c => negb (is_space c)) w = true ->
  collapse (w ++ B) = w ++ collapse B.
Proof.
  induction w as [|c w IH]; intros B H; [reflexivity|].
  cbn [forallb] in H. apply andb_true_iff in H. destruct H as [Hc H].
  apply negb_true_iff in Hc. cbn [app].
  rewrite (@collapse_other c (w ++ B) Hc), (IH B H). reflexivity.
Qed.

Lemma collapse_around (w B : str) :
  w <> [] -> forallb (fun c => negb (is_space c)) w = true ->
  forall n A, length A <= n ->
  collapse (A ++ w ++ B) = collapse A ++ w ++ collapse B.
Proof.
  intros Hne Hw.
  assert (Hh : head_not is_space w = true).
  { destruct w as [|h w]; [reflexivity|]. cbn [forallb] in Hw.
    apply andb_true_iff in Hw. apply Hw. }
  induction n as [|n IH]; intros A Hn.
  - destruct A; [|cbn in Hn; lia]. exact (@collapse_word w B Hw).
  - destruct A as [|x A]; [exact (@collapse_word w B Hw)|].
    cbn [app]. destruct (is_space x) eqn:Hx.
    + rewrite !(@collapse_space x _ Hx).
      rewrite (@lstrip_by_before_word is_space w B A Hh Hne).
      cbn [app]. f_equal. apply IH.
      pose proof (lstrip_by_length is_space A). cbn in Hn. lia.
    + rewrite !(@collapse_other x _ Hx). cbn [app]. f_equal.
      apply IH. cbn in Hn. lia.
Qed.

Ltac around old new w w' :=
  rewrite (@replace_around old new _ w _
             ltac:(discriminate) eq_refl ltac:(discriminate) eq_refl);
  change (replace old new w) with w'.

Ltac around_spaces w :=
  match goal with
  | |- context [re_sub no_flags spaces_re ?f (?A ++ w ++ ?B)] =>
      change (re_sub no_flags spaces_re f (A ++ w ++ B))
        with (collapse (A ++ w ++ B));
      rewrite (@collapse_around w B ltac:(discriminate) eq_refl
                 (length A) A (le_n _))
  end.

(** X23 ([fix_newlines_and_formatting]).  A mis-encoded symbol is
    rewritten wherever it stands, and the text before it and the text
    after it are normalised each on its own. *)
Theorem symbol_rewritten_in_place (symbol ascii pre post : str) :
  In (symbol, ascii) rewritten_symbols ->
  fix_newlines_and_formatting (pre ++ symbol ++ post)
  = fix_newlines_and_formatting pre ++ ascii
    ++ fix_newlines_and_formatting post.
Proof.
  intros H. unfold rewritten_symbols in H. cbn [In] in H.
  destruct H as [H|[H|[H|[]]]]; injection H as <- <-;
    unfold fix_newlines_and_formatting at 1.
  - around [BACKSLASH; 110%N] [NL] [172; 169]%N [172; 169]%N.
    around [NL] [SPACE] [172; 169]%N [172; 169]%N.
    around_spaces [172; 169]%N.
    around [172; 169]%N (u "(c)") [172; 169]%N (u "(c)").
    around [172; 198]%N (u "(R)") (u "(c)") (u "(c)").
    around [8218; 209; 162]%N (u "(TM)") (u "(c)") (u "(c)").
    reflexivity.
  - around [BACKSLASH; 110%N] [NL] [172; 198]%N [172; 198]%N.
    around [NL] [SPACE] [172; 198]%N [172; 198]%N.
    around_spaces [172; 198]%N.
    around [172; 169]%N (u "(c)") [172; 198]%N [172; 198]%N.
    around [172; 198]%N (u "(R)") [172; 198]%N (u "(R)").
    around [8218; 209; 162]%N (u "(TM)") (u "(R)") (u "(R)").
    reflexivity.
  - around [BACKSLASH; 110%N] [NL] [8218; 209; 162]%N [8218; 209; 162]%N.
    around [NL] [SPACE] [8218; 209; 162]%N [8218; 209; 162]%N.
    around_spaces [8218; 209; 162]%N.
    around [172; 169]%N (u "(c)") [8218; 209; 162]%N [8218; 209; 162]%N.
    around [172; 198]%N (u "(R)") [8218; 209; 162]%N [8218; 209; 162]%N.
    around [8218; 209; 162]%N (u "(TM)") [8218; 209; 162]%N (u "(TM)").
    reflexivity.
Qed.

Lemma symbol_rewritten_in_place_witness :
  fix_newlines_and_formatting
    (u "Download PDF\n" ++ [172; 169]%N ++ u " 2025   e&.\nAll Rights")
  = fix_newlines_and_formatting (u "Download PDF\n") ++ u "(c)"
    ++ fix_newlines_and_formatting (u " 2025   e&.\nAll Rights").
Proof.
  apply (@symbol_rewritten_in_place [172; 169]%N (u "(c)")
           (u "Download PDF\n") (u " 2025   e&.\nAll Rights")).
  left. reflexivity.
Defined.

(** ** The script of a plain dump *)

Lemma lit_prefix_app fl (w : str) : forall s e,
  length w <= length s ->
  lit_prefix fl w (s ++ e)
  = match lit_prefix fl w s with
    | Some t => Some (t ++ e)
    | None => None
    end.
Proof.
  induction w as [|a w IH]; intros s e H; [reflexivity|].
  destruct s as [|x s]; [cbn in H; lia|].
  cbn [app lit_prefix]. destruct (lit_eq fl a x); [|reflexivity].
  apply IH. cbn in H. lia.
Qed.

(** Whether the keyword stands at the head of a text is seen on its
    first seven characters. *)
Lemma after_values_keyword_app (s e : str) :
  7 <= length s ->
  after_values_keyword s = None -> after_values_keyword (s ++ e) = None.
Proof.
  intros Hl. unfold after_values_keyword.
  rewrite (@lit_prefix_app values_flags (u "VALUES") s e)
    by (cbn [length u list_ascii_of_string map]; lia).
  pose proof (@lit_prefix_split values_flags (u "VALUES") s) as Hs.
  destruct (lit_prefix values_flags (u "VALUES") s) as [t|] eqn:E;
    [|reflexivity].
  destruct t as [|x t].
  - exfalso. destruct (Hs [] eq_refl) as [kw Hk].
    assert (L : length kw = 6).
    { clear - E Hk. rewrite app_nil_r in Hk. subst kw.
      do 6 (destruct s as [|? s]; [discriminate E|]; cbn [lit_prefix u
        list_ascii_of_string map] in E;
        match type of E with
        | (if ?b then _ else _) = _ => destruct b; [|discriminate E]
        end).
      cbn in E. injection E as ->. reflexivity. }
    rewrite Hk, app_nil_r in Hl. lia.
  - cbn [app]. destruct (is_space x); [discriminate | reflexivity].
Qed.

Lemma find_values_none (s : str) :
  find_values s = None ->
  after_values_keyword s = None /\
  match s with
  | [] => True
  | _ :: t => find_values t = None
  end.
Proof.
  destruct s as [|x t]; cbn [find_values]; intros H.
  - destruct (after_values_keyword []); [discriminate|]. split; reflexivity.
  - destruct (after_values_keyword (x :: t)); [discriminate|].
    split; [reflexivity | exact H].
Qed.

(** The keyword is found where it stands when it is not found in the
    text before it, the keyword itself included. *)
Lemma find_values_after (tail r : str) : forall head,
  find_values (head ++ u "VALUES") = None ->
  after_values_keyword (u "VALUES" ++ tail) = Some r ->
  find_values (head ++ u "VALUES" ++ tail) = Some r.
Proof.
  induction head as [|c h IH]; intros Hn Hk.
  - cbn [app]. cbn [app] in Hk. cbn [find_values].
    change (after_values_keyword (u "VALUES" ++ tail))
      with (after_values_keyword
              (86 :: 65 :: 76 :: 85 :: 69 :: 83 :: tail)%N) in Hk.
    change (u "VALUES" ++ tail) with (86 :: 65 :: 76 :: 85 :: 69 :: 83 :: tail)%N.
    cbn [find_values]. rewrite Hk. reflexivity.
  - destruct (@find_values_none _ Hn) as [H1 H2]. cbn [app] in H1, H2.
    change ((c :: h) ++ u "VALUES" ++ tail)
      with (c :: (h ++ u "VALUES" ++ tail)).
    cbn [find_values].
    replace (c :: h ++ u "VALUES" ++ tail)
      with ((c :: h ++ u "VALUES") ++ tail)
      by (cbn [app]; rewrite <- app_assoc; reflexivity).
    rewrite (@after_values_keyword_app (c :: h ++ u "VALUES") tail);
      [| cbn [length]; rewrite length_app; cbn; lia | exact H1].
    exact (IH H2 Hk).
Qed.

Lemma lstrip_by_spaces p (ws t : str) :
  forallb p ws = true -> lstrip_by p (ws ++ t) = lstrip_by p t.
Proof.
  induction ws as [|x ws IH]; intros H; [reflexivity|].
  cbn [forallb] in H. apply andb_true_iff in H. destruct H as [Hx H].
  cbn [app lstrip_by]. rewrite Hx. exact (IH H).
Qed.

Lemma lstrip_by_until p (c : char) (r : str) : forall b,
  p c = false -> lstrip_by p (b ++ c :: r) = lstrip_by p b ++ c :: r.
Proof.
  intros b Hc. induction b as [|x b IH].
  - cbn [app lstrip_by]. rewrite Hc. reflexivity.
  - cbn [app lstrip_by]. destruct (p x); [exact IH | reflexivity].
Qed.

Lemma comment_line_in_app_r (a b : str) :
  comment_line_in (a ++ b) = false -> comment_line_in b = false.
Proof.
  induction a as [|x a IH]; intros H; [exact H|].
  cbn [app comment_line_in] in H. apply orb_false_iff in H.
  apply IH. apply H.
Qed.

Lemma strip_lstrip p (x : str) : strip_by p (lstrip_by p x) = strip_by p x.
Proof.
  unfold strip_by.
  rewrite (@lstrip_by_fixed p (lstrip_by p x) (lstrip_by_head p x)).
  reflexivity.
Qed.

Lemma values_block_of_dump (head ws body rest : str) :
  find_values (head ++ u "VALUES") = None ->
  ws <> [] -> forallb is_space ws = true ->
  contains [SEMI] body = false -> comment_line_in body = false ->
  values_block (head ++ u "VALUES" ++ ws ++ body ++ SEMI :: rest)
  = strip body.
Proof.
  intros Hn Hne Hw Hs Hc. unfold values_block.
  destruct ws as [|x ws]; [contradiction|].
  cbn [forallb] in Hw. apply andb_true_iff in Hw. destruct Hw as [Hx Hw].
  rewrite (@find_values_after ((x :: ws) ++ body ++ SEMI :: rest)
             (lstrip_by is_space body ++ SEMI :: rest) head Hn).
  - destruct (lstrip_by_split is_space body) as [pre [E _]].
    rewrite (@values_span_semicolon (lstrip_by is_space body) rest).
    + apply strip_lstrip.
    + rewrite E in Hs. exact (@contains_app_false_r [SEMI] pre _ Hs).
    + rewrite E in Hc. exact (@comment_line_in_app_r pre _ Hc).
  - unfold after_values_keyword.
    change (lit_prefix values_flags (u "VALUES")
              (u "VALUES" ++ (x :: ws) ++ body ++ SEMI :: rest))
      with (Some ((x :: ws) ++ body ++ SEMI :: rest)).
    cbn [app]. rewrite Hx.
    rewrite (@lstrip_by_spaces is_space ws _ Hw).
    rewrite (@lstrip_by_until is_space SEMI rest body eq_refl). reflexivity.
Qed.

(** X24 ([clean_sql_data], from the dump to the script).  For a dump
    made of one INSERT statement, with the VALUES keyword found nowhere
    before its place and a block of rows that holds no semicolon and no
    comment line, the script is written for the table name in
    PascalCase, with the columns of the statement, and with the cleaned
    rows. *)
Theorem script_of_a_plain_dump
    (table_name name cols ws body rest : str) :
  name <> [] -> forallb is_word name = true ->
  cols <> [] -> forallb (not_char RPAREN) cols = true ->
  find_values (u "INSERT INTO " ++ name ++ u " (" ++ cols ++ u ") VALUES")
  = None ->
  ws <> [] -> forallb is_space ws = true ->
  contains [SEMI] body = false -> comment_line_in body = false ->
  output_script table_name
    (u "INSERT INTO " ++ name ++ u " (" ++ cols ++ u ") VALUES" ++ ws
       ++ body ++ SEMI :: rest)
  = sql_server_content (pascal_case name)
      (u "(" ++ join (u ", ") (column_names cols) ++ u ")")
      (clean_values (strip body)).
Proof.
  intros Hn Hw Hc Hp Hv Hs Hsp Hb Hl.
  set (content := u "INSERT INTO " ++ name ++ u " (" ++ cols ++ u ") VALUES"
                    ++ ws ++ body ++ SEMI :: rest).
  assert (Hi : find_insert content = Some (name, cols)).
  { apply find_insert_here.
    exists (u "INSERT INTO "), [], [], (u " "),
           (u " VALUES" ++ ws ++ body ++ SEMI :: rest).
    split; [reflexivity|].
    split; [reflexivity|]. split; [left; reflexivity|].
    split; [left; reflexivity|]. split; [exact Hn|]. split; [exact Hw|].
    split; [reflexivity|]. split; [exact Hc | exact Hp]. }
  assert (He : extract_and_clean_values content = strip body).
  { rewrite extract_is_values_block.
    replace content
      with ((u "INSERT INTO " ++ name ++ u " (" ++ cols ++ u ") ")
              ++ u "VALUES" ++ ws ++ body ++ SEMI :: rest).
    - apply values_block_of_dump; try assumption.
      rewrite <- Hv. rewrite <- !app_assoc. reflexivity.
    - unfold content. rewrite <- !app_assoc. reflexivity. }
  unfold output_script. rewrite detect_is_find_insert, Hi, He.
  unfold column_list_of.
  pose proof (column_names_not_nil cols) as Hcols.
  destruct (column_names cols); [contradiction | reflexivity].
Qed.

Lemma script_of_a_plain_dump_witness :
  output_script (u "CombinedAddons")
    (u "INSERT INTO " ++ u "combined_bio" ++ u " ("
       ++ u "`internal_id`, `Biography`" ++ u ") VALUES" ++ u " "
       ++ u "(1, 'it's')" ++ SEMI :: [])
  = sql_server_content (pascal_case (u "combined_bio"))
      (u "(" ++ join (u ", ") (column_names (u "`internal_id`, `Biography`"))
         ++ u ")")
      (clean_values (strip (u "(1, 'it's')"))).
Proof.
  apply (@script_of_a_plain_dump (u "CombinedAddons") (u "combined_bio")
           (u "`internal_id`, `Biography`") (u " ") (u "(1, 'it's')") []).
  - discriminate.
  - reflexivity.
  - discriminate.
  - reflexivity.
  - vm_compute. reflexivity.
  - discriminate.
  - reflexivity.
  - reflexivity.
  - reflexivity.
Defined.
